(** * FastPaw SaaS security gateway: a shallow embedding

    The development embeds the security middleware (middleware/security.js:
    [validateAPIToken], [detectAttacks], [logSecurityEvent],
    [logAttackAttempt], [checkBlockedIP]), the session middlewares
    ([authenticateToken], [requireAdmin]), the token routes (issuance and
    revocation), the consult proxy and the public consult route of
    nodejs-web/server.js, and the tables of database/init.sql they read and
    write.

    Conventions.
    - Instants are milliseconds since the epoch, in [Z].  One request is
      served at one instant [now], which stands for both [new Date()] and
      [CURRENT_TIMESTAMP].
    - A JavaScript string is a [string]; a character above 127 is neither a
      word character nor equal, under the [i] flag, to an ASCII letter,
      which is how the four detector expressions treat it.
    - Every [pool.query] is one step of the state and exception monad [M];
      it can throw, either because the store is unreachable at that step or
      because the statement names a column the table does not have or
      breaks a constraint of the schema.  What is written before a throw
      stays written: the state is threaded through the exception. *)

From Stdlib Require Import ZArith List String Ascii Strings.Byte Bool Lia.
Import ListNotations.
Local Open Scope string_scope.
Local Open Scope Z_scope.

(** ** Strings as JavaScript uses them *)

Module Str.

Definition chars (s : string) : list ascii := list_ascii_of_string s.

(** [s.startsWith(p)] *)
Fixpoint startsWith (p s : string) : bool :=
  match p, s with
  | EmptyString, _ => true
  | String a p', String b s' => Ascii.eqb a b && startsWith p' s'
  | String _ _, EmptyString => false
  end.

(** [s.includes(p)] *)
Fixpoint includes (p s : string) : bool :=
  startsWith p s ||
  match s with
  | EmptyString => false
  | String _ s' => includes p s'
  end.

(** [s.substring(0, n)] *)
Fixpoint take (n : nat) (s : string) : string :=
  match n, s with
  | O, _ => EmptyString
  | S _, EmptyString => EmptyString
  | S n', String a s' => String a (take n' s')
  end.

Fixpoint drop (n : nat) (s : string) : string :=
  match n, s with
  | O, _ => s
  | S _, EmptyString => EmptyString
  | S n', String _ s' => drop n' s'
  end.

(** [s.replace(p, r)] for a pattern [p] that is a string: the first
    occurrence is replaced; [r] has no dollar sign. *)
Fixpoint replace (p r s : string) : string :=
  if startsWith p s then r ++ drop (String.length p) s
  else match s with
       | EmptyString => EmptyString
       | String c s' => String c (replace p r s')
       end.

Definition is_space (c : ascii) : bool :=
  let n := nat_of_ascii c in
  (Nat.eqb n 32 || (Nat.leb 9 n && Nat.leb n 13))%bool.

Fixpoint trim_left (s : string) : string :=
  match s with
  | String a s' => if is_space a then trim_left s' else s
  | EmptyString => EmptyString
  end.

Definition rev (s : string) : string :=
  string_of_list_ascii (List.rev (list_ascii_of_string s)).

(** [s.trim()] on ASCII white space *)
Definition trim (s : string) : string := rev (trim_left (rev (trim_left s))).

Definition hex_digit (n : nat) : ascii :=
  nth n (chars "0123456789abcdef") "0"%char.

(** [Buffer.toString('hex')] *)
Fixpoint hex (bytes : list byte) : string :=
  match bytes with
  | [] => EmptyString
  | b :: rest =>
      let n := Byte.to_nat b in
      String (hex_digit (Nat.div n 16)) (String (hex_digit (Nat.modulo n 16)) (hex rest))
  end.

(** Decimal rendering of an integer, as [String(n)] gives for a safe integer. *)
Fixpoint dec_pos (fuel : nat) (n : Z) (acc : string) : string :=
  match fuel with
  | O => acc
  | S fuel' =>
      let d := ascii_of_nat (48 + Z.to_nat (n mod 10)) in
      if n <? 10 then String d acc else dec_pos fuel' (n / 10) (String d acc)
  end.

Definition dec (n : Z) : string :=
  if n <? 0 then String "-" (dec_pos (S (Z.to_nat (Z.log2 (- n)))) (- n) EmptyString)
  else dec_pos (S (Z.to_nat (Z.log2 n))) n EmptyString.

End Str.

(** ** Regular expressions

    The detectors are regular-expression literals.  [regex] is the syntax
    they use; [ends] gives every position at which a match starting at
    position [i] can end, so that [test] is true exactly when the
    backtracking matcher of the engine finds a match from some start
    position (the expressions carry no back-reference, so which match is
    found first does not matter to [test]). *)

Module Re.

Inductive regex : Type :=
| Eps
| Chr (c : ascii)                 (* a literal character *)
| Cls (p : ascii -> bool)         (* a character class *)
| WordB                           (* \b *)
| Bol                             (* ^ *)
| Eol                             (* $ *)
| Cat (r1 r2 : regex)
| Alt (r1 r2 : regex)
| Star (r : regex)
| NegLook (r : regex).            (* (?!r) *)

Definition is_upper (c : ascii) : bool :=
  let n := nat_of_ascii c in (Nat.leb 65 n && Nat.leb n 90)%bool.
Definition is_lower (c : ascii) : bool :=
  let n := nat_of_ascii c in (Nat.leb 97 n && Nat.leb n 122)%bool.
Definition is_digit (c : ascii) : bool :=
  let n := nat_of_ascii c in (Nat.leb 48 n && Nat.leb n 57)%bool.

(** \w *)
Definition is_word (c : ascii) : bool :=
  (is_upper c || is_lower c || is_digit c || Ascii.eqb c "_")%bool.

(** Canonicalize of the [i] flag without the [u] flag. *)
Definition canon (c : ascii) : ascii :=
  if is_lower c then ascii_of_nat (nat_of_ascii c - 32) else c.

Definition chr_eq (ignoreCase : bool) (a b : ascii) : bool :=
  if ignoreCase then Ascii.eqb (canon a) (canon b) else Ascii.eqb a b.

Definition word_at (s : list ascii) (i : nat) : bool :=
  match nth_error s i with Some c => is_word c | None => false end.

Definition boundary (s : list ascii) (i : nat) : bool :=
  xorb (match i with O => false | S j => word_at s j end) (word_at s i).

Definition mem (n : nat) (l : list nat) : bool := existsb (Nat.eqb n) l.

Fixpoint union (l acc : list nat) : list nat :=
  match l with
  | [] => acc
  | n :: l' => if mem n acc then union l' acc else union l' (acc ++ [n])
  end.

(** Closure of [step] from the positions [acc]: what [r*] reaches. *)
Fixpoint closure (fuel : nat) (step : nat -> list nat) (acc : list nat) : list nat :=
  match fuel with
  | O => acc
  | S fuel' => closure fuel' step (union (flat_map step acc) acc)
  end.

Fixpoint ends (ic : bool) (r : regex) (s : list ascii) (i : nat) : list nat :=
  match r with
  | Eps => [i]
  | Chr c =>
      match nth_error s i with
      | Some d => if chr_eq ic c d then [S i] else []
      | None => []
      end
  | Cls p =>
      match nth_error s i with
      | Some d => if p d then [S i] else []
      | None => []
      end
  | WordB => if boundary s i then [i] else []
  | Bol => match i with O => [i] | S _ => [] end
  | Eol => if Nat.eqb i (List.length s) then [i] else []
  | Cat r1 r2 => union (flat_map (ends ic r2 s) (ends ic r1 s i)) []
  | Alt r1 r2 => union (ends ic r2 s i) (ends ic r1 s i)
  | Star r1 => closure (S (List.length s)) (ends ic r1 s) [i]
  | NegLook r1 => match ends ic r1 s i with [] => [i] | _ :: _ => [] end
  end.

(** A literal word, character by character. *)
Fixpoint lit (w : string) : regex :=
  match w with
  | EmptyString => Eps
  | String c EmptyString => Chr c
  | String c w' => Cat (Chr c) (lit w')
  end.

Fixpoint alts (rs : list regex) : regex :=
  match rs with
  | [] => NegLook Eps
  | [r] => r
  | r :: rs' => Alt r (alts rs')
  end.

Definition matches_at (ic : bool) (r : regex) (s : list ascii) (i : nat) : bool :=
  match ends ic r s i with [] => false | _ :: _ => true end.

(** A regular-expression object: its [source] text, its [i] flag and the
    expression the text denotes. *)
Record RegExp : Type := mkRegExp {
  source : string;
  ignoreCase : bool;
  expr : regex
}.

(** [pattern.test(str)] on a fresh object ([lastIndex] = 0). *)
Definition test (re : RegExp) (str : string) : bool :=
  let s := Str.chars str in
  existsb (matches_at (ignoreCase re) (expr re) s) (seq 0 (S (List.length s))).

End Re.

(** ** JSON values and [JSON.stringify]

    Numbers are the integers; nothing in the gateway computes with a
    fractional number (the response time the consult route logs is kept as
    the text it is parsed from). *)

#[local] Set Warnings "-register-all".

Inductive json : Type :=
| JNull
| JBool (b : bool)
| JNum (n : Z)
| JStr (s : string)
| JArr (items : list json)
| JObj (fields : list (string * json)).

Module Json.

Definition quote : ascii := ascii_of_nat 34.
Definition backslash : ascii := ascii_of_nat 92.

Definition u00 (n : nat) : string :=
  String backslash
    (String "u" (String "0" (String "0" (String (Str.hex_digit (Nat.div n 16))
      (String (Str.hex_digit (Nat.modulo n 16)) EmptyString))))).

Definition escape_char (c : ascii) : string :=
  let n := nat_of_ascii c in
  if Nat.eqb n 34 then String backslash (String quote EmptyString)
  else if Nat.eqb n 92 then String backslash (String backslash EmptyString)
  else if Nat.eqb n 8 then String backslash "b"
  else if Nat.eqb n 9 then String backslash "t"
  else if Nat.eqb n 10 then String backslash "n"
  else if Nat.eqb n 12 then String backslash "f"
  else if Nat.eqb n 13 then String backslash "r"
  else if Nat.ltb n 32 then u00 n
  else String c EmptyString.

(** QuoteJSONString *)
Fixpoint escape (s : string) : string :=
  match s with
  | EmptyString => EmptyString
  | String c s' => escape_char c ++ escape s'
  end.

Definition quoted (s : string) : string :=
  String quote (escape s ++ String quote EmptyString).

Fixpoint join (sep : string) (l : list string) : string :=
  match l with
  | [] => EmptyString
  | [x] => x
  | x :: l' => x ++ sep ++ join sep l'
  end.

(** [JSON.stringify(v)] *)
Fixpoint stringify (v : json) : string :=
  match v with
  | JNull => "null"
  | JBool true => "true"
  | JBool false => "false"
  | JNum n => Str.dec n
  | JStr s => quoted s
  | JArr items => "[" ++ join "," (map stringify items) ++ "]"
  | JObj fields =>
      "{" ++ join "," (map (fun kv => quoted (fst kv) ++ ":" ++ stringify (snd kv)) fields) ++ "}"
  end.

(** [obj.key], [undefined] being [None] *)
Fixpoint get (key : string) (fields : list (string * json)) : option json :=
  match fields with
  | [] => None
  | (k, v) :: rest => if String.eqb k key then Some v else get key rest
  end.

(** [{...obj, key: v}] *)
Fixpoint set (key : string) (v : json) (fields : list (string * json)) : list (string * json) :=
  match fields with
  | [] => [(key, v)]
  | (k, v0) :: rest => if String.eqb k key then (k, v) :: rest else (k, v0) :: set key v rest
  end.

End Json.

(** ** The tables of database/init.sql

    A table is the list of its rows in insertion order.  Only the columns
    the gateway reads or writes are kept.  The statements that insert check
    the uniqueness constraints, the CHECK lists, the length limits of the
    VARCHAR columns a request can fill with a text of its own (the path and
    the method of the request, the ruc) and the range of the one DECIMAL
    column.  Addresses are those Express gives (INET takes them), and the
    ids written to a foreign-key column are read from the row they refer
    to.  The store carries the definition of [security_events], the one
    table the handlers address with columns and values of their own
    choosing: [SecurityEvents.init_sql] is the table init.sql creates. *)

Module Usuarios.
Record row : Type := mk {
  id : Z;
  nombre : string;
  email : string;
  rol : string;
  estado : string;
  plan : string
}.
End Usuarios.

Module ApiTokens.
Record row : Type := mk {
  id : Z;
  usuario_id : Z;
  token_hash : string;
  nombre : string;
  descripcion : option string;
  limite_requests_diario : Z;
  requests_utilizados_hoy : Z;
  estado : string;
  fecha_expiracion : option Z;
  ultimo_uso : option Z;
  ip_ultimo_uso : option string;
  user_agent_ultimo_uso : option string;
  total_requests_historico : Z
}.

Definition set_estado (e : string) (t : row) : row :=
  mk (id t) (usuario_id t) (token_hash t) (nombre t) (descripcion t)
     (limite_requests_diario t) (requests_utilizados_hoy t) e
     (fecha_expiracion t) (ultimo_uso t) (ip_ultimo_uso t)
     (user_agent_ultimo_uso t) (total_requests_historico t).

(** SET ultimo_uso = CURRENT_TIMESTAMP, ip_ultimo_uso = $1,
    user_agent_ultimo_uso = $2 *)
Definition set_last_use (now : Z) (ip ua : option string) (t : row) : row :=
  mk (id t) (usuario_id t) (token_hash t) (nombre t) (descripcion t)
     (limite_requests_diario t) (requests_utilizados_hoy t) (estado t)
     (fecha_expiracion t) (Some now) ip ua (total_requests_historico t).

(** SET requests_utilizados_hoy = requests_utilizados_hoy + 1,
    total_requests_historico = total_requests_historico + 1,
    ultimo_uso = CURRENT_TIMESTAMP *)
Definition charge (now : Z) (t : row) : row :=
  mk (id t) (usuario_id t) (token_hash t) (nombre t) (descripcion t)
     (limite_requests_diario t) (requests_utilizados_hoy t + 1) (estado t)
     (fecha_expiracion t) (Some now) (ip_ultimo_uso t)
     (user_agent_ultimo_uso t) (total_requests_historico t + 1).
End ApiTokens.

Module LimitsUsage.
Record row : Type := mk {
  usuario_id : Z;
  fecha : Z;                 (* the day, counted from the epoch *)
  requests_count : Z
}.
End LimitsUsage.

Module SecurityEvents.
Record row : Type := mk {
  ip_address : string;
  usuario_id : option Z;
  evento_tipo : string;
  severidad : string;
  endpoint : option string;
  payload_sospechoso : option string;
  timestamp : Z
}.

(** The definition of the table: the columns it has and the values its
    CHECK constraint admits for [evento_tipo]. *)
Record table : Type := mkTable {
  columns : list string;
  evento_tipo_check : list string
}.

(** CREATE TABLE security_events of database/init.sql. *)
Definition init_sql : table :=
  mkTable
    ["id"; "ip_address"; "usuario_id"; "token_id"; "evento_tipo"; "severidad";
     "endpoint"; "metodo_http"; "payload_sospechoso"; "user_agent"; "referrer";
     "intentos_count"; "resuelto"; "notas_investigacion"; "investigado_por";
     "timestamp"]
    ["login_fallido"; "token_invalido"; "token_expirado"; "rate_limit_excedido";
     "ip_sospechosa"; "patron_anomalo"; "multiple_tokens"].
End SecurityEvents.

Module AttackAttempts.
Record row : Type := mk {
  ip_address : string;
  usuario_id : option Z;
  attack_type : string;
  severidad : string;
  payload : string;
  payload_hash : string;
  endpoint : string;
  metodo_http : string;
  timestamp : Z
}.

Definition attack_type_check : list string :=
  ["sql_injection"; "xss"; "path_traversal"; "command_injection";
   "malformed_input"; "scanner_bot"; "ddos_attempt"].
End AttackAttempts.

Module BlockedIps.
Record row : Type := mk {
  ip_address : string;
  razon : string;
  tipo_bloqueo : string;
  bloqueado_hasta : option Z;      (* NULL for a permanent block *)
  intentos_fallidos : Z;
  bloqueado_por : string;
  veces_bloqueado : Z
}.

Definition tipo_bloqueo_check : list string :=
  ["temporal"; "permanente"; "escalado"].

(** DO UPDATE SET bloqueado_hasta = $4,
    intentos_fallidos = blocked_ips.intentos_fallidos + 1,
    veces_bloqueado = blocked_ips.veces_bloqueado + 1 *)
Definition on_conflict (hasta : Z) (b : row) : row :=
  mk (ip_address b) (razon b) (tipo_bloqueo b) (Some hasta)
     (intentos_fallidos b + 1) (bloqueado_por b) (veces_bloqueado b + 1).
End BlockedIps.

(** [tiempo_respuesta] holds the text of which the statement stores the
    [parseFloat]; NULL when the statement does not name the column. *)
Module RequestsLog.
Record row : Type := mk {
  usuario_id : Z;
  token_id : Z;
  endpoint : string;
  cedula_consultada : string;
  status_code : Z;
  tiempo_respuesta : option string;
  mensaje_respuesta : option string;
  ip_cliente : string;
  timestamp : Z
}.
End RequestsLog.

Definition severidad_check : list string := ["baja"; "media"; "alta"; "critica"].

Record Store : Type := mkStore {
  usuarios : list Usuarios.row;
  api_tokens : list ApiTokens.row;
  limits_usage : list LimitsUsage.row;
  security_events : list SecurityEvents.row;
  attack_attempts : list AttackAttempts.row;
  blocked_ips : list BlockedIps.row;
  requests_log : list RequestsLog.row;
  security_events_table : SecurityEvents.table
}.

Definition set_api_tokens (l : list ApiTokens.row) (s : Store) : Store :=
  mkStore (usuarios s) l (limits_usage s) (security_events s)
          (attack_attempts s) (blocked_ips s) (requests_log s) (security_events_table s).
Definition set_security_events (l : list SecurityEvents.row) (s : Store) : Store :=
  mkStore (usuarios s) (api_tokens s) (limits_usage s) l
          (attack_attempts s) (blocked_ips s) (requests_log s) (security_events_table s).
Definition set_attack_attempts (l : list AttackAttempts.row) (s : Store) : Store :=
  mkStore (usuarios s) (api_tokens s) (limits_usage s) (security_events s)
          l (blocked_ips s) (requests_log s) (security_events_table s).
Definition set_blocked_ips (l : list BlockedIps.row) (s : Store) : Store :=
  mkStore (usuarios s) (api_tokens s) (limits_usage s) (security_events s)
          (attack_attempts s) l (requests_log s) (security_events_table s).
Definition set_requests_log (l : list RequestsLog.row) (s : Store) : Store :=
  mkStore (usuarios s) (api_tokens s) (limits_usage s) (security_events s)
          (attack_attempts s) (blocked_ips s) l (security_events_table s).

Definition is_in (x : string) (l : list string) : bool := existsb (String.eqb x) l.

(** VARCHAR(n): a text of at most [n] characters, or NULL. *)
Definition varchar (n : nat) (s : string) : bool := Nat.leb (String.length s) n.

Definition fits (n : nat) (s : option string) : bool :=
  match s with
  | Some v => varchar n v
  | None => true
  end.

(** ** The world a request handler runs in

    [faults k] says whether the [k]-th [pool.query] of the run finds the
    store unreachable; [tick] counts the queries issued so far; [console]
    collects what [console.error] prints. *)

Record World : Type := mkWorld {
  db : Store;
  faults : nat -> bool;
  tick : nat;
  console : list string
}.

(** A thrown JavaScript error: its [message] and, for a failed HTTP call,
    the [response] of the peer (status and body). *)
Record Error : Type := mkError {
  message : string;
  response : option (Z * json)
}.

Inductive Outcome (A : Type) : Type :=
| Ok (a : A)
| Throw (e : Error).
Arguments Ok {A} a.
Arguments Throw {A} e.

Definition M (A : Type) : Type := World -> Outcome A * World.

Definition ret {A} (a : A) : M A := fun w => (Ok a, w).

Definition bind {A B} (m : M A) (k : A -> M B) : M B := fun w =>
  match m w with
  | (Ok a, w') => k a w'
  | (Throw e, w') => (Throw e, w')
  end.

Definition throw {A} (e : Error) : M A := fun w => (Throw e, w).

(** try { m } catch (error) { h error } *)
Definition try_catch {A} (m : M A) (h : Error -> M A) : M A := fun w =>
  match m w with
  | (Ok a, w') => (Ok a, w')
  | (Throw e, w') => h e w'
  end.

Declare Scope js_scope.
Delimit Scope js_scope with js.
Notation "x <- m ;; k" := (bind m (fun x => k))
  (at level 100, m at next level, right associativity) : js_scope.
Notation "m ;; k" := (bind m (fun _ => k))
  (at level 100, right associativity) : js_scope.
Local Open Scope js_scope.

Definition console_error (line : string) : M unit := fun w =>
  (Ok tt, mkWorld (db w) (faults w) (tick w) (console w ++ [line])).

(** One [await pool.query(...)]: [stmt] is the statement run against the
    store; it answers with the rows or raises the store's error. *)
Definition pool_query {A} (stmt : Store -> Outcome A * Store) : M A := fun w =>
  if faults w (tick w)
  then (Throw (mkError "connection terminated" None),
        mkWorld (db w) (faults w) (S (tick w)) (console w))
  else let (r, s) := stmt (db w) in
       (r, mkWorld s (faults w) (S (tick w)) (console w)).

Definition sql_error {A} (msg : string) (s : Store) : Outcome A * Store :=
  (Throw (mkError msg None), s).

Definition healthy (w : World) : Prop := forall k, faults w k = false.

(** ** Requests and replies *)

Record User : Type := mkUser {
  user_id : Z;
  user_rol : string
}.

Record Request : Type := mkRequest {
  ip : string;
  method : string;
  path : string;
  x_api_key : option string;          (* req.headers['x-api-key'] *)
  authorization : option string;      (* req.headers['authorization'] *)
  user_agent : option string;         (* req.get('User-Agent') *)
  body : json;
  query : list (string * string);
  params : list (string * string);
  user : option User;
  apiToken : option (ApiTokens.row * Usuarios.row)
}.

(** What a middleware or a route handler ends with: a response sent, or
    [next()] with the request as it then is. *)
Inductive Reply : Type :=
| Respond (status : Z) (body : json)
| Next (req : Request).

(** [!s] for a string that may be undefined *)
Definition falsy (s : option string) : bool :=
  match s with
  | None => true
  | Some EmptyString => true
  | Some (String _ _) => false
  end.

(** Whether the object parsed from the parameters sent has a property of
    its own under [name]. *)
Definition has_own (name : string) (o : list (string * string)) : bool :=
  existsb (fun kv => String.eqb (fst kv) name) o.

(** [o.toString()] for [o] one of req.query and req.params, written
    [expr] in the source.  The method is Object.prototype's, which answers
    [object Object] whatever the object holds, unless a parameter is itself
    named toString (the query parser keeps such a name): then [o.toString]
    is the value sent, not a function, and the call throws a TypeError. *)
Definition object_toString (expr : string) (o : list (string * string)) : M string :=
  if has_own "toString" o then throw (mkError (expr ++ ".toString is not a function") None)
  else ret "[object Object]".

Definition error_body (msg : string) : json := JObj [("error", JStr msg)].

Definition ms_per_hour : Z := 60 * 60 * 1000.
Definition ms_per_day : Z := 24 * 60 * 60 * 1000.

(** A SELECT: it answers with rows and leaves the store as it is. *)
Definition select {A} (rows : Store -> list A) (s : Store) : Outcome (list A) * Store :=
  (Ok (rows s), s).

(** ** middleware/security.js *)

Section Security.

(** crypto.createHash('sha256').update(s).digest('hex') *)
Variable sha256_hex : string -> string.

(** INSERT INTO security_events ([cols]) VALUES (...).  Of the columns the
    handlers write, ip_address is the address Express gives, usuario_id is
    NULL or read from a row of usuarios, and payload_sospechoso and
    user_agent are TEXT; what the table can refuse is a column it does not
    have, a value outside a CHECK list, and an endpoint longer than its
    VARCHAR(50). *)
Definition insert_security_event (cols : list string) (r : SecurityEvents.row)
    (s : Store) : Outcome unit * Store :=
  let table := security_events_table s in
  if negb (forallb (fun c => is_in c (SecurityEvents.columns table)) cols)
  then sql_error "column of relation security_events does not exist" s
  else if negb (is_in (SecurityEvents.evento_tipo r) (SecurityEvents.evento_tipo_check table))
  then sql_error "violates check constraint security_events_evento_tipo_check" s
  else if negb (is_in (SecurityEvents.severidad r) severidad_check)
  then sql_error "violates check constraint security_events_severidad_check" s
  else if negb (fits 50 (SecurityEvents.endpoint r))
  then sql_error "value too long for type character varying(50)" s
  else (Ok tt, set_security_events (security_events s ++ [r]) s).

Definition logSecurityEvent (now : Z) (ip : string) (userId : option Z)
    (eventType severity endpoint : string) (payload : option string) : M unit :=
  try_catch
    (pool_query (insert_security_event
       ["ip_address"; "usuario_id"; "evento_tipo"; "severidad"; "endpoint";
        "payload_sospechoso"; "user_agent"; "timestamp"]
       (SecurityEvents.mk ip userId eventType severity (Some endpoint) payload now)))
    (fun error => console_error "Error logging security event:").

(** SELECT at.*, u.estado as usuario_estado, u.rol
    FROM api_tokens at JOIN usuarios u ON at.usuario_id = u.id
    WHERE at.token_hash = $1 AND at.estado = 'activo' AND u.estado = 'activo' *)
Definition active_token_rows (tokenHash : string) (s : Store)
    : list (ApiTokens.row * Usuarios.row) :=
  filter (fun tu =>
            String.eqb (ApiTokens.token_hash (fst tu)) tokenHash
            && String.eqb (ApiTokens.estado (fst tu)) "activo"
            && String.eqb (Usuarios.estado (snd tu)) "activo")
    (flat_map (fun t =>
                 map (pair t)
                   (filter (fun u => ApiTokens.usuario_id t =? Usuarios.id u) (usuarios s)))
       (api_tokens s)).

(** UPDATE api_tokens SET ... WHERE id = $n *)
Definition update_token (f : ApiTokens.row -> ApiTokens.row) (id : Z) (s : Store)
    : Outcome unit * Store :=
  (Ok tt,
   set_api_tokens
     (map (fun t => if ApiTokens.id t =? id then f t else t) (api_tokens s)) s).

(** SELECT requests_count FROM limits_usage WHERE usuario_id = $1 AND fecha = $2 *)
Definition usage_rows (usuario_id today : Z) (s : Store) : list LimitsUsage.row :=
  filter (fun r => (LimitsUsage.usuario_id r =? usuario_id) && (LimitsUsage.fecha r =? today))
    (limits_usage s).

(** [usageResult.rows[0]?.requests_count || 0] *)
Definition requests_count_or_0 (rows : list LimitsUsage.row) : Z :=
  match rows with
  | r :: _ => LimitsUsage.requests_count r
  | [] => 0
  end.

Definition expired (now : Z) (t : ApiTokens.row) : bool :=
  match ApiTokens.fecha_expiracion t with
  | Some e => now >? e
  | None => false
  end.

Definition validateAPIToken_try (now : Z) (req : Request) (apiToken : string) : M Reply :=
  let tokenHash := sha256_hex apiToken in
  tokenResult <- pool_query (select (active_token_rows tokenHash)) ;;
  match tokenResult with
  | [] =>
      logSecurityEvent now (ip req) None "token_invalido" "alta" (path req)
        (Some (Str.take 10 apiToken ++ "...")) ;;
      ret (Respond 401 (error_body "API token inválido o revocado"))
  | token :: _ =>
      let tok := fst token in
      if expired now tok then
        pool_query (update_token (ApiTokens.set_estado "expirado") (ApiTokens.id tok)) ;;
        logSecurityEvent now (ip req) (Some (ApiTokens.usuario_id tok))
          "token_expirado" "media" (path req) None ;;
        ret (Respond 401 (error_body "API token expirado"))
      else
        let today := now / ms_per_day in
        usageResult <- pool_query (select (usage_rows (ApiTokens.usuario_id tok) today)) ;;
        let currentUsage := requests_count_or_0 usageResult in
        if currentUsage >=? ApiTokens.limite_requests_diario tok then
          logSecurityEvent now (ip req) (Some (ApiTokens.usuario_id tok))
            "rate_limit_excedido" "media" (path req) None ;;
          ret (Respond 429
                 (JObj [("error", JStr "Límite diario de requests excedido");
                        ("limite", JNum (ApiTokens.limite_requests_diario tok));
                        ("usado", JNum currentUsage)]))
        else
          pool_query (update_token
                        (ApiTokens.set_last_use now (Some (ip req)) (user_agent req))
                        (ApiTokens.id tok)) ;;
          ret (Next (mkRequest (ip req) (method req) (path req) (x_api_key req)
                       (authorization req) (user_agent req) (body req) (query req)
                       (params req)
                       (Some (mkUser (ApiTokens.usuario_id tok) (Usuarios.rol (snd token))))
                       (Some token)))
  end.

Definition validateAPIToken (now : Z) (req : Request) : M Reply :=
  if falsy (x_api_key req) then
    logSecurityEvent now (ip req) None "token_invalido" "media" (path req)
      (Some "Missing API token") ;;
    ret (Respond 401 (error_body "API token requerido"))
  else
    let apiToken := match x_api_key req with Some k => k | None => EmptyString end in
    try_catch (validateAPIToken_try now req apiToken)
      (fun error =>
         console_error "Error validando API token:" ;;
         logSecurityEvent now (ip req) None "patron_anomalo" "alta" (path req)
           (Some (message error)) ;;
         ret (Respond 500 (error_body "Error interno del servidor"))).

(** *** detectAttacks *)

Definition word (w : string) : Re.regex := Re.Cat Re.WordB (Re.Cat (Re.lit w) Re.WordB).

Definition not_lt : Re.regex := Re.Cls (fun c => negb (Ascii.eqb c "<")).

Definition sql_pattern : Re.RegExp :=
  Re.mkRegExp "(\bSELECT\b|\bUNION\b|\bINSERT\b|\bDELETE\b|\bDROP\b)" true
    (Re.alts [word "SELECT"; word "UNION"; word "INSERT"; word "DELETE"; word "DROP"]).

Definition xss_pattern : Re.RegExp :=
  Re.mkRegExp "<script\b[^<]*(?:(?!<\/script>)<[^<]*)*<\/script>" true
    (Re.Cat (Re.lit "<script")
       (Re.Cat Re.WordB
          (Re.Cat (Re.Star not_lt)
             (Re.Cat
                (Re.Star (Re.Cat (Re.NegLook (Re.lit "</script>"))
                            (Re.Cat (Re.Chr "<") (Re.Star not_lt))))
                (Re.lit "</script>"))))).

Definition path_pattern : Re.RegExp :=
  Re.mkRegExp "(\.\.|\/etc\/|\/bin\/|\/usr\/)" true
    (Re.alts [Re.lit ".."; Re.lit "/etc/"; Re.lit "/bin/"; Re.lit "/usr/"]).

Definition cmd_pattern : Re.RegExp :=
  Re.mkRegExp "(\beval\b|\bexec\b|\bsystem\b)" true
    (Re.alts [word "eval"; word "exec"; word "system"]).

Definition suspiciousPatterns : list Re.RegExp :=
  [sql_pattern; xss_pattern; path_pattern; cmd_pattern].

(** The four assignments to [attackType], in order. *)
Definition attackType_of (pattern : Re.RegExp) : string :=
  let attackType := "malformed_input" in
  let attackType :=
    if Str.includes "SELECT|UNION" (Re.source pattern) then "sql_injection" else attackType in
  let attackType :=
    if Str.includes "script" (Re.source pattern) then "xss" else attackType in
  let attackType :=
    if Str.includes "etc|bin" (Re.source pattern) then "path_traversal" else attackType in
  let attackType :=
    if Str.includes "eval|exec" (Re.source pattern) then "command_injection" else attackType in
  attackType.

(** INSERT INTO attack_attempts (...) VALUES (...).  The table refuses an
    attack_type or a severidad outside its CHECK lists, an endpoint longer
    than VARCHAR(50) and a metodo_http longer than VARCHAR(10); payload is
    TEXT and payload_hash a SHA-256 digest in hex, 64 characters, which its
    VARCHAR(64) holds. *)
Definition insert_attack_attempt (r : AttackAttempts.row) (s : Store)
    : Outcome unit * Store :=
  if negb (is_in (AttackAttempts.attack_type r) AttackAttempts.attack_type_check)
  then sql_error "violates check constraint attack_attempts_attack_type_check" s
  else if negb (is_in (AttackAttempts.severidad r) severidad_check)
  then sql_error "violates check constraint attack_attempts_severidad_check" s
  else if negb (varchar 50 (AttackAttempts.endpoint r))
  then sql_error "value too long for type character varying(50)" s
  else if negb (varchar 10 (AttackAttempts.metodo_http r))
  then sql_error "value too long for type character varying(10)" s
  else (Ok tt, set_attack_attempts (attack_attempts s ++ [r]) s).

(** SELECT COUNT( * ) FROM attack_attempts
    WHERE ip_address = $1 AND timestamp > CURRENT_TIMESTAMP - INTERVAL '1 hour' *)
Definition recent_attacks (ip : string) (now : Z) (s : Store) : list AttackAttempts.row :=
  filter (fun a => String.eqb (AttackAttempts.ip_address a) ip
                   && (AttackAttempts.timestamp a >? now - ms_per_hour))
    (attack_attempts s).

Definition count_recent_attacks (ip : string) (now : Z) (s : Store) : Outcome Z * Store :=
  (Ok (Z.of_nat (List.length (recent_attacks ip now s))), s).

(** INSERT INTO blocked_ips (ip_address, razon, tipo_bloqueo, bloqueado_hasta,
    intentos_fallidos) VALUES ($1, $2, $3, $4, $5)
    ON CONFLICT (ip_address) DO UPDATE SET ... *)
Definition upsert_blocked_ip (ip razon tipo : string) (hasta count : Z) (s : Store)
    : Outcome unit * Store :=
  if existsb (fun b => String.eqb (BlockedIps.ip_address b) ip) (blocked_ips s)
  then (Ok tt,
        set_blocked_ips
          (map (fun b => if String.eqb (BlockedIps.ip_address b) ip
                         then BlockedIps.on_conflict hasta b else b)
             (blocked_ips s)) s)
  else if negb (is_in tipo BlockedIps.tipo_bloqueo_check)
  then sql_error "violates check constraint blocked_ips_tipo_bloqueo_check" s
  else (Ok tt,
        set_blocked_ips
          (blocked_ips s ++
             [BlockedIps.mk ip razon tipo (Some hasta) count "sistema_automatico" 1]) s).

Definition logAttackAttempt (now : Z) (ip : string) (userId : option Z)
    (attackType severity payload endpoint method : string) : M unit :=
  try_catch
    (let payloadHash := sha256_hex payload in
     pool_query (insert_attack_attempt
       (AttackAttempts.mk ip userId attackType severity payload payloadHash
          endpoint method now)) ;;
     recentAttacks <- pool_query (count_recent_attacks ip now) ;;
     if recentAttacks >=? 5 then
       pool_query (upsert_blocked_ip ip "Múltiples intentos de ataque detectados"
                     "temporal" (now + ms_per_day) recentAttacks)
     else ret tt)
    (fun error => console_error "Error logging attack attempt:").

Definition detectAttacks (now : Z) (req : Request) : M Reply :=
  query_text <- object_toString "req.query" (query req) ;;
  params_text <- object_toString "req.params" (params req) ;;
  let payload := Json.stringify (body req) ++ query_text ++ params_text in
  match find (fun pattern => Re.test pattern payload) suspiciousPatterns with
  | Some pattern =>
      let attackType := attackType_of pattern in
      logAttackAttempt now (ip req) (option_map user_id (user req)) attackType "alta"
        payload (path req) (method req) ;;
      ret (Respond 400 (error_body "Solicitud malformada detectada"))
  | None => ret (Next req)
  end.

(** *** checkBlockedIP *)

(** SELECT * FROM blocked_ips WHERE ip_address = $1
    AND (bloqueado_hasta IS NULL OR bloqueado_hasta > CURRENT_TIMESTAMP) *)
Definition active_block (ip : string) (now : Z) (b : BlockedIps.row) : bool :=
  String.eqb (BlockedIps.ip_address b) ip
  && match BlockedIps.bloqueado_hasta b with
     | None => true
     | Some t => t >? now
     end.

Definition active_blocks (ip : string) (now : Z) (s : Store) : list BlockedIps.row :=
  filter (active_block ip now) (blocked_ips s).

Definition json_instant (t : option Z) : json :=
  match t with Some ms => JNum ms | None => JNull end.

Definition checkBlockedIP (now : Z) (req : Request) : M Reply :=
  try_catch
    (result <- pool_query (select (active_blocks (ip req) now)) ;;
     match result with
     | block :: _ =>
         ret (Respond 403
                (JObj [("error", JStr "IP bloqueada por actividad sospechosa");
                       ("razon", JStr (BlockedIps.razon block));
                       ("hasta", json_instant (BlockedIps.bloqueado_hasta block))]))
     | [] => ret (Next req)
     end)
    (fun error => console_error "Error checking blocked IP:" ;; ret (Next req)).

End Security.

(** ** nodejs-web/server.js *)

Section Server.

Variable sha256_hex : string -> string.

(** jwt.verify(token, secret): the [userId] of the decoded payload, or the
    error it throws. *)
Variable jwt_verify : string -> option Z.

(** [s.split(' ')[1]] *)
Fixpoint split_space (s : string) (cur : string) : list string :=
  match s with
  | EmptyString => [cur]
  | String c s' =>
      if Ascii.eqb c " " then cur :: split_space s' EmptyString
      else split_space s' (cur ++ String c EmptyString)
  end.

Definition bearer (authHeader : option string) : option string :=
  match authHeader with
  | None => None
  | Some EmptyString => None
  | Some h => nth_error (split_space h EmptyString) 1
  end.

(** SELECT id, email, rol, estado FROM usuarios WHERE id = $1 AND estado = $2 *)
Definition user_rows (id : Z) (estado : string) (s : Store) : list Usuarios.row :=
  filter (fun u => (Usuarios.id u =? id) && String.eqb (Usuarios.estado u) estado)
    (usuarios s).

Definition with_user (u : User) (req : Request) : Request :=
  mkRequest (ip req) (method req) (path req) (x_api_key req) (authorization req)
    (user_agent req) (body req) (query req) (params req) (Some u) (apiToken req).

Definition authenticateToken (req : Request) : M Reply :=
  let token := bearer (authorization req) in
  if falsy token then ret (Respond 401 (error_body "Token de acceso requerido"))
  else
    let token := match token with Some t => t | None => EmptyString end in
    try_catch
      (decoded <- match jwt_verify token with
                  | Some userId => ret userId
                  | None => throw (mkError "invalid token" None)
                  end ;;
       userResult <- pool_query (select (user_rows decoded "activo")) ;;
       match userResult with
       | [] => ret (Respond 401 (error_body "Usuario no encontrado o inactivo"))
       | u :: _ => ret (Next (with_user (mkUser (Usuarios.id u) (Usuarios.rol u)) req))
       end)
      (fun error =>
         console_error "Error verificando token:" ;;
         ret (Respond 403 (error_body "Token inválido"))).

(** *** POST /tokens/generate *)

(** The next value of a SERIAL column. *)
Definition next_id (ids : list Z) : Z := 1 + fold_right Z.max 0 ids.

(** INSERT INTO api_tokens (usuario_id, token_hash, nombre, descripcion,
    limite_requests_diario) VALUES (...) RETURNING id, ... *)
Definition insert_api_token (now usuario_id : Z) (tokenHash nombre : string)
    (descripcion : option string) (limite : Z) (s : Store)
    : Outcome ApiTokens.row * Store :=
  if existsb (fun t => String.eqb (ApiTokens.token_hash t) tokenHash) (api_tokens s)
  then sql_error "duplicate key value violates unique constraint api_tokens_token_hash_key" s
  else
    let t := ApiTokens.mk (next_id (map ApiTokens.id (api_tokens s))) usuario_id
               tokenHash nombre descripcion limite 0 "activo" None None None None 0 in
    (Ok t, set_api_tokens (api_tokens s ++ [t]) s).

(** The fields of the body after the validation chain; a [nombre] or
    [descripcion] that is present but not a string, and a [limite_diario]
    that is present but not an integer, are taken as invalid. *)
Definition body_fields (req : Request) : list (string * json) :=
  match body req with JObj fields => fields | _ => [] end.

Definition valid_nombre (req : Request) : option string :=
  match Json.get "nombre" (body_fields req) with
  | Some (JStr s) =>
      let n := String.length (Str.trim s) in
      if (Nat.leb 1 n && Nat.leb n 100)%bool then Some (Str.trim s) else None
  | _ => None
  end.

Definition valid_descripcion (req : Request) : option (option string) :=
  match Json.get "descripcion" (body_fields req) with
  | None => Some None
  | Some (JStr s) => Some (Some (Str.trim s))
  | Some _ => None
  end.

Definition valid_limite_diario (req : Request) : option (option Z) :=
  match Json.get "limite_diario" (body_fields req) with
  | None => Some None
  | Some (JNum n) => if (1 <=? n) && (n <=? 10000) then Some (Some n) else None
  | Some _ => None
  end.

(** [descripcion || null] *)
Definition or_null (s : option string) : option string :=
  if falsy s then None else s.

(** [limite_diario || 1000] *)
Definition or_1000 (n : option Z) : Z :=
  match n with
  | Some v => if v =? 0 then 1000 else v
  | None => 1000
  end.

Definition json_opt_string (s : option string) : json :=
  match s with Some v => JStr v | None => JNull end.

(** The handler of POST /tokens/generate, after [authenticateToken] has set
    [req.user]; [random] is what crypto.randomBytes(32) returns.  The 400
    answer is given without its [details]. *)
Definition tokens_generate (now : Z) (random : list byte) (req : Request) (u : User) : M Reply :=
  try_catch
    (match valid_nombre req, valid_descripcion req, valid_limite_diario req with
     | Some nombre, Some descripcion, Some limite_diario =>
         let token := "fp_" ++ Str.hex random in
         let tokenHash := sha256_hex token in
         result <- pool_query (insert_api_token now (user_id u) tokenHash nombre
                                 (or_null descripcion) (or_1000 limite_diario)) ;;
         ret (Respond 201
                (JObj [("message", JStr "Token generado exitosamente");
                       ("token", JStr token);
                       ("token_info",
                        JObj [("id", JNum (ApiTokens.id result));
                              ("nombre", JStr (ApiTokens.nombre result));
                              ("descripcion", json_opt_string (ApiTokens.descripcion result));
                              ("limite_requests_diario",
                               JNum (ApiTokens.limite_requests_diario result));
                              ("created_at", JNum now)])]))
     | _, _, _ => ret (Respond 400 (error_body "Datos inválidos"))
     end)
    (fun error =>
       console_error "Error generando token:" ;;
       ret (Respond 500 (error_body "Error generando token"))).

(** The route: [authenticateToken], then the handler. *)
Definition post_tokens_generate (now : Z) (random : list byte) (req : Request) : M Reply :=
  r <- authenticateToken req ;;
  match r with
  | Next req' =>
      match user req' with
      | Some u => tokens_generate now random req' u
      | None => ret (Respond 500 (error_body "Error generando token"))
      end
  | Respond status b => ret (Respond status b)
  end.

(** *** GET /public/consultar/:token/:ruc *)

(** The answer of the downstream service to axios.post: the [data] of a 2xx
    response, an object, or the error axios throws. *)
Inductive AxiosResult : Type :=
| AxiosOk (data : list (string * json))
| AxiosError (e : Error).

Definition axios_post (r : AxiosResult) : M (list (string * json)) :=
  match r with
  | AxiosOk data => ret data
  | AxiosError e => throw e
  end.

Definition digit : Re.regex := Re.Cls Re.is_digit.

Definition ruc_pattern : Re.RegExp :=
  Re.mkRegExp "^\d+$" false
    (Re.Cat Re.Bol (Re.Cat (Re.Cat digit (Re.Star digit)) Re.Eol)).

Definition param (name : string) (req : Request) : option string :=
  match find (fun kv => String.eqb (fst kv) name) (params req) with
  | Some kv => Some (snd kv)
  | None => None
  end.

Definition or_empty (s : option string) : string :=
  match s with Some v => v | None => EmptyString end.

(** [pythonResponse.data.api_metadata?.total_api_time]: [None] is
    undefined. *)
Definition total_api_time (data : list (string * json)) : option json :=
  match Json.get "api_metadata" data with
  | Some (JObj api_metadata) => Json.get "total_api_time" api_metadata
  | _ => None
  end.

(** [total_api_time?.replace('s', '') || '0']: the call is skipped for
    undefined and null; a string has the method; any other value has none,
    and the call throws a TypeError. *)
Definition api_time_text (total_api_time : option json) : M string :=
  match total_api_time with
  | None | Some JNull => ret "0"
  | Some (JStr s) =>
      ret (if falsy (Some (Str.replace "s" "" s)) then "0" else Str.replace "s" "" s)
  | Some _ =>
      throw (mkError
               "pythonResponse.data.api_metadata?.total_api_time?.replace is not a function"
               None)
  end.

(** Whether the store takes [parseFloat(text)], as the driver writes it,
    for a DECIMAL(6,3) column: it does unless the number, rounded to three
    decimals, is 1000 or more in absolute value. *)
Variable pg_decimal_6_3 : string -> bool.

(** INSERT INTO requests_log (...) VALUES (...): the table refuses an
    endpoint longer than VARCHAR(50), a cedula_consultada longer than
    VARCHAR(13) and a tiempo_respuesta out of the range of DECIMAL(6,3). *)
Definition insert_requests_log (r : RequestsLog.row) (s : Store) : Outcome unit * Store :=
  if negb (varchar 50 (RequestsLog.endpoint r))
  then sql_error "value too long for type character varying(50)" s
  else if negb (varchar 13 (RequestsLog.cedula_consultada r))
  then sql_error "value too long for type character varying(13)" s
  else if negb (match RequestsLog.tiempo_respuesta r with
                | Some text => pg_decimal_6_3 text
                | None => true
                end)
  then sql_error "numeric field overflow" s
  else (Ok tt, set_requests_log (requests_log s ++ [r]) s).

(** SELECT usuario_id, id FROM api_tokens WHERE token_hash = $1 *)
Definition token_rows_by_hash (tokenHash : string) (s : Store) : list ApiTokens.row :=
  filter (fun t => String.eqb (ApiTokens.token_hash t) tokenHash) (api_tokens s).

Definition public_consultar_try (now : Z) (python : AxiosResult) (req : Request) : M Reply :=
  let token := param "token" req in
  let ruc := param "ruc" req in
  let clientIp := ip req in
  if (falsy token || negb (Str.startsWith "fp_" (or_empty token)))%bool then
    ret (Respond 401 (error_body "Formato de token inválido"))
  else if (falsy ruc || negb (Re.test ruc_pattern (or_empty ruc))
           || negb (existsb (Nat.eqb (String.length (or_empty ruc))) [10; 13]%nat))%bool then
    ret (Respond 400 (error_body "RUC inválido - debe tener 10 o 13 dígitos"))
  else
    let token := or_empty token in
    let ruc := or_empty ruc in
    let tokenHash := sha256_hex token in
    tokenResult <- pool_query (select (active_token_rows tokenHash)) ;;
    match tokenResult with
    | [] =>
        pool_query (insert_security_event
          ["ip_address"; "evento_tipo"; "severidad"; "endpoint"; "payload_sospechoso"]
          (SecurityEvents.mk clientIp None "token_invalido" "alta"
             (Some "/public/consultar") (Some (Str.take 10 token ++ "...")) now)) ;;
        ret (Respond 401 (error_body "Token inválido o inactivo"))
    | tokenData :: _ =>
        let tok := fst tokenData in
        let usr := snd tokenData in
        if ApiTokens.requests_utilizados_hoy tok >=? ApiTokens.limite_requests_diario tok then
          pool_query (insert_security_event
            ["ip_address"; "usuario_id"; "evento_tipo"; "severidad"; "endpoint"; "detalles"]
            (SecurityEvents.mk clientIp (Some (ApiTokens.usuario_id tok)) "limite_excedido"
               "media" (Some "/public/consultar") None now)) ;;
          ret (Respond 429
                 (JObj [("error", JStr "Límite diario excedido");
                        ("limite", JNum (ApiTokens.limite_requests_diario tok));
                        ("usado", JNum (ApiTokens.requests_utilizados_hoy tok));
                        ("resetea_en", JStr "24 horas")]))
        else
          pool_query (update_token (ApiTokens.charge now) (ApiTokens.id tok)) ;;
          data <- axios_post python ;;
          tiempo <- api_time_text (total_api_time data) ;;
          pool_query (insert_requests_log
            (RequestsLog.mk (ApiTokens.usuario_id tok) (ApiTokens.id tok)
               "/public/consultar" ruc 200 (Some tiempo) None clientIp now)) ;;
          ret (Respond 200
                 (JObj (Json.set "token_info"
                          (JObj [("usuario", JStr (Usuarios.nombre usr));
                                 ("plan", JStr (Usuarios.plan usr));
                                 ("requests_restantes",
                                  JNum (ApiTokens.limite_requests_diario tok
                                        - ApiTokens.requests_utilizados_hoy tok - 1));
                                 ("limite_diario",
                                  JNum (ApiTokens.limite_requests_diario tok))])
                          data)))
    end.

(** [error.response?.status || 500] *)
Definition status_or_500 (e : Error) : Z :=
  match response e with
  | Some (status, _) => if status =? 0 then 500 else status
  | None => 500
  end.

Definition public_consultar (now : Z) (python : AxiosResult) (req : Request) : M Reply :=
  try_catch (public_consultar_try now python req)
    (fun error =>
       console_error "Error en consulta pública:" ;;
       try_catch
         (let tokenHash := sha256_hex (or_empty (param "token" req)) in
          tokenResult <- pool_query (select (token_rows_by_hash tokenHash)) ;;
          match tokenResult with
          | t :: _ =>
              pool_query (insert_requests_log
                (RequestsLog.mk (ApiTokens.usuario_id t) (ApiTokens.id t)
                   "/public/consultar"
                   (if falsy (param "ruc" req) then "unknown" else or_empty (param "ruc" req))
                   (status_or_500 error) None (Some (message error)) (ip req) now))
          | [] => ret tt
          end)
         (fun logError => console_error "Error logging request:") ;;
       match response error with
       | Some (status, data) => ret (Respond status data)
       | None =>
           ret (Respond 500
                  (JObj [("error", JStr "Error interno del servidor");
                         ("message", JStr "No se pudo procesar la consulta")]))
       end).

(** The global middlewares run first: app.use(checkBlockedIP);
    app.use(detectAttacks). *)
Definition through_middlewares (now : Z) (handler : Request -> M Reply) (req : Request)
    : M Reply :=
  r1 <- checkBlockedIP now req ;;
  match r1 with
  | Respond status b => ret (Respond status b)
  | Next req1 =>
      r2 <- detectAttacks sha256_hex now req1 ;;
      match r2 with
      | Respond status b => ret (Respond status b)
      | Next req2 => handler req2
      end
  end.

Definition get_public_consultar (now : Z) (python : AxiosResult) (req : Request) : M Reply :=
  through_middlewares now (public_consultar now python) req.

(** *** DELETE /tokens/:id *)

(** How the store reads a text parameter that is compared with an INTEGER
    column; [None] when the text is not an integer. *)
Variable pg_integer : string -> option Z.

(** UPDATE api_tokens SET estado = $1 WHERE id = $2 AND usuario_id = $3
    RETURNING id.  The id arrives as the text of the route parameter: the
    server reads it as an integer and refuses the statement when it is not
    one; a parameter that is not there is sent as NULL, which no row
    equals. *)
Definition update_estado_of_owner (estado : string) (id_text : option string)
    (usuario_id : Z) (s : Store) : Outcome (list Z) * Store :=
  match id_text with
  | None => (Ok [], s)
  | Some text =>
      match pg_integer text with
      | None => sql_error "invalid input syntax for type integer" s
      | Some id =>
          let hit := fun t => (ApiTokens.id t =? id) && (ApiTokens.usuario_id t =? usuario_id) in
          (Ok (map ApiTokens.id (filter hit (api_tokens s))),
           set_api_tokens
             (map (fun t => if hit t then ApiTokens.set_estado estado t else t)
                (api_tokens s)) s)
      end
  end.

(** The handler of DELETE /tokens/:id, after [authenticateToken]. *)
Definition tokens_delete (req : Request) : M Reply :=
  try_catch
    (u <- match user req with
          | Some u => ret u
          | None => throw (mkError "Cannot read properties of undefined (reading 'id')" None)
          end ;;
     result <- pool_query (update_estado_of_owner "revocado" (param "id" req)
                             (user_id u)) ;;
     match result with
     | [] => ret (Respond 404 (error_body "Token no encontrado"))
     | _ :: _ => ret (Respond 200 (JObj [("message", JStr "Token revocado exitosamente")]))
     end)
    (fun error =>
       console_error "Error revocando token:" ;;
       ret (Respond 500 (error_body "Error revocando token"))).

(** app.delete('/tokens/:id', authenticateToken, handler) *)
Definition delete_tokens (req : Request) : M Reply :=
  r <- authenticateToken req ;;
  match r with
  | Next req' => tokens_delete req'
  | Respond status b => ret (Respond status b)
  end.

(** *** requireAdmin and the routes under /admin *)

Definition requireAdmin (req : Request) : M Reply :=
  match user req with
  | None => throw (mkError "Cannot read properties of undefined (reading 'rol')" None)
  | Some u =>
      if negb (String.eqb (user_rol u) "admin") then
        ret (Respond 403
               (error_body "Acceso denegado: se requieren permisos de administrador"))
      else ret (Next req)
  end.

(** app.use((err, req, res, next) => ...): what Express answers when a
    middleware throws. *)
Definition express_error_handler (middleware : M Reply) : M Reply :=
  try_catch middleware
    (fun err =>
       console_error "Error no manejado:" ;;
       ret (Respond 500 (error_body "Error interno del servidor"))).

(** The two middlewares in front of every route under /admin. *)
Definition admin_guard (req : Request) : M Reply :=
  r <- authenticateToken req ;;
  match r with
  | Respond status b => ret (Respond status b)
  | Next req' => express_error_handler (requireAdmin req')
  end.

(** app.get(path, authenticateToken, requireAdmin, handler) *)
Definition admin_route (handler : Request -> M Reply) (req : Request) : M Reply :=
  r <- admin_guard req ;;
  match r with
  | Respond status b => ret (Respond status b)
  | Next req' => handler req'
  end.

(** *** POST /api/consultar *)

(** The handler after [authenticateToken]: the call to the downstream
    service and the relay of its answer. *)
Definition api_consultar (python : AxiosResult) (req : Request) : M Reply :=
  try_catch
    (userId <- match user req with
               | Some u => ret (user_id u)
               | None => throw (mkError "Cannot read properties of undefined (reading 'id')"
                                  None)
               end ;;
     data <- axios_post python ;;
     ret (Respond 200 (JObj data)))
    (fun error =>
       console_error "Error en consulta:" ;;
       match response error with
       | Some (status, data) => ret (Respond status data)
       | None => ret (Respond 500 (error_body "Error interno del servidor"))
       end).

Definition post_api_consultar (python : AxiosResult) (req : Request) : M Reply :=
  r <- authenticateToken req ;;
  match r with
  | Next req' => api_consultar python req'
  | Respond status b => ret (Respond status b)
  end.

End Server.

(** ** Running the handlers *)

Definition reply_of {A} (r : Outcome A * World) : Outcome A := fst r.
Definition world_of {A} (r : Outcome A * World) : World := snd r.

(** Requests served one after the other. *)
Fixpoint serve {A} (handlers : list (M A)) (w : World) : list (Outcome A) * World :=
  match handlers with
  | [] => ([], w)
  | h :: rest =>
      let (r, w1) := h w in
      let (rs, w2) := serve rest w1 in
      (r :: rs, w2)
  end.

Definition no_faults : nat -> bool := fun _ => false.
Definition store_down : nat -> bool := fun _ => true.

(** ** The authenticator as the specification words it

    Step 1 rejects an absent credential; step 2 looks the digest up among
    the tokens that are active and whose owner is active; step 3 rejects a
    token past its expiry instant; step 4 resolves the token with its owner
    and role.  A header that is present but empty carries no credential and
    counts as absent. *)

Inductive AuthResult : Type :=
| MissingCredential
| InvalidOrRevoked
| Expired (t : ApiTokens.row)
| Resolved (t : ApiTokens.row) (owner : Z) (role : string).

Definition owned_tokens (s : Store) : list (ApiTokens.row * Usuarios.row) :=
  flat_map (fun t =>
              map (pair t)
                (filter (fun u => ApiTokens.usuario_id t =? Usuarios.id u) (usuarios s)))
    (api_tokens s).

Definition both_active (tu : ApiTokens.row * Usuarios.row) : bool :=
  String.eqb (ApiTokens.estado (fst tu)) "activo"
  && String.eqb (Usuarios.estado (snd tu)) "activo".

Definition authenticate (digest : string -> string) (s : Store) (now : Z)
    (rawToken : option string) : AuthResult :=
  match rawToken with
  | None => MissingCredential
  | Some EmptyString => MissingCredential
  | Some raw =>
      match find (fun tu => String.eqb (ApiTokens.token_hash (fst tu)) (digest raw)
                            && both_active tu) (owned_tokens s) with
      | None => InvalidOrRevoked
      | Some (t, u) =>
          match ApiTokens.fecha_expiracion t with
          | Some e =>
              if e <? now then Expired t
              else Resolved t (ApiTokens.usuario_id t) (Usuarios.rol u)
          | None => Resolved t (ApiTokens.usuario_id t) (Usuarios.rol u)
          end
      end
  end.

(** ** Scenarios

    Concrete stores, requests and worlds on which the handlers are run.
    [digest] stands in for SHA-256 there; the general statements below hold
    for every digest function. *)

Module Demo.

Definition digest (s : string) : string := "sha256:" ++ s.

Definition jwt (s : string) : option Z :=
  if String.eqb s "jwt-of-user-1" then Some 1 else None.

Definition owner : Usuarios.row :=
  Usuarios.mk 1 "Olga" "olga@example.com" "cliente" "activo" "free".

Definition secret : string := "fp_abc".

(** The store's verdict on the times of the scenarios, plain decimal
    numerals: one with at most three digits before the point is taken. *)
Fixpoint integer_digits (text : string) : nat :=
  match text with
  | EmptyString => O
  | String c rest => if Ascii.eqb c "." then O else S (integer_digits rest)
  end.

Definition decimal_6_3 (text : string) : bool := Nat.leb (integer_digits text) 3.

(** The owner's only token: ceiling 3, [used] requests consumed today. *)
Definition token (used : Z) : ApiTokens.row :=
  ApiTokens.mk 1 1 (digest secret) "produccion" None 3 used "activo"
    None None None None used.

Definition store0 : Store :=
  mkStore [owner] [token 0] [] [] [] [] [] SecurityEvents.init_sql.

Definition world (s : Store) : World := mkWorld s no_faults 0 [].
Definition world_down (s : Store) : World := mkWorld s store_down 0 [].

(** A store whose statement number [k], counted from 0, fails, the others
    being answered. *)
Definition world_failing_at (k : nat) (s : Store) : World :=
  mkWorld s (fun n => Nat.eqb n k) 0 [].

Definition address : string := "203.0.113.7".

(** GET /public/consultar/fp_abc/1790012345001 *)
Definition req_consultar : Request :=
  mkRequest address "GET" "/public/consultar/fp_abc/1790012345001" None None
    (Some "curl/8") (JObj []) [] [("token", secret); ("ruc", "1790012345001")]
    None None.

(** A request carrying the secret in the x-api-key header. *)
Definition req_api (key : option string) (b : json) : Request :=
  mkRequest address "POST" "/consultar" key None (Some "curl/8") b [] [] None None.

Definition python_ok : AxiosResult :=
  AxiosOk [("ruc", JStr "1790012345001"); ("estado", JStr "ACTIVO")].

(** Requests whose body carries a payload in the field ruc. *)
Definition req_payload (payload : string) : Request :=
  req_api None (JObj [("ruc", JStr payload)]).

Definition req_tautology : Request := req_payload "' OR 1=1 --".
Definition req_union : Request := req_payload "' UNION SELECT 1 --".
Definition req_sql_and_script : Request := req_payload "SELECT <script>x</script>".

(** POST /consultar?toString=1 with the body of [req_union]. *)
Definition req_toString : Request :=
  mkRequest address "POST" "/consultar" None None (Some "curl/8")
    (JObj [("ruc", JStr "' UNION SELECT 1 --")]) [("toString", "1")] [] None None.

(** Four attacks from [address] within the hour before [noon]. *)
Definition noon : Z := 43200000.

(** The owner's token, its expiry one second before [noon]. *)
Definition expired_token : ApiTokens.row :=
  ApiTokens.mk 1 1 (digest secret) "produccion" None 3 0 "activo"
    (Some (noon - 1000)) None None None 0.

Definition store_expired : Store :=
  mkStore [owner] [expired_token] [] [] [] [] [] SecurityEvents.init_sql.

Definition attack (at_ms : Z) : AttackAttempts.row :=
  AttackAttempts.mk address None "xss" "alta" "<script></script>" "-" "/consultar" "POST"
    at_ms.

Definition four_attacks : list AttackAttempts.row :=
  [attack (noon - 4000); attack (noon - 3000); attack (noon - 2000); attack (noon - 1000)].

Definition store_with_block (b : BlockedIps.row) : Store :=
  mkStore [owner] [token 0] [] [] four_attacks [b] [] SecurityEvents.init_sql.

(** A block an operator made permanent. *)
Definition permanent_block : BlockedIps.row :=
  BlockedIps.mk address "Bloqueo manual" "permanente" None 0 "admin_manual" 1.

(** A block that runs for a week from [noon]. *)
Definition week_block : BlockedIps.row :=
  BlockedIps.mk address "Bloqueo manual" "temporal" (Some (noon + 7 * ms_per_day)) 0
    "admin_manual" 1.

(** A row of kind permanente whose expiry column holds an instant of the
    past. *)
Definition lapsed_permanent_block : BlockedIps.row :=
  BlockedIps.mk address "Bloqueo manual" "permanente" (Some (noon - 1)) 0 "admin_manual" 1.

(** POST /tokens/generate by the owner, and two draws of randomBytes(32)
    that differ in the last half-byte. *)
Definition req_generate : Request :=
  mkRequest address "POST" "/tokens/generate" None (Some "Bearer jwt-of-user-1")
    (Some "curl/8") (JObj [("nombre", JStr "produccion"); ("limite_diario", JNum 3)])
    [] [] None None.

Definition random1 : list byte := repeat x00 32.


Definition store_users : Store :=
  mkStore [owner] [] [] [] [] [] [] SecurityEvents.init_sql.


Definition python_data : list (string * json) :=
  [("ruc", JStr "1790012345001"); ("estado", JStr "ACTIVO")].

(** The same request, four times. *)
Definition four {A} (h : M A) : list (M A) := [h; h; h; h].

Definition consult : M Reply :=
  get_public_consultar digest decimal_6_3 noon (AxiosOk python_data) req_consultar.

Definition api_call : M Reply :=
  validateAPIToken digest noon (req_api (Some secret) (JObj [])).

(** A database whose security_events table has been given the column and
    the event types server.js writes; in it, the owner's token unused, and
    with its ceiling of 3 used up. *)
Definition altered_table : SecurityEvents.table :=
  SecurityEvents.mkTable
    (SecurityEvents.columns SecurityEvents.init_sql ++ ["detalles"])
    (SecurityEvents.evento_tipo_check SecurityEvents.init_sql ++
       ["limite_excedido"; "pool_refresh"; "pool_refresh_failed"]).

Definition store0_altered : Store :=
  mkStore [owner] [token 0] [] [] [] [] [] altered_table.

Definition store3_altered : Store :=
  mkStore [owner] [token 3] [] [] [] [] [] altered_table.




End Demo.

(** ** Vocabulary of the statements *)

Definition block_active (now : Z) (b : BlockedIps.row) : Prop :=
  BlockedIps.bloqueado_hasta b = None \/
  exists t, BlockedIps.bloqueado_hasta b = Some t /\ now < t.

Definition is_403 (r : Outcome Reply) : Prop :=
  exists b, r = Ok (Respond 403 b).

Definition internal_error : Reply :=
  Respond 500 (error_body "Error interno del servidor").

Definition missing_reply : Reply := Respond 401 (error_body "API token requerido").
Definition invalid_reply : Reply := Respond 401 (error_body "API token inválido o revocado").
Definition expired_reply : Reply := Respond 401 (error_body "API token expirado").

Definition quota_reply (limite usado : Z) : Reply :=
  Respond 429 (JObj [("error", JStr "Límite diario de requests excedido");
                     ("limite", JNum limite); ("usado", JNum usado)]).

(** [after] is the token row [before] with its state column holding
    [estado]: every other column is what it was. *)
Definition moved_to (estado : string) (before after : ApiTokens.row) : Prop :=
  ApiTokens.estado after = estado /\
  ApiTokens.id after = ApiTokens.id before /\
  ApiTokens.usuario_id after = ApiTokens.usuario_id before /\
  ApiTokens.token_hash after = ApiTokens.token_hash before /\
  ApiTokens.nombre after = ApiTokens.nombre before /\
  ApiTokens.descripcion after = ApiTokens.descripcion before /\
  ApiTokens.limite_requests_diario after = ApiTokens.limite_requests_diario before /\
  ApiTokens.requests_utilizados_hoy after = ApiTokens.requests_utilizados_hoy before /\
  ApiTokens.fecha_expiracion after = ApiTokens.fecha_expiracion before /\
  ApiTokens.ultimo_uso after = ApiTokens.ultimo_uso before /\
  ApiTokens.ip_ultimo_uso after = ApiTokens.ip_ultimo_uso before /\
  ApiTokens.user_agent_ultimo_uso after = ApiTokens.user_agent_ultimo_uso before /\
  ApiTokens.total_requests_historico after = ApiTokens.total_requests_historico before.

(** The owner's recorded usage for the day of [now]. *)
Definition usage_today (s : Store) (owner now : Z) : Z :=
  requests_count_or_0 (usage_rows owner (now / ms_per_day) s).

(** The body of a consult answered by the downstream service. *)
Definition consult_body (data : list (string * json)) (usuario plan : string)
    (limite usado : Z) : json :=
  JObj (Json.set "token_info"
          (JObj [("usuario", JStr usuario); ("plan", JStr plan);
                 ("requests_restantes", JNum (limite - usado - 1));
                 ("limite_diario", JNum limite)])
          data).

(** The text of the response time the consult route logs: 0 when the
    downstream answer carries none, the time without its first letter s
    when it is a string; there is none when it is any other value. *)
Definition time_text (data : list (string * json)) : option string :=
  match Json.get "api_metadata" data with
  | Some (JObj meta) =>
      match Json.get "total_api_time" meta with
      | None | Some JNull => Some "0"
      | Some (JStr time) =>
          match Str.replace "s" "" time with
          | EmptyString => Some "0"
          | String c rest => Some (String c rest)
          end
      | Some _ => None
      end
  | _ => Some "0"
  end.

Definition consult_failed : Reply :=
  Respond 500 (JObj [("error", JStr "Error interno del servidor");
                     ("message", JStr "No se pudo procesar la consulta")]).

Definition valid_ruc (ruc : string) : bool :=
  Re.test ruc_pattern ruc && existsb (Nat.eqb (String.length ruc)) [10; 13]%nat.

Definition malformed_reply : Reply :=
  Respond 400 (error_body "Solicitud malformada detectada").

(** No parameter of the query string or of the route is named toString. *)
Definition plain (req : Request) : bool :=
  negb (has_own "toString" (query req)) && negb (has_own "toString" (params req)).

(** The text [detectAttacks] tests, for a [plain] request. *)
Definition payload_of (req : Request) : string :=
  Json.stringify (body req) ++ "[object Object]" ++ "[object Object]".

(** The detector that rejects the payload: the first of the list that
    matches. *)
Definition first_match (payload : string) : option Re.RegExp :=
  find (fun pattern => Re.test pattern payload) suspiciousPatterns.

Definition addresses (l : list BlockedIps.row) : list string :=
  map BlockedIps.ip_address l.

Definition has_row (ip : string) (l : list BlockedIps.row) : bool :=
  existsb (fun b => String.eqb (BlockedIps.ip_address b) ip) l.

Definition auto_block_reason : string := "Múltiples intentos de ataque detectados".

(** What ON CONFLICT DO UPDATE makes of the registry. *)
Definition reblocked (ip : string) (hasta : Z) (l : list BlockedIps.row)
    : list BlockedIps.row :=
  map (fun b => if String.eqb (BlockedIps.ip_address b) ip
                then BlockedIps.on_conflict hasta b else b) l.

(** The row a first automatic block inserts. *)
Definition first_block (ip : string) (now count : Z) : BlockedIps.row :=
  BlockedIps.mk ip auto_block_reason "temporal" (Some (now + ms_per_day)) count
    "sistema_automatico" 1.



(** The token row POST /tokens/generate inserts. *)
Definition issued_row (s : Store) (owner : Z) (tokenHash nombre : string)
    (descripcion : option string) (limite : Z) : ApiTokens.row :=
  ApiTokens.mk (next_id (map ApiTokens.id (api_tokens s))) owner tokenHash nombre
    descripcion limite 0 "activo" None None None None 0.

Definition admitted (r : Outcome Reply) : bool :=
  match r with
  | Ok (Next _) => true
  | _ => false
  end.

(** The audit statement of the public consult route at a failed quota check:
    the columns it names, and whether a table takes it. *)
Definition quota_event_columns : list string :=
  ["ip_address"; "usuario_id"; "evento_tipo"; "severidad"; "endpoint"; "detalles"].

Definition accepts_quota_event (t : SecurityEvents.table) : bool :=
  forallb (fun c => is_in c (SecurityEvents.columns t)) quota_event_columns
  && is_in "limite_excedido" (SecurityEvents.evento_tipo_check t).

Definition consult_quota_reply (limite usado : Z) : Reply :=
  Respond 429 (JObj [("error", JStr "Límite diario excedido");
                     ("limite", JNum limite); ("usado", JNum usado);
                     ("resetea_en", JStr "24 horas")]).

(** ** What the handlers keep

    [keeps R m]: whatever [m] answers, the store it leaves is [R]-related
    to the store it found, and the fault schedule is the one it found. *)

Definition keeps {A} (R : Store -> Store -> Prop) (m : M A) : Prop :=
  forall w, R (db w) (db (world_of (m w))) /\ faults (world_of (m w)) = faults w.

(** How a token row may differ from what it was: the identity, the owner,
    the digest, the ceiling and the expiry are fixed; the state stays or
    becomes expirado or revocado; the counters do not fall. *)
Definition row_evolves (t t' : ApiTokens.row) : Prop :=
  ApiTokens.id t' = ApiTokens.id t /\
  ApiTokens.usuario_id t' = ApiTokens.usuario_id t /\
  ApiTokens.token_hash t' = ApiTokens.token_hash t /\
  ApiTokens.limite_requests_diario t' = ApiTokens.limite_requests_diario t /\
  ApiTokens.fecha_expiracion t' = ApiTokens.fecha_expiracion t /\
  (ApiTokens.estado t' = ApiTokens.estado t \/
   ApiTokens.estado t' = "expirado" \/ ApiTokens.estado t' = "revocado") /\
  ApiTokens.requests_utilizados_hoy t <= ApiTokens.requests_utilizados_hoy t' /\
  ApiTokens.total_requests_historico t <= ApiTokens.total_requests_historico t'.

(** A row added to [l]: its id is above, and its digest differs from, those
    of [l]. *)
Definition fresh_for (l : list ApiTokens.row) (n : ApiTokens.row) : Prop :=
  Forall (fun t => ApiTokens.id t < ApiTokens.id n /\
                   ApiTokens.token_hash t <> ApiTokens.token_hash n) l.

(** The token table of [s'] is that of [s], row by row evolved, followed by
    rows added. *)
Definition tokens_evolve (s s' : Store) : Prop :=
  exists olds news : list ApiTokens.row,
    api_tokens s' = (olds ++ news)%list /\
    Forall2 row_evolves (api_tokens s) olds /\
    Forall (fresh_for (api_tokens s)) news.

(** The middlewares and routes of the model, as the server runs them. *)
Inductive served (sha256_hex : string -> string) (jwt_verify pg_integer : string -> option Z)
    (pg_decimal_6_3 : string -> bool) : M Reply -> Prop :=
| served_checkBlockedIP now req :
    served sha256_hex jwt_verify pg_integer pg_decimal_6_3 (checkBlockedIP now req)
| served_detectAttacks now req :
    served sha256_hex jwt_verify pg_integer pg_decimal_6_3
      (detectAttacks sha256_hex now req)
| served_validateAPIToken now req :
    served sha256_hex jwt_verify pg_integer pg_decimal_6_3
      (validateAPIToken sha256_hex now req)
| served_tokens_generate now random req :
    served sha256_hex jwt_verify pg_integer pg_decimal_6_3
      (post_tokens_generate sha256_hex jwt_verify now random req)
| served_tokens_delete req :
    served sha256_hex jwt_verify pg_integer pg_decimal_6_3
      (delete_tokens jwt_verify pg_integer req)
| served_api_consultar python req :
    served sha256_hex jwt_verify pg_integer pg_decimal_6_3
      (post_api_consultar jwt_verify python req)
| served_public_consultar now python req :
    served sha256_hex jwt_verify pg_integer pg_decimal_6_3
      (public_consultar sha256_hex pg_decimal_6_3 now python req)
| served_through_middlewares now handler req :
    (forall r, served sha256_hex jwt_verify pg_integer pg_decimal_6_3 (handler r)) ->
    served sha256_hex jwt_verify pg_integer pg_decimal_6_3
      (through_middlewares sha256_hex now handler req).

(** A reply that is an error status of the consult route. *)
Definition refused (r : Outcome Reply) : Prop :=
  exists status b, r = Ok (Respond status b) /\ In status [400; 401; 500].

(** The keys init.sql declares unique that the handlers write next to:
    the ids and the digests of the tokens, the addresses of the blocks. *)
Definition unique_keys (s : Store) : Prop :=
  NoDup (map ApiTokens.id (api_tokens s)) /\
  NoDup (map ApiTokens.token_hash (api_tokens s)) /\
  NoDup (addresses (blocked_ips s)).

Definition keeps_keys (s s' : Store) : Prop := unique_keys s -> unique_keys s'.

(** The tables no statement of the handlers writes. *)
Definition same_accounts (s s' : Store) : Prop :=
  usuarios s' = usuarios s /\
  limits_usage s' = limits_usage s /\
  security_events_table s' = security_events_table s.

(** A text without a space character. *)
Definition no_space (s : string) : bool :=
  forallb (fun c => negb (Ascii.eqb c " ")) (Str.chars s).


(** ** Further scenarios *)

Module Cases.

(** Decimal text read as an integer, as the store reads the parameter of
    DELETE /tokens/:id. *)
Fixpoint digits (s : string) (acc : Z) : option Z :=
  match s with
  | EmptyString => Some acc
  | String c s' =>
      if Re.is_digit c then digits s' (10 * acc + Z.of_nat (nat_of_ascii c - 48)) else None
  end.

Definition integer (s : string) : option Z :=
  match s with
  | EmptyString => None
  | String _ _ => digits s 0
  end.

(** DELETE /tokens/1, past [authenticateToken], by the owner and by
    another user. *)
Definition req_revoke (caller : Z) : Request :=
  mkRequest Demo.address "DELETE" "/tokens/1" None (Some "Bearer jwt-of-user-1")
    (Some "curl/8") (JObj []) [] [("id", "1")] (Some (mkUser caller "cliente")) None.


(** A request without a key on a path of 60 characters. *)
Definition req_long_path : Request :=
  mkRequest Demo.address "POST"
    "/consultar/aaaaaaaaaaaaaaaaaaaaaaaaaaaaaaaaaaaaaaaaaaaaaaaaaa" None None
    (Some "curl/8") (JObj []) [] [] None None.

(** A body with an ellipsis in a field. *)
Definition req_ellipsis : Request :=
  Demo.req_api None (JObj [("nota", JStr "gracias...")]).

(** The downstream service answering 503. *)
Definition python_down : Error :=
  mkError "Request failed with status code 503"
    (Some (503, JObj [("detail", JStr "SRI no disponible")])).

(** The downstream answer reporting its time as a number of seconds, and
    as a text of four digits before the point. *)
Definition python_numeric_time : list (string * json) :=
  [("ruc", JStr "1790012345001"); ("api_metadata", JObj [("total_api_time", JNum 2)])].

Definition python_long_time : list (string * json) :=
  [("ruc", JStr "1790012345001");
   ("api_metadata", JObj [("total_api_time", JStr "1234.5s")])].

(** The request [validateAPIToken] hands on for the owner's secret. *)
Definition handed_on : Request :=
  mkRequest Demo.address "POST" "/consultar" (Some Demo.secret) None (Some "curl/8")
    (JObj []) [] [] (Some (mkUser 1 "cliente")) (Some (Demo.token 0, Demo.owner)).

(** A request through [validateAPIToken], then a public consult. *)
Definition two_requests : list (M Reply) := [Demo.api_call; Demo.consult].

(** The same token asked for twice, randomBytes drawing the same bytes. *)
Definition issued_twice : list (M Reply) :=
  [post_tokens_generate Demo.digest Demo.jwt Demo.noon Demo.random1 Demo.req_generate;
   post_tokens_generate Demo.digest Demo.jwt Demo.noon Demo.random1 Demo.req_generate].

End Cases.

(** * Properties *)

#[local] Arguments Re.test : simpl never.
#[local] Arguments Str.startsWith : simpl never.
#[local] Arguments Str.take : simpl never.
#[local] Arguments Json.stringify : simpl never.
#[local] Arguments String.append : simpl never.
#[local] Arguments active_token_rows : simpl never.
#[local] Arguments token_rows_by_hash : simpl never.
#[local] Arguments usage_rows : simpl never.
#[local] Arguments expired : simpl never.
#[local] Arguments attackType_of : simpl never.
#[local] Arguments payload_of : simpl never.
#[local] Arguments recent_attacks : simpl never.
#[local] Arguments user_rows : simpl never.
#[local] Arguments Str.hex : simpl never.
#[local] Arguments next_id : simpl never.
#[local] Arguments logSecurityEvent : simpl never.

(** Case analysis on the next thing the handler branches on: a fault of the
    store, the rows a query answers with, then any other scrutinee, the
    innermost first. *)
Ltac innermost x :=
  lazymatch x with
  | context [match _ with _ => _ end] => fail
  | _ => idtac
  end.

Ltac not_a_match x :=
  lazymatch x with
  | match _ with _ => _ end => fail
  | _ => idtac
  end.

Ltac branch :=
  match goal with
  | |- context [match faults ?w ?k with _ => _ end] => destruct (faults w k) eqn:?
  | |- context [match active_token_rows ?h ?s with _ => _ end] =>
      destruct (active_token_rows h s) eqn:?
  | |- context [match token_rows_by_hash ?h ?s with _ => _ end] =>
      destruct (token_rows_by_hash h s) eqn:?
  | |- context [match usage_rows ?u ?d ?s with _ => _ end] =>
      destruct (usage_rows u d s) eqn:?
  | |- context [match ?x with _ => _ end] => innermost x; destruct x eqn:?
  | |- context [match ?x with _ => _ end] => not_a_match x; destruct x eqn:?
  end.

(** Runs a handler through all its branches. *)
Ltac run := cbn; repeat (branch; cbn); try reflexivity; try congruence.

(** What the token lookup answers with: pairs of a token of the store and
    a user of the store, joined on the owner, both active, under the digest
    asked for. *)
Lemma active_token_rows_In h s t u :
  In (t, u) (active_token_rows h s) ->
  In t (api_tokens s) /\ In u (usuarios s) /\
  ApiTokens.usuario_id t = Usuarios.id u /\
  ApiTokens.token_hash t = h /\
  ApiTokens.estado t = "activo" /\ Usuarios.estado u = "activo".
Proof.
  unfold active_token_rows. intros Hin.
  apply filter_In in Hin. destruct Hin as [Hin Hp]. cbn in Hp.
  apply andb_true_iff in Hp. destruct Hp as [Hp Hu].
  apply andb_true_iff in Hp. destruct Hp as [Hh Ht].
  apply String.eqb_eq in Hh, Ht, Hu.
  apply in_flat_map in Hin. destruct Hin as [t0 [Ht0 Hin]].
  apply in_map_iff in Hin. destruct Hin as [u0 [Heq Hu0]].
  injection Heq as <- <-.
  apply filter_In in Hu0. destruct Hu0 as [Hu0 Hid]. apply Z.eqb_eq in Hid.
  tauto.
Qed.

Lemma Forall2_map_self {A B} (R : A -> B -> Prop) (f : A -> B) (l : list A) :
  (forall a, R a (f a)) -> Forall2 R l (map f l).
Proof. intros Hf. induction l; cbn; constructor; auto. Qed.

Lemma moved_to_set_estado estado t : moved_to estado t (ApiTokens.set_estado estado t).
Proof. repeat split. Qed.

Section Properties.

Variable sha256_hex : string -> string.

(** *** The audit log *)

Lemma logSecurityEvent_ok now ip userId eventType severity endpoint payload w :
  reply_of (logSecurityEvent now ip userId eventType severity endpoint payload w) = Ok tt.
Proof.
  unfold logSecurityEvent, try_catch, pool_query, insert_security_event, console_error,
    sql_error, reply_of.
  run.
Qed.

(** What an audit write leaves behind: a row of [security_events] at most. *)
Lemma logSecurityEvent_effect now ip userId eventType severity endpoint payload w :
  exists w',
    logSecurityEvent now ip userId eventType severity endpoint payload w = (Ok tt, w') /\
    api_tokens (db w') = api_tokens (db w) /\
    limits_usage (db w') = limits_usage (db w) /\
    faults w' = faults w.
Proof.
  unfold logSecurityEvent, try_catch, pool_query, insert_security_event, console_error,
    sql_error.
  run; eexists; repeat split.
Qed.

(** Steps over one audit write. *)
Ltac audit_write :=
  match goal with
  | |- context [logSecurityEvent ?a ?b ?c ?d ?e ?f ?g ?w] =>
      let w' := fresh "w'" in
      let E := fresh "Hlog" in
      let Ht := fresh "Htokens" in
      destruct (logSecurityEvent_effect a b c d e f g w) as [w' [E [Ht [_ _]]]];
      rewrite E; cbn
  end.

Lemma logAttackAttempt_ok now ip userId attackType severity payload endpoint method w :
  reply_of (logAttackAttempt sha256_hex now ip userId attackType severity payload
              endpoint method w) = Ok tt.
Proof.
  unfold logAttackAttempt, try_catch, bind, ret, pool_query, insert_attack_attempt,
    count_recent_attacks, upsert_blocked_ip, console_error, sql_error, reply_of.
  run.
Qed.

(** *** The block registry *)

Lemma active_block_spec ip now b :
  active_block ip now b = true <->
  BlockedIps.ip_address b = ip /\ block_active now b.
Proof.
  unfold active_block, block_active.
  rewrite andb_true_iff, String.eqb_eq.
  destruct (BlockedIps.bloqueado_hasta b) as [t|].
  - rewrite Z.gtb_lt. split.
    + intros [Hip Ht]. split; [exact Hip | right; exists t; auto].
    + intros [Hip [Hn | [t' [Ht' Hlt]]]]; [discriminate |].
      injection Ht' as <-. auto.
  - split; intros [Hip _]; auto.
Qed.

(** The check reads the registry and writes nothing, whether or not the
    store answers. *)
Lemma checkBlockedIP_read_only now req w :
  db (world_of (checkBlockedIP now req w)) = db w.
Proof.
  unfold checkBlockedIP, try_catch, bind, ret, pool_query, select, console_error, world_of.
  run.
Qed.

(** C7, as amended: when the store answers, [checkBlockedIP] reports the
    address blocked exactly when the registry holds a row for it whose
    expiry is absent (how a permanent block is stored) or lies in the
    future; the kind column is not consulted; and the check leaves the
    store as it found it. *)
Theorem checkBlockedIP_blocks_iff_active_row now req w :
  faults w (tick w) = false ->
  (is_403 (reply_of (checkBlockedIP now req w)) <->
   exists b, In b (blocked_ips (db w)) /\
             BlockedIps.ip_address b = ip req /\ block_active now b)
  /\ (~ is_403 (reply_of (checkBlockedIP now req w)) ->
      reply_of (checkBlockedIP now req w) = Ok (Next req))
  /\ db (world_of (checkBlockedIP now req w)) = db w.
Proof.
  intros Hup. split; [| split; [| apply checkBlockedIP_read_only]].
  - unfold checkBlockedIP, try_catch, bind, ret, pool_query, select, reply_of, is_403.
    rewrite Hup. cbn.
    destruct (active_blocks (ip req) now (db w)) as [|b rest] eqn:Hrows; cbn.
    + split.
      * intros [body Hb]. discriminate.
      * intros [b [Hin Hb]].
        assert (Hf : In b (active_blocks (ip req) now (db w))).
        { apply filter_In. split; [exact Hin | now apply active_block_spec]. }
        rewrite Hrows in Hf. destruct Hf.
    + split.
      * intros _. exists b.
        assert (Hf : In b (active_blocks (ip req) now (db w))) by (rewrite Hrows; now left).
        apply filter_In in Hf. destruct Hf as [Hin Hact].
        apply active_block_spec in Hact. tauto.
      * intros _. eexists. reflexivity.
  - unfold checkBlockedIP, try_catch, bind, ret, pool_query, select, reply_of, is_403.
    rewrite Hup. cbn.
    destruct (active_blocks (ip req) now (db w)) as [|b rest]; cbn.
    + reflexivity.
    + intros Hno. exfalso. apply Hno. eexists. reflexivity.
Qed.

(** *** Internal failures *)

(** A failing block check lets the request through. *)
Lemma checkBlockedIP_fail_open now req w :
  faults w (tick w) = true ->
  reply_of (checkBlockedIP now req w) = Ok (Next req).
Proof.
  intros Hdown.
  unfold checkBlockedIP, try_catch, bind, ret, pool_query, select, console_error, reply_of.
  rewrite Hdown. reflexivity.
Qed.

Lemma validateAPIToken_catch now req w e w1 apiToken :
  x_api_key req = Some apiToken ->
  falsy (Some apiToken) = false ->
  validateAPIToken_try sha256_hex now req apiToken w = (Throw e, w1) ->
  reply_of (validateAPIToken sha256_hex now req w) = Ok internal_error.
Proof.
  intros Hkey Hpresent Hthrow.
  unfold validateAPIToken, try_catch, reply_of.
  rewrite Hkey, Hpresent, Hthrow.
  unfold bind, console_error. cbn.
  pose proof (logSecurityEvent_ok now (ip req) None "patron_anomalo" "alta" (path req)
                (Some (message e))
                (mkWorld (db w1) (faults w1) (tick w1)
                   (console w1 ++ ["Error validando API token:"]))) as Hlog.
  unfold reply_of in Hlog.
  destruct (logSecurityEvent _ _ _ _ _ _ _ _) as [r w2]. cbn in Hlog. subst r.
  reflexivity.
Qed.

(** A statement of the authentication and quota path that fails is what
    makes [validateAPIToken_try] throw: the token lookup, the update that
    expires a token, the usage query and the last-use update. *)
Lemma validateAPIToken_try_lookup_fault now req w apiToken :
  faults w (tick w) = true ->
  exists e w1, validateAPIToken_try sha256_hex now req apiToken w = (Throw e, w1).
Proof.
  intros Hdown. unfold validateAPIToken_try, bind, pool_query. rewrite Hdown.
  eexists. eexists. reflexivity.
Qed.

Lemma validateAPIToken_try_second_fault now req w apiToken t u rest :
  faults w (tick w) = false ->
  active_token_rows (sha256_hex apiToken) (db w) = (t, u) :: rest ->
  faults w (S (tick w)) = true ->
  exists e w1,
    validateAPIToken_try sha256_hex now req apiToken w = (Throw e, w1) /\ db w1 = db w.
Proof.
  intros Hup Hrows Hdown.
  unfold validateAPIToken_try, bind, ret, pool_query, select.
  rewrite Hup, Hrows. cbn. destruct (expired now t); cbn; rewrite Hdown;
    eexists; eexists; split; reflexivity.
Qed.

Lemma validateAPIToken_try_last_use_fault now req w apiToken t u rest :
  faults w (tick w) = false ->
  active_token_rows (sha256_hex apiToken) (db w) = (t, u) :: rest ->
  expired now t = false ->
  faults w (S (tick w)) = false ->
  usage_today (db w) (ApiTokens.usuario_id t) now < ApiTokens.limite_requests_diario t ->
  faults w (S (S (tick w))) = true ->
  exists e w1,
    validateAPIToken_try sha256_hex now req apiToken w = (Throw e, w1) /\ db w1 = db w.
Proof.
  intros Hup Hrows Hexp Hup1 Hunder Hdown.
  unfold validateAPIToken_try, bind, ret, pool_query, select, usage_today in *.
  rewrite Hup, Hrows. cbn. rewrite Hexp. cbn. rewrite Hup1. cbn.
  destruct (_ >=? _) eqn:Hc; cbn.
  - exfalso. apply Z.geb_le in Hc.
    exact (Z.lt_irrefl _ (Z.lt_le_trans _ _ _ Hunder Hc)).
  - rewrite Hdown. eexists. eexists. split; reflexivity.
Qed.

(** An admitted request means that the lookup, the usage query and the
    last-use update all ran: no failing step is skipped over. *)
Lemma validateAPIToken_admits_only_without_fault now req w req' :
  reply_of (validateAPIToken sha256_hex now req w) = Ok (Next req') ->
  faults w (tick w) = false /\ faults w (S (tick w)) = false /\
  faults w (S (S (tick w))) = false.
Proof.
  unfold validateAPIToken, validateAPIToken_try, logSecurityEvent, try_catch, bind, ret,
    pool_query, select, update_token, insert_security_event, console_error, sql_error,
    reply_of.
  run; intros; try discriminate; auto.
Qed.

Lemma validateAPIToken_never_throws now req w :
  exists r, reply_of (validateAPIToken sha256_hex now req w) = Ok r.
Proof.
  unfold validateAPIToken, validateAPIToken_try, logSecurityEvent, try_catch, bind, ret,
    pool_query, select, update_token, insert_security_event, console_error, sql_error,
    reply_of.
  run; eexists; reflexivity.
Qed.

(** C8, as amended: on the authentication and quota path every internal
    failure is answered with the generic 500 response and the request is not
    admitted: a failure of the token lookup, of the update that expires a
    token, of the usage query or of the last-use update, each of them, and
    whatever else the guarded block throws; a failure of the block check is
    caught and the request goes on to the next stage; failures of the audit
    log are caught and swallowed. *)
Theorem internal_failure_policy now req w apiToken :
  x_api_key req = Some apiToken ->
  falsy (Some apiToken) = false ->
  (faults w (tick w) = true ->
   reply_of (validateAPIToken sha256_hex now req w) = Ok internal_error)
  /\ (forall t u rest,
         faults w (tick w) = false ->
         active_token_rows (sha256_hex apiToken) (db w) = (t, u) :: rest ->
         expired now t = true ->
         faults w (S (tick w)) = true ->
         reply_of (validateAPIToken sha256_hex now req w) = Ok internal_error)
  /\ (forall t u rest,
         faults w (tick w) = false ->
         active_token_rows (sha256_hex apiToken) (db w) = (t, u) :: rest ->
         expired now t = false ->
         faults w (S (tick w)) = true ->
         reply_of (validateAPIToken sha256_hex now req w) = Ok internal_error)
  /\ (forall t u rest,
         faults w (tick w) = false ->
         active_token_rows (sha256_hex apiToken) (db w) = (t, u) :: rest ->
         expired now t = false ->
         faults w (S (tick w)) = false ->
         usage_today (db w) (ApiTokens.usuario_id t) now
         < ApiTokens.limite_requests_diario t ->
         faults w (S (S (tick w))) = true ->
         reply_of (validateAPIToken sha256_hex now req w) = Ok internal_error)
  /\ (forall e w1,
         validateAPIToken_try sha256_hex now req apiToken w = (Throw e, w1) ->
         reply_of (validateAPIToken sha256_hex now req w) = Ok internal_error)
  /\ (forall req',
         reply_of (validateAPIToken sha256_hex now req w) = Ok (Next req') ->
         faults w (tick w) = false /\ faults w (S (tick w)) = false /\
         faults w (S (S (tick w))) = false)
  /\ (faults w (tick w) = true ->
      reply_of (checkBlockedIP now req w) = Ok (Next req))
  /\ (forall ip userId eventType severity endpoint payload w',
         reply_of (logSecurityEvent now ip userId eventType severity endpoint payload w')
         = Ok tt)
  /\ (forall ip userId attackType severity payload endpoint method w',
         reply_of (logAttackAttempt sha256_hex now ip userId attackType severity payload
                     endpoint method w') = Ok tt).
Proof.
  intros Hkey Hpresent.
  assert (Hcatch : forall e w1,
             validateAPIToken_try sha256_hex now req apiToken w = (Throw e, w1) ->
             reply_of (validateAPIToken sha256_hex now req w) = Ok internal_error)
    by (intros e w1; now apply validateAPIToken_catch).
  split; [| split; [| split; [| split; [| split; [| split; [| split; [| split]]]]]]].
  - intros Hdown.
    destruct (validateAPIToken_try_lookup_fault now req w apiToken Hdown) as [e [w1 Ht]].
    exact (Hcatch e w1 Ht).
  - intros t u rest Hup Hrows _ Hdown.
    destruct (validateAPIToken_try_second_fault now req w apiToken t u rest Hup Hrows Hdown)
      as [e [w1 [Ht _]]].
    exact (Hcatch e w1 Ht).
  - intros t u rest Hup Hrows _ Hdown.
    destruct (validateAPIToken_try_second_fault now req w apiToken t u rest Hup Hrows Hdown)
      as [e [w1 [Ht _]]].
    exact (Hcatch e w1 Ht).
  - intros t u rest Hup Hrows Hexp Hup1 Hunder Hdown.
    destruct (validateAPIToken_try_last_use_fault now req w apiToken t u rest
                Hup Hrows Hexp Hup1 Hunder Hdown) as [e [w1 [Ht _]]].
    exact (Hcatch e w1 Ht).
  - exact Hcatch.
  - intros req'. apply validateAPIToken_admits_only_without_fault.
  - now apply checkBlockedIP_fail_open.
  - intros. apply logSecurityEvent_ok.
  - intros. apply logAttackAttempt_ok.
Qed.

(** *** Authentication *)

Lemma find_head_filter {A} (p : A -> bool) (l : list A) :
  find p l = match filter p l with [] => None | x :: _ => Some x end.
Proof.
  induction l as [|a l IH]; cbn; [reflexivity |].
  destruct (p a); [reflexivity | exact IH].
Qed.

Lemma lookup_agrees h s :
  find (fun tu => String.eqb (ApiTokens.token_hash (fst tu)) h && both_active tu)
    (owned_tokens s)
  = match active_token_rows h s with [] => None | x :: _ => Some x end.
Proof.
  rewrite find_head_filter. unfold active_token_rows, owned_tokens, both_active.
  erewrite filter_ext; [reflexivity |].
  intros [t u]. cbn. now rewrite andb_assoc.
Qed.

Lemma validateAPIToken_absent now req w :
  falsy (x_api_key req) = true ->
  reply_of (validateAPIToken sha256_hex now req w) = Ok missing_reply.
Proof.
  intros Hkey. unfold validateAPIToken, reply_of. rewrite Hkey.
  unfold bind, ret.
  pose proof (logSecurityEvent_ok now (ip req) None "token_invalido" "media" (path req)
                (Some "Missing API token") w) as Hlog.
  unfold reply_of in Hlog. destruct (logSecurityEvent _ _ _ _ _ _ _ _) as [r w1].
  cbn in Hlog. subst r. reflexivity.
Qed.

Lemma validateAPIToken_unknown now req w k :
  healthy w ->
  x_api_key req = Some k -> falsy (Some k) = false ->
  active_token_rows (sha256_hex k) (db w) = [] ->
  reply_of (validateAPIToken sha256_hex now req w) = Ok invalid_reply.
Proof.
  intros Hup Hkey Hpresent Hrows.
  unfold validateAPIToken, validateAPIToken_try, reply_of.
  rewrite Hkey, Hpresent.
  unfold try_catch, bind, ret, pool_query, select.
  rewrite Hup, Hrows. cbn.
  audit_write. reflexivity.
Qed.

Lemma validateAPIToken_expired now req w k t u rest :
  healthy w ->
  x_api_key req = Some k -> falsy (Some k) = false ->
  active_token_rows (sha256_hex k) (db w) = (t, u) :: rest ->
  expired now t = true ->
  reply_of (validateAPIToken sha256_hex now req w) = Ok expired_reply /\
  api_tokens (db (world_of (validateAPIToken sha256_hex now req w)))
  = map (fun t' => if ApiTokens.id t' =? ApiTokens.id t
                   then ApiTokens.set_estado "expirado" t' else t')
      (api_tokens (db w)).
Proof.
  intros Hup Hkey Hpresent Hrows Hexp.
  unfold validateAPIToken, validateAPIToken_try, reply_of, world_of.
  rewrite Hkey, Hpresent.
  unfold try_catch, bind, ret, pool_query, select, update_token.
  rewrite Hup, Hrows. cbn. rewrite Hexp. cbn. rewrite Hup. cbn.
  audit_write. split; [reflexivity | exact Htokens].
Qed.

Lemma validateAPIToken_found now req w k t u rest :
  healthy w ->
  x_api_key req = Some k -> falsy (Some k) = false ->
  active_token_rows (sha256_hex k) (db w) = (t, u) :: rest ->
  expired now t = false ->
  let usado := usage_today (db w) (ApiTokens.usuario_id t) now in
  if usado >=? ApiTokens.limite_requests_diario t
  then reply_of (validateAPIToken sha256_hex now req w)
       = Ok (quota_reply (ApiTokens.limite_requests_diario t) usado)
  else exists req',
      reply_of (validateAPIToken sha256_hex now req w) = Ok (Next req') /\
      user req' = Some (mkUser (ApiTokens.usuario_id t) (Usuarios.rol u)) /\
      apiToken req' = Some (t, u).
Proof.
  intros Hup Hkey Hpresent Hrows Hexp.
  unfold validateAPIToken, validateAPIToken_try, reply_of, usage_today.
  rewrite Hkey, Hpresent.
  unfold try_catch, bind, ret, pool_query, select, update_token.
  rewrite Hup, Hrows. cbn. rewrite Hexp. cbn. rewrite Hup. cbn.
  destruct (_ >=? _); cbn.
  - audit_write. reflexivity.
  - rewrite Hup. cbn. eexists. split; [reflexivity | auto].
Qed.

(** C3: [validateAPIToken] goes through the cases of the authenticator in
    the order of the specification: an absent credential is answered first;
    a digest with no active token of an active owner gets one and the same
    answer whatever the reason; a token found past its expiry is answered as
    expired and set to expired in the store: the token is a row of the
    store, the state of every row of its id is expirado afterwards with no
    other column changed, and the other rows are what they were; otherwise
    the token is
    resolved and handed on with the owner's identity and role, unless the
    quota stage that follows turns the request down. *)
Theorem validateAPIToken_refines_authenticate now req w :
  healthy w ->
  match authenticate sha256_hex (db w) now (x_api_key req) with
  | MissingCredential =>
      reply_of (validateAPIToken sha256_hex now req w) = Ok missing_reply
  | InvalidOrRevoked =>
      reply_of (validateAPIToken sha256_hex now req w) = Ok invalid_reply
  | Expired t =>
      reply_of (validateAPIToken sha256_hex now req w) = Ok expired_reply /\
      In t (api_tokens (db w)) /\
      Forall2 (fun before after =>
                 if ApiTokens.id before =? ApiTokens.id t
                 then moved_to "expirado" before after
                 else after = before)
        (api_tokens (db w))
        (api_tokens (db (world_of (validateAPIToken sha256_hex now req w))))
  | Resolved t owner role =>
      let usado := usage_today (db w) owner now in
      if usado >=? ApiTokens.limite_requests_diario t
      then reply_of (validateAPIToken sha256_hex now req w)
           = Ok (quota_reply (ApiTokens.limite_requests_diario t) usado)
      else exists req',
          reply_of (validateAPIToken sha256_hex now req w) = Ok (Next req') /\
          user req' = Some (mkUser owner role) /\
          option_map fst (apiToken req') = Some t
  end.
Proof.
  intros Hup. unfold authenticate.
  destruct (x_api_key req) as [[|c raw]|] eqn:Hkey.
  - apply validateAPIToken_absent. now rewrite Hkey.
  - rewrite lookup_agrees.
    destruct (active_token_rows (sha256_hex (String c raw)) (db w))
      as [|[t u] rest] eqn:Hrows.
    + now apply validateAPIToken_unknown with (k := String c raw).
    + assert (Hexp : expired now t
                     = match ApiTokens.fecha_expiracion t with
                       | Some e => e <? now | None => false end).
      { unfold expired. destruct (ApiTokens.fecha_expiracion t); [apply Z.gtb_ltb | reflexivity]. }
      destruct (ApiTokens.fecha_expiracion t) as [e|].
      * destruct (e <? now).
        -- destruct (validateAPIToken_expired now req w (String c raw) t u rest
                       Hup Hkey eq_refl Hrows Hexp) as [Hreply Hset].
           split; [exact Hreply |]. split.
           ++ apply (active_token_rows_In (sha256_hex (String c raw)) (db w) t u).
              rewrite Hrows. now left.
           ++ rewrite Hset. apply Forall2_map_self. intros t'.
              destruct (ApiTokens.id t' =? ApiTokens.id t);
                [apply moved_to_set_estado | reflexivity].
        -- pose proof (validateAPIToken_found now req w (String c raw) t u rest
                         Hup Hkey eq_refl Hrows Hexp) as Hf.
           cbv zeta in *. destruct (_ >=? _); [exact Hf |].
           destruct Hf as [req' [Hr [Hu Ha]]]. exists req'. rewrite Ha. auto.
      * pose proof (validateAPIToken_found now req w (String c raw) t u rest
                      Hup Hkey eq_refl Hrows Hexp) as Hf.
        cbv zeta in *. destruct (_ >=? _); [exact Hf |].
        destruct Hf as [req' [Hr [Hu Ha]]]. exists req'. rewrite Ha. auto.
  - apply validateAPIToken_absent. now rewrite Hkey.
Qed.

(** *** Quota *)

Lemma update_keeps_usage (f : ApiTokens.row -> ApiTokens.row) id l :
  (forall t, ApiTokens.requests_utilizados_hoy (f t) = ApiTokens.requests_utilizados_hoy t) ->
  map ApiTokens.requests_utilizados_hoy
    (map (fun t => if ApiTokens.id t =? id then f t else t) l)
  = map ApiTokens.requests_utilizados_hoy l.
Proof.
  intros Hf. rewrite map_map. apply map_ext. intros t.
  destruct (ApiTokens.id t =? id); [apply Hf | reflexivity].
Qed.

(** Whatever the request and the state of the store, [validateAPIToken]
    writes neither the owner's daily counter nor any token's count of the
    day: the only statement that follows a passed quota check sets the
    last-use columns. *)
Lemma validateAPIToken_charges_nothing now req w :
  limits_usage (db (world_of (validateAPIToken sha256_hex now req w)))
  = limits_usage (db w) /\
  map ApiTokens.requests_utilizados_hoy
    (api_tokens (db (world_of (validateAPIToken sha256_hex now req w))))
  = map ApiTokens.requests_utilizados_hoy (api_tokens (db w)).
Proof.
  unfold validateAPIToken, validateAPIToken_try, logSecurityEvent, try_catch, bind, ret,
    pool_query, select, update_token, insert_security_event, console_error, sql_error,
    world_of.
  run; split; try reflexivity; now apply update_keeps_usage.
Qed.

Variable pg_decimal_6_3 : string -> bool.

(** The public consult route never writes the owner's daily counter. *)
Lemma public_consultar_keeps_limits_usage now python req w :
  limits_usage (db (world_of (public_consultar sha256_hex pg_decimal_6_3 now python req w)))
  = limits_usage (db w).
Proof.
  unfold public_consultar, public_consultar_try, axios_post, api_time_text, try_catch, bind,
    ret, throw, pool_query, select, update_token, insert_security_event,
    insert_requests_log, console_error, sql_error, world_of.
  run.
Qed.

(** What [api_time_text] computes is [time_text]. *)
Lemma api_time_text_spec data w :
  api_time_text (total_api_time data) w
  = match time_text data with
    | Some text => (Ok text, w)
    | None =>
        (Throw (mkError
                  "pythonResponse.data.api_metadata?.total_api_time?.replace is not a function"
                  None), w)
    end.
Proof.
  unfold api_time_text, total_api_time, time_text, ret, throw.
  destruct (Json.get "api_metadata" data) as [[| | | | |meta]|]; try reflexivity.
  destruct (Json.get "total_api_time" meta) as [[| | |time| |]|]; try reflexivity.
  destruct (Str.replace "s" "" time); reflexivity.
Qed.

Lemma valid_ruc_varchar ruc : valid_ruc ruc = true -> varchar 13 ruc = true.
Proof.
  unfold valid_ruc, varchar. intros H. apply andb_true_iff in H. destruct H as [_ H].
  cbn in H. rewrite orb_false_r in H. apply orb_true_iff in H.
  destruct H as [H | H]; apply Nat.eqb_eq in H; rewrite H; reflexivity.
Qed.

(** The public consult route, past the quota check: the token found is
    charged (count of the day, lifetime total, last use), the downstream
    service is called and its answer is relayed. *)
Lemma public_consultar_admits now data req w token ruc tok usr rest text :
  healthy w ->
  param "token" req = Some token ->
  Str.startsWith "fp_" token = true ->
  param "ruc" req = Some ruc ->
  valid_ruc ruc = true ->
  active_token_rows (sha256_hex token) (db w) = (tok, usr) :: rest ->
  ApiTokens.requests_utilizados_hoy tok < ApiTokens.limite_requests_diario tok ->
  time_text data = Some text ->
  pg_decimal_6_3 text = true ->
  exists w',
    public_consultar sha256_hex pg_decimal_6_3 now (AxiosOk data) req w
    = (Ok (Respond 200
             (consult_body data (Usuarios.nombre usr) (Usuarios.plan usr)
                (ApiTokens.limite_requests_diario tok)
                (ApiTokens.requests_utilizados_hoy tok))), w') /\
    api_tokens (db w')
    = map (fun t => if ApiTokens.id t =? ApiTokens.id tok then ApiTokens.charge now t else t)
        (api_tokens (db w)) /\
    faults w' = faults w.
Proof.
  intros Hup Htoken Hfp Hruc Hvalid Hrows Hunder Htime Hfits.
  pose proof (valid_ruc_varchar ruc Hvalid) as Hcedula.
  unfold valid_ruc in Hvalid. apply andb_true_iff in Hvalid. destruct Hvalid as [Hre Hlen].
  assert (Htk : falsy (Some token) = false).
  { destruct token; [discriminate | reflexivity]. }
  assert (Hrk : falsy (Some ruc) = false).
  { destruct ruc; [discriminate | reflexivity]. }
  assert (Hq : (ApiTokens.requests_utilizados_hoy tok >=? ApiTokens.limite_requests_diario tok)
               = false).
  { rewrite Z.geb_leb. apply Z.leb_gt. exact Hunder. }
  eexists. split.
  - unfold public_consultar, public_consultar_try.
    rewrite Htoken, Hruc, Htk, Hrk. cbn [or_empty negb orb].
    rewrite Hfp, Hre, Hlen. cbn [negb orb].
    unfold try_catch at 1. unfold bind at 1. unfold pool_query at 1. rewrite Hup.
    unfold select at 1. rewrite Hrows. cbn [fst snd]. rewrite Hq.
    unfold axios_post, bind, ret, pool_query, update_token, insert_requests_log.
    cbn. rewrite Hup. cbn. rewrite api_time_text_spec, Htime. cbn.
    rewrite Hup. cbn. unfold varchar in Hcedula. rewrite Hcedula, Hfits. cbn. reflexivity.
  - split; reflexivity.
Qed.

(** The public consult route, at the quota check that fails.  The statement
    that records the event names the column detalles and the event type
    limite_excedido.  A table that has neither, as the one of init.sql,
    refuses it: the statement throws and the handler's catch answers 500
    where the 429 answer was meant. *)
Lemma public_consultar_over_quota_replies_500 now python req w token ruc tok usr rest :
  param "token" req = Some token ->
  Str.startsWith "fp_" token = true ->
  param "ruc" req = Some ruc ->
  valid_ruc ruc = true ->
  faults w (tick w) = false ->
  active_token_rows (sha256_hex token) (db w) = (tok, usr) :: rest ->
  ApiTokens.limite_requests_diario tok <= ApiTokens.requests_utilizados_hoy tok ->
  accepts_quota_event (security_events_table (db w)) = false ->
  reply_of (public_consultar sha256_hex pg_decimal_6_3 now python req w) = Ok consult_failed.
Proof.
  intros Htoken Hfp Hruc Hvalid Hup Hrows Hover Hschema.
  unfold valid_ruc in Hvalid. apply andb_true_iff in Hvalid. destruct Hvalid as [Hre Hlen].
  assert (Htk : falsy (Some token) = false).
  { destruct token; [discriminate | reflexivity]. }
  assert (Hrk : falsy (Some ruc) = false).
  { destruct ruc; [discriminate | reflexivity]. }
  unfold public_consultar, public_consultar_try, reply_of.
  rewrite Htoken, Hruc, Htk, Hrk. cbn [or_empty negb orb].
  rewrite Hfp, Hre, Hlen. cbn [negb orb].
  unfold try_catch at 1. unfold bind at 1. unfold pool_query at 1. rewrite Hup.
  unfold select at 1. rewrite Hrows. cbn [fst snd].
  apply Z.geb_le in Hover. rewrite Hover.
  unfold accepts_quota_event, quota_event_columns in Hschema.
  unfold axios_post, try_catch, bind, ret, throw, pool_query, select,
    insert_security_event, insert_requests_log, console_error, sql_error.
  cbn in *.
  destruct (is_in "limite_excedido" _) eqn:Htype;
    [rewrite andb_true_r in Hschema; rewrite Hschema | rewrite ?andb_false_r]; run.
Qed.

(** With a table that takes the statement, and the store answering, the
    handler answers 429 with the ceiling and the usage. *)
Lemma public_consultar_over_quota_replies_429 now python req w token ruc tok usr rest :
  param "token" req = Some token ->
  Str.startsWith "fp_" token = true ->
  param "ruc" req = Some ruc ->
  valid_ruc ruc = true ->
  faults w (tick w) = false ->
  faults w (S (tick w)) = false ->
  active_token_rows (sha256_hex token) (db w) = (tok, usr) :: rest ->
  ApiTokens.limite_requests_diario tok <= ApiTokens.requests_utilizados_hoy tok ->
  accepts_quota_event (security_events_table (db w)) = true ->
  reply_of (public_consultar sha256_hex pg_decimal_6_3 now python req w)
  = Ok (consult_quota_reply (ApiTokens.limite_requests_diario tok)
          (ApiTokens.requests_utilizados_hoy tok)).
Proof.
  intros Htoken Hfp Hruc Hvalid Hup Hup1 Hrows Hover Hschema.
  unfold valid_ruc in Hvalid. apply andb_true_iff in Hvalid. destruct Hvalid as [Hre Hlen].
  assert (Htk : falsy (Some token) = false).
  { destruct token; [discriminate | reflexivity]. }
  assert (Hrk : falsy (Some ruc) = false).
  { destruct ruc; [discriminate | reflexivity]. }
  unfold public_consultar, public_consultar_try, reply_of.
  rewrite Htoken, Hruc, Htk, Hrk. cbn [or_empty negb orb].
  rewrite Hfp, Hre, Hlen. cbn [negb orb].
  unfold try_catch at 1. unfold bind at 1. unfold pool_query at 1. rewrite Hup.
  unfold select at 1. rewrite Hrows. cbn [fst snd].
  apply Z.geb_le in Hover. rewrite Hover.
  unfold accepts_quota_event, quota_event_columns in Hschema.
  apply andb_true_iff in Hschema. destruct Hschema as [Hcols Htype].
  unfold bind, ret, pool_query, insert_security_event, sql_error.
  cbn in *. rewrite Hup1, Hcols, Htype. reflexivity.
Qed.

(** C10: on the public consult route, whenever the quota check fails the
    token table is left exactly as it was: today's count, the lifetime
    total and the last-use columns of every token keep their values, and
    this whatever the answer then sent, the 429 answer included. *)
Theorem public_consultar_over_quota_keeps_tokens now python req w token ruc tok usr rest :
  param "token" req = Some token ->
  Str.startsWith "fp_" token = true ->
  param "ruc" req = Some ruc ->
  valid_ruc ruc = true ->
  faults w (tick w) = false ->
  active_token_rows (sha256_hex token) (db w) = (tok, usr) :: rest ->
  ApiTokens.limite_requests_diario tok <= ApiTokens.requests_utilizados_hoy tok ->
  api_tokens (db (world_of (public_consultar sha256_hex pg_decimal_6_3 now python req w)))
  = api_tokens (db w).
Proof.
  intros Htoken Hfp Hruc Hvalid Hup Hrows Hover.
  unfold valid_ruc in Hvalid. apply andb_true_iff in Hvalid. destruct Hvalid as [Hre Hlen].
  assert (Htk : falsy (Some token) = false).
  { destruct token; [discriminate | reflexivity]. }
  assert (Hrk : falsy (Some ruc) = false).
  { destruct ruc; [discriminate | reflexivity]. }
  unfold public_consultar, public_consultar_try, world_of.
  rewrite Htoken, Hruc, Htk, Hrk. cbn [or_empty negb orb].
  rewrite Hfp, Hre, Hlen. cbn [negb orb].
  unfold try_catch at 1. unfold bind at 1. unfold pool_query at 1. rewrite Hup.
  unfold select at 1. rewrite Hrows. cbn [fst snd].
  apply Z.geb_le in Hover. rewrite Hover.
  unfold axios_post, try_catch, bind, ret, throw, pool_query, select,
    insert_security_event, insert_requests_log, console_error, sql_error.
  run.
Qed.

(** *** The threat scanner *)

(** For a request without a parameter named toString, the scanner is the
    loop over the detectors on [payload_of]. *)
Lemma detectAttacks_plain now req w :
  plain req = true ->
  detectAttacks sha256_hex now req w
  = match first_match (payload_of req) with
    | Some pattern =>
        (logAttackAttempt sha256_hex now (ip req) (option_map user_id (user req))
           (attackType_of pattern) "alta" (payload_of req) (path req) (method req) ;;
         ret (Respond 400 (error_body "Solicitud malformada detectada"))) w
    | None => (Ok (Next req), w)
    end.
Proof.
  unfold plain, detectAttacks, object_toString, first_match, payload_of. intros Hplain.
  apply andb_true_iff in Hplain. destruct Hplain as [Hq Hp].
  apply negb_true_iff in Hq, Hp. rewrite Hq, Hp.
  unfold bind at 1 2. unfold ret at 1 2.
  destruct (find _ suspiciousPatterns); reflexivity.
Qed.

(** With such a parameter the call of toString throws: no detector is run,
    nothing is recorded, and neither next() nor an answer follows. *)
Lemma detectAttacks_throws now req w :
  plain req = false ->
  exists e, detectAttacks sha256_hex now req w = (Throw e, w).
Proof.
  unfold plain, detectAttacks, object_toString. intros Hplain.
  apply andb_false_iff in Hplain. unfold bind, ret, throw.
  destruct (has_own "toString" (query req)); [eexists; reflexivity |].
  destruct Hplain as [Hq | Hp]; [discriminate |].
  apply negb_false_iff in Hp. rewrite Hp. eexists. reflexivity.
Qed.

Lemma detectAttacks_pass now req w :
  plain req = true ->
  first_match (payload_of req) = None ->
  detectAttacks sha256_hex now req w = (Ok (Next req), w).
Proof.
  intros Hplain Hfirst. now rewrite detectAttacks_plain, Hfirst.
Qed.

Lemma detectAttacks_reject now req w pattern :
  plain req = true ->
  first_match (payload_of req) = Some pattern ->
  reply_of (detectAttacks sha256_hex now req w) = Ok malformed_reply /\
  (faults w (tick w) = false ->
   is_in (attackType_of pattern) AttackAttempts.attack_type_check = true ->
   varchar 50 (path req) = true ->
   varchar 10 (method req) = true ->
   attack_attempts (db (world_of (detectAttacks sha256_hex now req w)))
   = (attack_attempts (db w) ++
        [AttackAttempts.mk (ip req) (option_map user_id (user req))
           (attackType_of pattern) "alta" (payload_of req)
           (sha256_hex (payload_of req)) (path req) (method req) now])%list) /\
  (faults w (tick w) = true \/ varchar 50 (path req) = false \/
   varchar 10 (method req) = false ->
   db (world_of (detectAttacks sha256_hex now req w)) = db w).
Proof.
  intros Hplain Hfirst. rewrite detectAttacks_plain, Hfirst by exact Hplain. split; [| split].
  - unfold bind, ret, reply_of.
    pose proof (logAttackAttempt_ok now (ip req) (option_map user_id (user req))
                  (attackType_of pattern) "alta" (payload_of req) (path req) (method req) w)
      as Hlog.
    unfold reply_of in Hlog. destruct (logAttackAttempt _ _ _ _ _ _ _ _ _ _) as [r w1].
    cbn in Hlog. subst r. reflexivity.
  - intros Hup Hcheck Hpath Hmethod.
    unfold logAttackAttempt, world_of, try_catch, bind, ret, pool_query,
      insert_attack_attempt, count_recent_attacks, upsert_blocked_ip, console_error,
      sql_error.
    cbn [AttackAttempts.attack_type AttackAttempts.severidad AttackAttempts.endpoint
         AttackAttempts.metodo_http].
    rewrite Hup, Hcheck, Hpath, Hmethod. cbn.
    run.
  - intros Hrefused.
    unfold logAttackAttempt, world_of, try_catch, bind, ret, pool_query,
      insert_attack_attempt, count_recent_attacks, upsert_blocked_ip, console_error,
      sql_error.
    cbn [AttackAttempts.attack_type AttackAttempts.severidad AttackAttempts.endpoint
         AttackAttempts.metodo_http].
    destruct (faults w (tick w)); [reflexivity |].
    destruct Hrefused as [Hf | [Hpath | Hmethod]]; [discriminate | |].
    + rewrite Hpath. cbn. repeat (destruct (negb _); try reflexivity).
    + rewrite Hmethod. cbn. repeat (destruct (negb _); try reflexivity).
Qed.

Lemma attackType_allowed pattern :
  is_in (attackType_of pattern) AttackAttempts.attack_type_check = true.
Proof.
  unfold attackType_of.
  repeat match goal with |- context [Str.includes ?a ?b] => destruct (Str.includes a b) end;
    reflexivity.
Qed.

(** Every payload the SQL detector matches is recorded as malformed_input:
    the text SELECT|UNION looked for in the source of the expression does
    not occur in it, the alternatives being separated by \b|\b there. *)
Lemma detectAttacks_labels_sql_malformed now req w :
  plain req = true ->
  Re.test sql_pattern (payload_of req) = true ->
  faults w (tick w) = false ->
  varchar 50 (path req) = true ->
  varchar 10 (method req) = true ->
  first_match (payload_of req) = Some sql_pattern /\
  attackType_of sql_pattern = "malformed_input" /\
  attack_attempts (db (world_of (detectAttacks sha256_hex now req w)))
  = (attack_attempts (db w) ++
       [AttackAttempts.mk (ip req) (option_map user_id (user req))
          "malformed_input" "alta" (payload_of req)
          (sha256_hex (payload_of req)) (path req) (method req) now])%list.
Proof.
  intros Hplain Hsql Hup Hpath Hmethod.
  assert (Hfirst : first_match (payload_of req) = Some sql_pattern).
  { unfold first_match, suspiciousPatterns. cbn [find]. now rewrite Hsql. }
  split; [exact Hfirst | split; [reflexivity |]].
  destruct (detectAttacks_reject now req w sql_pattern Hplain Hfirst) as [_ [Hrec _]].
  apply Hrec; [exact Hup | reflexivity | exact Hpath | exact Hmethod].
Qed.

(** C4, as amended: the payload ' OR 1=1 -- in the request body matches no
    detector, so the scanner passes the request on and records nothing (the
    SQL detector knows the words SELECT, UNION, INSERT, DELETE and DROP
    only).  A request one of the detectors matches, such as a body carrying
    ' UNION SELECT 1 --, is answered with HTTP 400 and the fixed text
    Solicitud malformada detectada, which says nothing of the payload or of
    the pattern, after the attack attempt has been written to the store:
    written when the store answers and takes the path and the method of the
    request in its columns, and not written otherwise.  All this for a
    request without a parameter named toString in its query string or
    route; with one, the scanner throws before any detector runs: it
    neither passes the request on nor answers it, and the store is
    untouched. *)
Theorem detectAttacks_verdict now req w :
  (plain req = true ->
   first_match (payload_of req) = None ->
   detectAttacks sha256_hex now req w = (Ok (Next req), w))
  /\ (plain req = true ->
      forall pattern,
        first_match (payload_of req) = Some pattern ->
        reply_of (detectAttacks sha256_hex now req w) = Ok malformed_reply /\
        (faults w (tick w) = false ->
         varchar 50 (path req) = true ->
         varchar 10 (method req) = true ->
         attack_attempts (db (world_of (detectAttacks sha256_hex now req w)))
         = (attack_attempts (db w) ++
              [AttackAttempts.mk (ip req) (option_map user_id (user req))
                 (attackType_of pattern) "alta" (payload_of req)
                 (sha256_hex (payload_of req)) (path req) (method req) now])%list) /\
        (faults w (tick w) = true \/ varchar 50 (path req) = false \/
         varchar 10 (method req) = false ->
         db (world_of (detectAttacks sha256_hex now req w)) = db w))
  /\ (plain req = false ->
      exists e, detectAttacks sha256_hex now req w = (Throw e, w))
  /\ first_match (payload_of Demo.req_tautology) = None
  /\ first_match (payload_of Demo.req_union) = Some sql_pattern.
Proof.
  split; [apply detectAttacks_pass |]. split; [| split].
  - intros Hplain pattern Hfirst.
    destruct (detectAttacks_reject now req w pattern Hplain Hfirst)
      as [Hreply [Hrec Hrefused]].
    split; [exact Hreply |]. split; [| exact Hrefused].
    intros Hup Hpath Hmethod.
    apply Hrec; [exact Hup | apply attackType_allowed | exact Hpath | exact Hmethod].
  - apply detectAttacks_throws.
  - split; vm_compute; reflexivity.
Qed.

(** *** Automatic blocking *)

Lemma recent_attacks_after_insert ip now a s s' :
  attack_attempts s' = (attack_attempts s ++ [a])%list ->
  AttackAttempts.ip_address a = ip ->
  AttackAttempts.timestamp a = now ->
  recent_attacks ip now s' = (recent_attacks ip now s ++ [a])%list.
Proof.
  intros Hs' Hip Hts. unfold recent_attacks. rewrite Hs'.
  rewrite filter_app. f_equal. cbn [filter].
  rewrite Hip, Hts, String.eqb_refl.
  assert (Hnow : (now >? now - ms_per_hour) = true).
  { apply Z.gtb_lt. unfold ms_per_hour. lia. }
  now rewrite Hnow.
Qed.

Lemma reblocked_addresses ip hasta l :
  addresses (reblocked ip hasta l) = addresses l.
Proof.
  unfold addresses, reblocked. rewrite map_map. apply map_ext.
  intros b. now destruct (String.eqb (BlockedIps.ip_address b) ip).
Qed.

Lemma has_row_false ip l :
  has_row ip l = false -> ~ In ip (addresses l).
Proof.
  unfold has_row, addresses. intros Hno Hin.
  apply in_map_iff in Hin. destruct Hin as [b [Hb Hin]].
  assert (Hex : existsb (fun b => String.eqb (BlockedIps.ip_address b) ip) l = true).
  { apply existsb_exists. exists b. split; [exact Hin | now apply String.eqb_eq]. }
  congruence.
Qed.

Lemma has_row_true ip l :
  has_row ip l = true -> exists b, In b l /\ BlockedIps.ip_address b = ip.
Proof.
  unfold has_row. intros Hex. apply existsb_exists in Hex.
  destruct Hex as [b [Hin Hb]]. exists b. split; [exact Hin | now apply String.eqb_eq].
Qed.

Lemma reblocked_In ip hasta l old :
  In old l -> BlockedIps.ip_address old = ip ->
  In (BlockedIps.on_conflict hasta old) (reblocked ip hasta l).
Proof.
  intros Hin Hip. unfold reblocked. apply in_map_iff. exists old.
  rewrite Hip, String.eqb_refl. auto.
Qed.

Lemma on_conflict_fields hasta b :
  BlockedIps.ip_address (BlockedIps.on_conflict hasta b) = BlockedIps.ip_address b /\
  BlockedIps.bloqueado_hasta (BlockedIps.on_conflict hasta b) = Some hasta /\
  BlockedIps.intentos_fallidos (BlockedIps.on_conflict hasta b)
  = BlockedIps.intentos_fallidos b + 1 /\
  BlockedIps.veces_bloqueado (BlockedIps.on_conflict hasta b)
  = BlockedIps.veces_bloqueado b + 1 /\
  BlockedIps.tipo_bloqueo (BlockedIps.on_conflict hasta b) = BlockedIps.tipo_bloqueo b.
Proof. repeat split. Qed.

(** What [logAttackAttempt] leaves in the registry when the store answers:
    it depends on the count of attacks of the last hour, the one just
    recorded included. *)
Lemma logAttackAttempt_registry now ip userId attackType severity payload endpoint method w :
  faults w (tick w) = false ->
  faults w (S (tick w)) = false ->
  faults w (S (S (tick w))) = false ->
  is_in attackType AttackAttempts.attack_type_check = true ->
  is_in severity severidad_check = true ->
  varchar 50 endpoint = true ->
  varchar 10 method = true ->
  let count := Z.of_nat (List.length (recent_attacks ip now (db w))) + 1 in
  blocked_ips (db (world_of (logAttackAttempt sha256_hex now ip userId attackType severity
                               payload endpoint method w)))
  = if count >=? 5
    then if has_row ip (blocked_ips (db w))
         then reblocked ip (now + ms_per_day) (blocked_ips (db w))
         else (blocked_ips (db w) ++ [first_block ip now count])%list
    else blocked_ips (db w).
Proof.
  intros H0 H1 H2 Htype Hsev Hendpoint Hmethod count.
  unfold logAttackAttempt, world_of, try_catch, bind, ret, pool_query,
    insert_attack_attempt, count_recent_attacks.
  cbn [AttackAttempts.attack_type AttackAttempts.severidad AttackAttempts.endpoint
       AttackAttempts.metodo_http].
  rewrite H0, Htype, Hsev, Hendpoint, Hmethod. cbn. rewrite H1. cbn.
  erewrite recent_attacks_after_insert; [| reflexivity ..].
  rewrite length_app, Nat2Z.inj_add. cbn [List.length Z.of_nat Pos.of_succ_nat].
  fold count.
  destruct (count >=? 5); cbn; [| reflexivity].
  rewrite H2. unfold upsert_blocked_ip. cbn.
  fold (has_row ip (blocked_ips (db w))).
  destruct (has_row ip (blocked_ips (db w))); reflexivity.
Qed.

(** C6, as amended: when the store takes the three statements of
    logAttackAttempt (it answers, the attack type and the severity are
    among the allowed ones, and the path and the method fit their columns
    of 50 and 10 characters) and an attack brings the count of attacks from
    its address within the last hour to five or more and the address has no row,
    one row is inserted with kind temporal and expiry now + 24 hours; when
    the address has a row already, that same row is updated: its expiry is
    set to now + 24 hours, its failed-attempt and times-blocked counters are
    each raised by one, and its kind stays what it was.  No second row for
    the address is ever inserted: addresses stay unique in the registry and
    the rows of other addresses are not touched. *)
Theorem logAttackAttempt_upserts_block now ip userId attackType severity payload endpoint
    method w :
  faults w (tick w) = false ->
  faults w (S (tick w)) = false ->
  faults w (S (S (tick w))) = false ->
  is_in attackType AttackAttempts.attack_type_check = true ->
  is_in severity severidad_check = true ->
  varchar 50 endpoint = true ->
  varchar 10 method = true ->
  NoDup (addresses (blocked_ips (db w))) ->
  let count := Z.of_nat (List.length (recent_attacks ip now (db w))) + 1 in
  let before := blocked_ips (db w) in
  let after :=
    blocked_ips (db (world_of (logAttackAttempt sha256_hex now ip userId attackType
                                 severity payload endpoint method w))) in
  NoDup (addresses after)
  /\ (count < 5 -> after = before)
  /\ (5 <= count -> has_row ip before = false ->
      after = (before ++ [first_block ip now count])%list)
  /\ (5 <= count -> has_row ip before = true ->
      after = reblocked ip (now + ms_per_day) before /\
      List.length after = List.length before /\
      exists old, In old before /\ BlockedIps.ip_address old = ip /\
                  In (BlockedIps.on_conflict (now + ms_per_day) old) after /\
                  BlockedIps.bloqueado_hasta (BlockedIps.on_conflict (now + ms_per_day) old)
                  = Some (now + ms_per_day) /\
                  BlockedIps.intentos_fallidos (BlockedIps.on_conflict (now + ms_per_day) old)
                  = BlockedIps.intentos_fallidos old + 1 /\
                  BlockedIps.veces_bloqueado (BlockedIps.on_conflict (now + ms_per_day) old)
                  = BlockedIps.veces_bloqueado old + 1 /\
                  BlockedIps.tipo_bloqueo (BlockedIps.on_conflict (now + ms_per_day) old)
                  = BlockedIps.tipo_bloqueo old).
Proof.
  intros H0 H1 H2 Htype Hsev Hendpoint Hmethod Huniq count before after.
  assert (Hafter : after = if count >=? 5
                           then if has_row ip before
                                then reblocked ip (now + ms_per_day) before
                                else (before ++ [first_block ip now count])%list
                           else before).
  { subst after before count. now apply logAttackAttempt_registry. }
  clearbody after. subst after.
  split; [| split; [| split]].
  - destruct (count >=? 5); [| exact Huniq].
    destruct (has_row ip before) eqn:Hrow.
    + now rewrite reblocked_addresses.
    + unfold addresses. rewrite map_app. cbn.
      apply NoDup_app; [exact Huniq | repeat constructor; intros [] | ].
      intros a Ha [Hb | []]. subst a. now apply (has_row_false ip before Hrow).
  - intros Hlt. assert (Hc : (count >=? 5) = false) by (rewrite Z.geb_leb; apply Z.leb_gt; lia).
    now rewrite Hc.
  - intros Hge Hrow. assert (Hc : (count >=? 5) = true) by (apply Z.geb_le; lia).
    now rewrite Hc, Hrow.
  - intros Hge Hrow. assert (Hc : (count >=? 5) = true) by (apply Z.geb_le; lia).
    rewrite Hc, Hrow. split; [reflexivity |]. split.
    + unfold reblocked. apply length_map.
    + destruct (has_row_true ip before Hrow) as [old [Hin Hip]].
      exists old. split; [exact Hin |]. split; [exact Hip |].
      split; [now apply reblocked_In |]. repeat split.
Qed.

(** *** Issuance and authentication *)

Variable jwt_verify : string -> option Z.







End Properties.

(** * Further properties of the handlers *)

(** ** Lists *)

Lemma Forall2_In_l {A B} (P : A -> B -> Prop) l l' a :
  Forall2 P l l' -> In a l -> exists b, In b l' /\ P a b.
Proof.
  induction 1 as [|x y l l' Hxy _ IH]; cbn; [contradiction |].
  intros [<- | Ha]; [eauto |]. destruct (IH Ha) as [b [Hb Hab]]. eauto.
Qed.

Lemma Forall2_In_r {A B} (P : A -> B -> Prop) l l' b :
  Forall2 P l l' -> In b l' -> exists a, In a l /\ P a b.
Proof.
  induction 1 as [|x y l l' Hxy _ IH]; cbn; [contradiction |].
  intros [<- | Hb]; [eauto |]. destruct (IH Hb) as [a [Ha Hab]]. eauto.
Qed.

Lemma filter_nil_iff {A} (f : A -> bool) l :
  filter f l = [] <-> forall a, In a l -> f a = false.
Proof.
  induction l as [|x l IH]; cbn; [tauto |].
  destruct (f x) eqn:Hx; split.
  - discriminate.
  - intros H. specialize (H x (or_introl eq_refl)). congruence.
  - intros Hl a [<- | Ha]; [exact Hx | now apply IH].
  - intros H. apply IH. auto.
Qed.

Lemma NoDup_map_eq {A B} (f : A -> B) l a b :
  NoDup (map f l) -> In a l -> In b l -> f a = f b -> a = b.
Proof.
  induction l as [|x l IH]; cbn; intros Hnd Ha Hb Heq; [contradiction |].
  inversion Hnd as [|? ? Hx Hl]; subst.
  destruct Ha as [<- | Ha], Hb as [<- | Hb]; auto.
  - exfalso. apply Hx. rewrite Heq. now apply in_map.
  - exfalso. apply Hx. rewrite <- Heq. now apply in_map.
Qed.

Lemma nonempty_In {A} (l : list A) :
  match l with [] => false | _ :: _ => true end = true <-> exists x, In x l.
Proof.
  destruct l as [|a l]; cbn; split; try discriminate; eauto.
  intros [x []].
Qed.

(** An UPDATE ... RETURNING answers with no row exactly when no row meets
    its WHERE clause. *)
Lemma returning_rows {A B} (f : A -> B) (hit : A -> bool) l :
  match map f (filter hit l) with [] => false | _ :: _ => true end = existsb hit l.
Proof.
  induction l as [|a l IH]; [reflexivity |]. cbn. destruct (hit a); [reflexivity | exact IH].
Qed.

Lemma string_app_nil s : s ++ "" = s.
Proof.
  induction s as [|x s IH]; [reflexivity |].
  change (String x s ++ "") with (String x (s ++ "")). now rewrite IH.
Qed.

Lemma string_app_assoc a b c : (a ++ b) ++ c = a ++ b ++ c.
Proof.
  induction a as [|x a IH]; [reflexivity |].
  change ((String x a ++ b) ++ c) with (String x ((a ++ b) ++ c)).
  change (String x a ++ b ++ c) with (String x (a ++ b ++ c)).
  now rewrite IH.
Qed.

(** ** Relations every step keeps *)

Section Keeps.

Variable R : Store -> Store -> Prop.
Hypothesis R_refl : forall s, R s s.
Hypothesis R_trans : forall s1 s2 s3, R s1 s2 -> R s2 s3 -> R s1 s3.

Lemma keeps_ret {A} (a : A) : keeps R (ret a).
Proof. intros w. split; [apply R_refl | reflexivity]. Qed.

Lemma keeps_throw {A} e : keeps R (@throw A e).
Proof. intros w. split; [apply R_refl | reflexivity]. Qed.

Lemma keeps_console_error msg : keeps R (console_error msg).
Proof. intros w. split; [apply R_refl | reflexivity]. Qed.

Lemma keeps_bind {A B} (m : M A) (k : A -> M B) :
  keeps R m -> (forall a, keeps R (k a)) -> keeps R (bind m k).
Proof.
  intros Hm Hk w. unfold bind, world_of. specialize (Hm w). unfold world_of in Hm.
  destruct (m w) as [[a|e] w1]; cbn in *; [| exact Hm].
  destruct Hm as [Hm Hf]. specialize (Hk a w1). unfold world_of in Hk.
  destruct Hk as [Hk Hf']. split; [eapply R_trans; eassumption | congruence].
Qed.

Lemma keeps_try_catch {A} (m : M A) (h : Error -> M A) :
  keeps R m -> (forall e, keeps R (h e)) -> keeps R (try_catch m h).
Proof.
  intros Hm Hk w. unfold try_catch, world_of. specialize (Hm w). unfold world_of in Hm.
  destruct (m w) as [[a|e] w1]; cbn in *; [exact Hm |].
  destruct Hm as [Hm Hf]. specialize (Hk e w1). unfold world_of in Hk.
  destruct Hk as [Hk Hf']. split; [eapply R_trans; eassumption | congruence].
Qed.

Lemma keeps_pool_query {A} (stmt : Store -> Outcome A * Store) :
  (forall s, R s (snd (stmt s))) -> keeps R (pool_query stmt).
Proof.
  intros Hs w. unfold pool_query, world_of.
  destruct (faults w (tick w)); cbn; [split; [apply R_refl | reflexivity] |].
  specialize (Hs (db w)). destruct (stmt (db w)) as [r s]. cbn in *.
  split; [exact Hs | reflexivity].
Qed.

Lemma keeps_select {A} (rows : Store -> list A) : keeps R (pool_query (select rows)).
Proof. apply keeps_pool_query. intros s. apply R_refl. Qed.

(** Requests served one after the other keep what each of them keeps. *)
Lemma keeps_serve {A} (handlers : list (M A)) :
  Forall (keeps R) handlers ->
  forall w, R (db w) (db (snd (serve handlers w))) /\
            faults (snd (serve handlers w)) = faults w.
Proof.
  induction 1 as [|h hs Hh _ IH]; intros w; cbn [serve].
  - split; [apply R_refl | reflexivity].
  - specialize (Hh w). unfold world_of in Hh. destruct (h w) as [r w1]. cbn [snd] in Hh.
    specialize (IH w1). destruct (serve hs w1) as [rs w2]. cbn [snd] in *.
    destruct Hh as [Hh Hf], IH as [IH Hf'].
    split; [eapply R_trans; eassumption | congruence].
Qed.

End Keeps.

(** Walks a handler statement by statement; what is left is what each SQL
    statement does to the store. *)
Ltac frame Hr Ht :=
  repeat match goal with
  | |- keeps _ (ret _) => apply (keeps_ret _ Hr)
  | |- keeps _ (throw _) => apply (keeps_throw _ Hr)
  | |- keeps _ (console_error _) => apply (keeps_console_error _ Hr)
  | |- keeps _ (bind _ _) => apply (keeps_bind _ Ht); [| intros ?]
  | |- keeps _ (try_catch _ _) => apply (keeps_try_catch _ Ht); [| intros ?]
  | |- keeps _ (pool_query (select _)) => apply (keeps_select _ Hr)
  | |- keeps _ (pool_query _) => apply (keeps_pool_query _ Hr); intros ?
  | |- keeps _ (axios_post _) => unfold axios_post
  | |- keeps _ (api_time_text _) => unfold api_time_text
  | |- keeps _ (object_toString _ _) => unfold object_toString
  | |- keeps _ (match ?x with _ => _ end) => destruct x eqn:?
  | |- keeps _ (let _ := _ in _) => cbv zeta
  end.

(** A statement that fails or succeeds, branch by branch. *)
Ltac statement :=
  unfold insert_security_event, insert_attack_attempt, count_recent_attacks,
    upsert_blocked_ip, insert_requests_log, insert_api_token, update_token,
    update_estado_of_owner, sql_error;
  repeat match goal with
         | |- context [match ?c with _ => _ end] => destruct c eqn:?
         end;
  cbn [snd].

(** ** The life of a token row *)

Lemma row_evolves_refl t : row_evolves t t.
Proof. unfold row_evolves. repeat split; auto; lia. Qed.

Lemma row_evolves_trans t1 t2 t3 :
  row_evolves t1 t2 -> row_evolves t2 t3 -> row_evolves t1 t3.
Proof.
  unfold row_evolves.
  intros [A1 [A2 [A3 [A4 [A5 [A6 [A7 A8]]]]]]] [B1 [B2 [B3 [B4 [B5 [B6 [B7 B8]]]]]]].
  repeat split; try congruence; try lia.
  destruct B6 as [B6 | B6]; [rewrite B6; exact A6 | auto].
Qed.

Lemma Forall2_row_evolves_refl l : Forall2 row_evolves l l.
Proof. induction l; constructor; auto using row_evolves_refl. Qed.

Lemma Forall2_row_evolves_trans l1 : forall l2 l3,
  Forall2 row_evolves l1 l2 -> Forall2 row_evolves l2 l3 -> Forall2 row_evolves l1 l3.
Proof.
  induction l1 as [|t l1 IH]; intros l2 l3 H12 H23; inversion H12; subst;
    inversion H23; subst; constructor; eauto using row_evolves_trans.
Qed.

Lemma tokens_evolve_refl s : tokens_evolve s s.
Proof.
  exists (api_tokens s), []. rewrite app_nil_r.
  split; [reflexivity |]. split; [apply Forall2_row_evolves_refl | constructor].
Qed.

Lemma fresh_for_before l l' n :
  Forall2 row_evolves l l' -> fresh_for l' n -> fresh_for l n.
Proof.
  unfold fresh_for. induction 1 as [|t t' l l' Ht _ IH]; intros Hn; [constructor |].
  inversion Hn as [|? ? [Hid Hh] Hrest]; subst.
  destruct Ht as [Eid [_ [Eh _]]]. rewrite Eid, Eh in *. constructor; auto.
Qed.

Lemma fresh_for_after l n n' : row_evolves n n' -> fresh_for l n -> fresh_for l n'.
Proof.
  unfold fresh_for. intros [Eid [_ [Eh _]]] Hn. rewrite Eid, Eh. exact Hn.
Qed.

Lemma tokens_evolve_trans s1 s2 s3 :
  tokens_evolve s1 s2 -> tokens_evolve s2 s3 -> tokens_evolve s1 s3.
Proof.
  intros [o1 [n1 [E1 [F1 G1]]]] [o2 [n2 [E2 [F2 G2]]]].
  rewrite E1 in F2. apply Forall2_app_inv_l in F2.
  destruct F2 as [o2a [o2b [Fa [Fb ->]]]].
  exists o2a, (o2b ++ n2)%list. rewrite E2, app_assoc. split; [reflexivity |].
  split; [eapply Forall2_row_evolves_trans; eassumption |].
  apply Forall_app. split.
  - clear - Fb G1. induction Fb as [|n n' l l' Hn _ IH]; [constructor |].
    inversion G1; subst. constructor; [| now apply IH].
    eapply fresh_for_after; eassumption.
  - rewrite Forall_forall in *. intros n Hn. specialize (G2 n Hn).
    rewrite E1 in G2. apply Forall_app in G2. destruct G2 as [G2 _].
    eapply fresh_for_before; eassumption.
Qed.

Lemma tokens_evolve_same s s' : api_tokens s' = api_tokens s -> tokens_evolve s s'.
Proof.
  intros E. exists (api_tokens s), []. rewrite app_nil_r.
  split; [exact E |]. split; [apply Forall2_row_evolves_refl | constructor].
Qed.

Lemma tokens_evolve_map s (c : ApiTokens.row -> bool) f :
  (forall t, row_evolves t (f t)) ->
  tokens_evolve s (set_api_tokens (map (fun t => if c t then f t else t) (api_tokens s)) s).
Proof.
  intros Hf. exists (map (fun t => if c t then f t else t) (api_tokens s)), [].
  rewrite app_nil_r. split; [reflexivity |]. split; [| constructor].
  induction (api_tokens s) as [|t l IH]; cbn; constructor; [| exact IH].
  destruct (c t); [apply Hf | apply row_evolves_refl].
Qed.

Lemma row_evolves_set_estado e t :
  e = "expirado" \/ e = "revocado" -> row_evolves t (ApiTokens.set_estado e t).
Proof. intros He. unfold row_evolves. cbn. repeat split; try tauto; lia. Qed.

Lemma row_evolves_set_last_use now a b t : row_evolves t (ApiTokens.set_last_use now a b t).
Proof. unfold row_evolves. cbn. repeat split; auto; lia. Qed.

Lemma row_evolves_charge now t : row_evolves t (ApiTokens.charge now t).
Proof. unfold row_evolves. cbn. repeat split; auto; lia. Qed.

Lemma next_id_above ids : Forall (fun i => i < next_id ids) ids.
Proof.
  unfold next_id. induction ids as [|i ids IH]; constructor; cbn [fold_right].
  - lia.
  - eapply Forall_impl; [| exact IH]. cbn beta. intros; lia.
Qed.

Lemma insert_api_token_fresh l owner h nombre descripcion limite :
  existsb (fun t => String.eqb (ApiTokens.token_hash t) h) l = false ->
  fresh_for l (ApiTokens.mk (next_id (map ApiTokens.id l)) owner h nombre descripcion limite
                 0 "activo" None None None None 0).
Proof.
  intros Hdup. unfold fresh_for. cbn [ApiTokens.id ApiTokens.token_hash].
  apply Forall_forall. intros t Ht. split.
  - pose proof (next_id_above (map ApiTokens.id l)) as Habove.
    rewrite Forall_forall in Habove. apply Habove. now apply in_map.
  - intros Heq. apply String.eqb_eq in Heq.
    assert (Hex : existsb (fun t => String.eqb (ApiTokens.token_hash t) h) l = true)
      by (apply existsb_exists; eauto).
    congruence.
Qed.

(** ** The expression engine *)

Lemma In_union x l : forall acc, In x (Re.union l acc) <-> In x l \/ In x acc.
Proof.
  induction l as [|n l IH]; intros acc; cbn [Re.union]; [cbn; tauto |].
  destruct (Re.mem n acc) eqn:Hmem; rewrite IH.
  - cbn. split; [tauto |]. intros [[<- | Hl] | Hacc]; auto.
    right. unfold Re.mem in Hmem. apply existsb_exists in Hmem.
    destruct Hmem as [y [Hy Heq]]. apply Nat.eqb_eq in Heq. now subst.
  - rewrite in_app_iff. cbn. tauto.
Qed.






(** ** The token lookup *)


Section Further.

Variable sha256_hex : string -> string.
Variable jwt_verify : string -> option Z.
Variable pg_integer : string -> option Z.
Variable pg_decimal_6_3 : string -> bool.

Ltac evolve := frame tokens_evolve_refl tokens_evolve_trans.

Ltac same_tokens := apply tokens_evolve_same; reflexivity.

Lemma logSecurityEvent_evolves now ip userId eventType severity endpoint payload :
  keeps tokens_evolve (logSecurityEvent now ip userId eventType severity endpoint payload).
Proof. unfold logSecurityEvent. evolve. statement; same_tokens. Qed.

Lemma validateAPIToken_evolves now req :
  keeps tokens_evolve (validateAPIToken sha256_hex now req).
Proof.
  unfold validateAPIToken, validateAPIToken_try. evolve;
    try apply logSecurityEvent_evolves; statement;
    apply tokens_evolve_map; intros;
    auto using row_evolves_set_estado, row_evolves_set_last_use.
Qed.

Lemma logAttackAttempt_evolves now ip userId attackType severity payload endpoint method :
  keeps tokens_evolve (logAttackAttempt sha256_hex now ip userId attackType severity payload
                         endpoint method).
Proof. unfold logAttackAttempt. evolve; statement; same_tokens. Qed.

Lemma detectAttacks_evolves now req : keeps tokens_evolve (detectAttacks sha256_hex now req).
Proof. unfold detectAttacks. evolve. apply logAttackAttempt_evolves. Qed.

Lemma checkBlockedIP_evolves now req : keeps tokens_evolve (checkBlockedIP now req).
Proof. unfold checkBlockedIP. evolve. Qed.

Lemma authenticateToken_evolves req : keeps tokens_evolve (authenticateToken jwt_verify req).
Proof. unfold authenticateToken. evolve. Qed.

Lemma post_tokens_generate_evolves now random req :
  keeps tokens_evolve (post_tokens_generate sha256_hex jwt_verify now random req).
Proof.
  unfold post_tokens_generate, tokens_generate. evolve; try apply authenticateToken_evolves.
  statement; [same_tokens |].
  eexists (api_tokens _), [_]. split; [reflexivity |].
  split; [apply Forall2_row_evolves_refl |]. constructor; [| constructor].
  apply insert_api_token_fresh. assumption.
Qed.

Lemma delete_tokens_evolves req :
  keeps tokens_evolve (delete_tokens jwt_verify pg_integer req).
Proof.
  unfold delete_tokens, tokens_delete. evolve; try apply authenticateToken_evolves.
  statement; try same_tokens.
  apply tokens_evolve_map. intros. apply row_evolves_set_estado. now right.
Qed.

Lemma public_consultar_evolves now python req :
  keeps tokens_evolve (public_consultar sha256_hex pg_decimal_6_3 now python req).
Proof.
  unfold public_consultar, public_consultar_try. evolve; statement; try same_tokens.
  apply tokens_evolve_map. intros. apply row_evolves_charge.
Qed.

Lemma post_api_consultar_evolves python req :
  keeps tokens_evolve (post_api_consultar jwt_verify python req).
Proof.
  unfold post_api_consultar, api_consultar. evolve; try apply authenticateToken_evolves.
Qed.

Lemma served_evolves h :
  served sha256_hex jwt_verify pg_integer pg_decimal_6_3 h -> keeps tokens_evolve h.
Proof.
  induction 1 as [| | | | | | |now handler req _ IH].
  - apply checkBlockedIP_evolves.
  - apply detectAttacks_evolves.
  - apply validateAPIToken_evolves.
  - apply post_tokens_generate_evolves.
  - apply delete_tokens_evolves.
  - apply post_api_consultar_evolves.
  - apply public_consultar_evolves.
  - unfold through_middlewares. evolve;
      auto using checkBlockedIP_evolves, detectAttacks_evolves.
Qed.

Lemma serve_evolves hs w :
  Forall (served sha256_hex jwt_verify pg_integer pg_decimal_6_3) hs ->
  tokens_evolve (db w) (db (snd (serve hs w))) /\ faults (snd (serve hs w)) = faults w.
Proof.
  intros Hhs.
  apply (keeps_serve tokens_evolve tokens_evolve_refl tokens_evolve_trans).
  eapply Forall_impl; [| exact Hhs]. apply served_evolves.
Qed.

(** ** What no request writes *)

Lemma same_accounts_refl s : same_accounts s s.
Proof. repeat split. Qed.

Lemma same_accounts_trans s1 s2 s3 :
  same_accounts s1 s2 -> same_accounts s2 s3 -> same_accounts s1 s3.
Proof. unfold same_accounts. intros [A1 [A2 A3]] [B1 [B2 B3]]. repeat split; congruence. Qed.

Ltac accounts :=
  frame same_accounts_refl same_accounts_trans;
  try (statement; repeat split; reflexivity).

Lemma logSecurityEvent_accounts now ip userId eventType severity endpoint payload :
  keeps same_accounts (logSecurityEvent now ip userId eventType severity endpoint payload).
Proof. unfold logSecurityEvent. accounts. Qed.

Lemma authenticateToken_accounts req : keeps same_accounts (authenticateToken jwt_verify req).
Proof. unfold authenticateToken. accounts. Qed.

Lemma detectAttacks_accounts now req : keeps same_accounts (detectAttacks sha256_hex now req).
Proof. unfold detectAttacks, logAttackAttempt. accounts. Qed.

Lemma public_consultar_accounts now python req :
  keeps same_accounts (public_consultar sha256_hex pg_decimal_6_3 now python req).
Proof. unfold public_consultar, public_consultar_try. accounts. Qed.

Lemma served_accounts h :
  served sha256_hex jwt_verify pg_integer pg_decimal_6_3 h -> keeps same_accounts h.
Proof.
  induction 1 as [| | | | | | |now handler req _ IH].
  - unfold checkBlockedIP. accounts.
  - apply detectAttacks_accounts.
  - unfold validateAPIToken, validateAPIToken_try. accounts;
      apply logSecurityEvent_accounts.
  - unfold post_tokens_generate, tokens_generate. accounts; apply authenticateToken_accounts.
  - unfold delete_tokens, tokens_delete. accounts; apply authenticateToken_accounts.
  - unfold post_api_consultar, api_consultar. accounts; apply authenticateToken_accounts.
  - apply public_consultar_accounts.
  - unfold through_middlewares, checkBlockedIP, detectAttacks, logAttackAttempt.
    accounts. apply IH.
Qed.

(** X1: no request writes the daily counters.  Whatever requests the
    middlewares and routes serve, the users and the [limits_usage] rows are
    what they were; so the usage that the quota check of [validateAPIToken]
    reads for an owner and a day is the same after as before. *)
Theorem usage_counter_is_never_written hs w :
  Forall (served sha256_hex jwt_verify pg_integer pg_decimal_6_3) hs ->
  usuarios (db (snd (serve hs w))) = usuarios (db w) /\
  limits_usage (db (snd (serve hs w))) = limits_usage (db w) /\
  forall owner now,
    usage_today (db (snd (serve hs w))) owner now = usage_today (db w) owner now.
Proof.
  intros Hhs.
  destruct (keeps_serve same_accounts same_accounts_refl same_accounts_trans hs
              (Forall_impl _ served_accounts Hhs) w) as [[Hu [Hl _]] _].
  split; [exact Hu |]. split; [exact Hl |].
  intros owner now. unfold usage_today, usage_rows. now rewrite Hl.
Qed.

(** ** Who is admitted *)

(** Steps over one audit write. *)
Ltac audit :=
  match goal with
  | |- context [logSecurityEvent ?a ?b ?c ?d ?e ?f ?g ?w] =>
      let w' := fresh "w'" in
      let E := fresh "Hlog" in
      destruct (logSecurityEvent_effect a b c d e f g w) as [w' [E _]];
      rewrite E; cbn
  end.

(** The only way through [validateAPIToken]. *)
Lemma validateAPIToken_next_inv now req w req' :
  reply_of (validateAPIToken sha256_hex now req w) = Ok (Next req') ->
  exists k t u rest,
    x_api_key req = Some k /\ k <> EmptyString /\
    active_token_rows (sha256_hex k) (db w) = (t, u) :: rest /\
    expired now t = false /\
    usage_today (db w) (ApiTokens.usuario_id t) now < ApiTokens.limite_requests_diario t /\
    user req' = Some (mkUser (ApiTokens.usuario_id t) (Usuarios.rol u)) /\
    apiToken req' = Some (t, u).
Proof.
  unfold validateAPIToken, reply_of.
  destruct (x_api_key req) as [[|c k]|] eqn:Hkey; cbn [falsy].
  - unfold bind, ret. audit. discriminate.
  - unfold validateAPIToken_try, try_catch, bind, ret, pool_query, select, update_token,
      console_error.
    cbn.
    destruct (faults w (tick w)); cbn; [audit; discriminate |].
    destruct (active_token_rows (sha256_hex (String c k)) (db w)) as [|[t u] rest] eqn:Hrows;
      cbn; [audit; discriminate |].
    destruct (expired now t) eqn:Hexp; cbn.
    { destruct (faults w (S (tick w))); cbn; audit; discriminate. }
    destruct (faults w (S (tick w))); cbn; [audit; discriminate |].
    destruct (_ >=? _) eqn:Hq; cbn; [audit; discriminate |].
    destruct (faults w (S (S (tick w)))); cbn; [audit; discriminate |].
    intros Hreply. injection Hreply as <-.
    exists (String c k), t, u, rest. repeat split; try assumption; try discriminate.
    unfold usage_today. rewrite Z.geb_leb in Hq. now apply Z.leb_gt in Hq.
  - unfold bind, ret. audit. discriminate.
Qed.

(** X2: [validateAPIToken] hands a request on only for a credential that is
    valid at that instant: the header carries a key whose digest is that of
    a token of the store in state activo, owned by a user of the store in
    state activo, not past its expiry, the owner's recorded usage of the day
    below the token's ceiling; and the identity attached to the request is
    that token's owner and the owner's role. *)
Theorem validateAPIToken_admits_only_valid now req w req' :
  reply_of (validateAPIToken sha256_hex now req w) = Ok (Next req') ->
  exists k t u,
    x_api_key req = Some k /\ k <> EmptyString /\
    In t (api_tokens (db w)) /\ In u (usuarios (db w)) /\
    ApiTokens.usuario_id t = Usuarios.id u /\
    ApiTokens.token_hash t = sha256_hex k /\
    ApiTokens.estado t = "activo" /\ Usuarios.estado u = "activo" /\
    expired now t = false /\
    usage_today (db w) (ApiTokens.usuario_id t) now < ApiTokens.limite_requests_diario t /\
    user req' = Some (mkUser (ApiTokens.usuario_id t) (Usuarios.rol u)) /\
    apiToken req' = Some (t, u).
Proof.
  intros Hnext. apply validateAPIToken_next_inv in Hnext.
  destruct Hnext as [k [t [u [rest [Hkey [Hk [Hrows [Hexp [Hq [Huser Htok]]]]]]]]]].
  assert (Hin : In (t, u) (active_token_rows (sha256_hex k) (db w)))
    by (rewrite Hrows; now left).
  apply active_token_rows_In in Hin. destruct Hin as [Ht [Hu [Hid [Hh [He Hue]]]]].
  exists k, t, u. repeat split; assumption.
Qed.

(** An audit write touches the table of events only. *)
Lemma logSecurityEvent_frame now ip userId eventType severity endpoint payload w :
  exists w',
    logSecurityEvent now ip userId eventType severity endpoint payload w = (Ok tt, w') /\
    usuarios (db w') = usuarios (db w) /\
    api_tokens (db w') = api_tokens (db w) /\
    faults w' = faults w.
Proof.
  unfold logSecurityEvent, try_catch, pool_query, insert_security_event, console_error,
    sql_error.
  run; eexists; repeat split.
Qed.

(** Setting rows to a state other than activo takes them, and nothing else,
    out of what the token lookup finds. *)
Lemma active_token_rows_after_deactivate h s s' (hit : ApiTokens.row -> bool) e :
  e <> "activo" ->
  api_tokens s' = map (fun t => if hit t then ApiTokens.set_estado e t else t) (api_tokens s) ->
  usuarios s' = usuarios s ->
  active_token_rows h s' = filter (fun tu => negb (hit (fst tu))) (active_token_rows h s).
Proof.
  intros He Ht Hu. unfold active_token_rows. rewrite Ht, Hu.
  assert (Hne : String.eqb e "activo" = false) by now apply String.eqb_neq.
  generalize (api_tokens s) as l. induction l as [|t l IH]; [reflexivity |].
  cbn [map flat_map]. rewrite !filter_app, IH. f_equal.
  destruct (hit t) eqn:Hhit; cbn [ApiTokens.usuario_id ApiTokens.set_estado];
    induction (filter (fun u => ApiTokens.usuario_id t =? Usuarios.id u) (usuarios s))
      as [|u us IHu]; try reflexivity;
    cbn [map filter fst snd ApiTokens.token_hash ApiTokens.estado ApiTokens.set_estado].
  - rewrite Hne, andb_false_r. cbn [andb].
    destruct (_ && _ && _); cbn [filter fst]; rewrite ?Hhit; cbn [negb]; exact IHu.
  - destruct (_ && _ && _); cbn [filter fst]; rewrite ?Hhit; cbn [negb];
      [f_equal |]; exact IHu.
Qed.

(** The world a request leaves that found its token expired. *)
Lemma validateAPIToken_expired_world now req w k t u rest :
  healthy w ->
  x_api_key req = Some k -> falsy (Some k) = false ->
  active_token_rows (sha256_hex k) (db w) = (t, u) :: rest ->
  expired now t = true ->
  exists w',
    validateAPIToken sha256_hex now req w = (Ok expired_reply, w') /\
    api_tokens (db w')
    = map (fun t' => if ApiTokens.id t' =? ApiTokens.id t
                     then ApiTokens.set_estado "expirado" t' else t') (api_tokens (db w)) /\
    usuarios (db w') = usuarios (db w) /\
    faults w' = faults w.
Proof.
  intros Hup Hkey Hpresent Hrows Hexp.
  unfold validateAPIToken, validateAPIToken_try.
  rewrite Hkey, Hpresent.
  unfold try_catch, bind, ret, pool_query, select, update_token.
  rewrite Hup, Hrows. cbn. rewrite Hexp. cbn. rewrite Hup. cbn.
  match goal with
  | |- context [logSecurityEvent ?a ?b ?c ?d ?e ?f ?g ?w0] =>
      destruct (logSecurityEvent_frame a b c d e f g w0) as [w' [Hlog [Hu [Ht Hf]]]]
  end.
  rewrite Hlog. cbn. exists w'. repeat split; assumption.
Qed.

(** ** Lifecycle *)

(** X4: however many requests the middlewares and routes serve, and
    whatever faults the store has, the token table only grows and its rows
    only evolve: the row at each position keeps its id, owner, digest,
    ceiling and expiry, its state is what it was or has become expirado or
    revocado (a row that is not activo never becomes activo), and its
    counters have not fallen. *)
Theorem token_rows_only_evolve hs w n t :
  Forall (served sha256_hex jwt_verify pg_integer pg_decimal_6_3) hs ->
  nth_error (api_tokens (db w)) n = Some t ->
  exists t',
    nth_error (api_tokens (db (snd (serve hs w)))) n = Some t' /\
    row_evolves t t' /\
    (ApiTokens.estado t <> "activo" -> ApiTokens.estado t' <> "activo").
Proof.
  intros Hhs Hn.
  destruct (serve_evolves hs w Hhs) as [[olds [news [E [F _]]]] _].
  rewrite E. clear E. revert n Hn.
  induction F as [|a a' l l' Ha _ IH]; intros n Hn; [destruct n; discriminate |].
  destruct n as [|n]; cbn in *.
  - injection Hn as ->. exists a'. split; [reflexivity |]. split; [exact Ha |].
    destruct Ha as [_ [_ [_ [_ [_ [[He | [He | He]] _]]]]]]; rewrite He; auto; discriminate.
  - apply IH. exact Hn.
Qed.

(** ** The audit trail of [validateAPIToken] *)

(** X5: what [validateAPIToken] leaves in the table of events, the store
    answering and the table being the one of init.sql.  A request handed on
    leaves no event.  A request answered 401 or 429 whose path fits the
    column of 50 characters leaves exactly one, with the address and the
    path of the request and the instant: type token_invalido for an absent
    or unknown key, token_expirado for an expired token, rate_limit_excedido
    for a used-up ceiling.  Of the key presented the event holds at most the
    first ten characters, followed by three dots.  A request whose path is
    longer is answered the same and leaves no event.  No other answer is
    given. *)
Theorem validateAPIToken_audit_trail now req w :
  healthy w ->
  security_events_table (db w) = SecurityEvents.init_sql ->
  let before := security_events (db w) in
  let after := security_events (db (world_of (validateAPIToken sha256_hex now req w))) in
  (exists req',
     reply_of (validateAPIToken sha256_hex now req w) = Ok (Next req') /\ after = before) \/
  (exists status b e,
     reply_of (validateAPIToken sha256_hex now req w) = Ok (Respond status b) /\
     after = (if varchar 50 (path req) then before ++ [e] else before)%list /\
     SecurityEvents.ip_address e = ip req /\ SecurityEvents.timestamp e = now /\
     SecurityEvents.endpoint e = Some (path req) /\
     ((status = 401 /\ SecurityEvents.evento_tipo e = "token_invalido" /\
       (SecurityEvents.payload_sospechoso e = Some "Missing API token" \/
        exists k, x_api_key req = Some k /\
                  SecurityEvents.payload_sospechoso e = Some (Str.take 10 k ++ "..."))) \/
      (status = 401 /\ SecurityEvents.evento_tipo e = "token_expirado" /\
       SecurityEvents.payload_sospechoso e = None) \/
      (status = 429 /\ SecurityEvents.evento_tipo e = "rate_limit_excedido" /\
       SecurityEvents.payload_sospechoso e = None))).
Proof.
  intros Hup Htable before after. subst before after.
  unfold validateAPIToken, validateAPIToken_try, logSecurityEvent, try_catch, bind, ret,
    pool_query, select, update_token, insert_security_event, console_error, sql_error,
    reply_of, world_of, fits.
  destruct (x_api_key req) as [[|c k]|] eqn:Hkey; cbn [falsy].
  - rewrite Hup. cbn. rewrite Htable. cbn.
    right. eexists _, _, _. split; [destruct (varchar 50 (path req)); reflexivity |].
    split; [destruct (varchar 50 (path req)); reflexivity |].
    split; [reflexivity |]. split; [reflexivity |]. split; [reflexivity |]. left. auto.
  - cbn. rewrite Hup. cbn.
    destruct (active_token_rows (sha256_hex (String c k)) (db w)) as [|[t u] rest]; cbn.
    + rewrite Hup. cbn. rewrite Htable. cbn.
      right. eexists _, _, _. split; [destruct (varchar 50 (path req)); reflexivity |].
      split; [destruct (varchar 50 (path req)); reflexivity |].
      split; [reflexivity |]. split; [reflexivity |]. split; [reflexivity |].
      left. eauto 7.
    + destruct (expired now t); cbn.
      * rewrite Hup. cbn. rewrite Hup. cbn. rewrite Htable. cbn.
        right. eexists _, _, _. split; [destruct (varchar 50 (path req)); reflexivity |].
        split; [destruct (varchar 50 (path req)); reflexivity |].
        split; [reflexivity |]. split; [reflexivity |]. split; [reflexivity |].
        right. left. auto.
      * rewrite Hup. cbn.
        destruct (_ >=? _); cbn.
        -- rewrite Hup. cbn. rewrite Htable. cbn.
           right. eexists _, _, _. split; [destruct (varchar 50 (path req)); reflexivity |].
           split; [destruct (varchar 50 (path req)); reflexivity |].
           split; [reflexivity |]. split; [reflexivity |]. split; [reflexivity |].
           right. right. auto.
        -- rewrite Hup. cbn. left. eexists. split; reflexivity.
  - rewrite Hup. cbn. rewrite Htable. cbn.
    right. eexists _, _, _. split; [destruct (varchar 50 (path req)); reflexivity |].
    split; [destruct (varchar 50 (path req)); reflexivity |].
    split; [reflexivity |]. split; [reflexivity |]. split; [reflexivity |]. left. auto.
Qed.

(** ** Revocation *)

(** What DELETE /tokens/:id does when the store answers and the parameter
    reads as an integer. *)
Lemma tokens_delete_run req w u text i :
  user req = Some u -> param "id" req = Some text -> pg_integer text = Some i ->
  faults w (tick w) = false ->
  let hit := fun t => (ApiTokens.id t =? i) && (ApiTokens.usuario_id t =? user_id u) in
  tokens_delete pg_integer req w
  = (Ok (if existsb hit (api_tokens (db w))
         then Respond 200 (JObj [("message", JStr "Token revocado exitosamente")])
         else Respond 404 (error_body "Token no encontrado")),
     mkWorld
       (set_api_tokens
          (map (fun t => if hit t then ApiTokens.set_estado "revocado" t else t)
             (api_tokens (db w))) (db w))
       (faults w) (S (tick w)) (console w)).
Proof.
  intros Hu Hid Hint Hup hit.
  unfold tokens_delete, try_catch, bind, ret, pool_query, update_estado_of_owner.
  rewrite Hu, Hid, Hint, Hup. cbn. fold hit.
  rewrite <- (returning_rows ApiTokens.id hit (api_tokens (db w))).
  destruct (map ApiTokens.id (filter hit (api_tokens (db w)))); reflexivity.
Qed.

(** No token under the digest [h] is active. *)
Lemma no_active_token h s :
  (forall r, In r (api_tokens s) -> ApiTokens.token_hash r = h ->
             ApiTokens.estado r <> "activo") ->
  active_token_rows h s = [].
Proof.
  intros Hnone. destruct (active_token_rows h s) as [|[t u] rest] eqn:Hrows; [reflexivity |].
  assert (Hin : In (t, u) (active_token_rows h s)) by (rewrite Hrows; now left).
  apply active_token_rows_In in Hin. destruct Hin as [Ht [_ [_ [Hh [He _]]]]].
  exfalso. exact (Hnone t Ht Hh He).
Qed.

(** A digest none of whose tokens is active stays so, whatever is served. *)
Lemma retired_digest_stays_retired h s s' r0 :
  tokens_evolve s s' ->
  In r0 (api_tokens s) -> ApiTokens.token_hash r0 = h ->
  (forall r, In r (api_tokens s) -> ApiTokens.token_hash r = h ->
             ApiTokens.estado r <> "activo") ->
  (exists r0', In r0' (api_tokens s') /\ ApiTokens.token_hash r0' = h) /\
  (forall r, In r (api_tokens s') -> ApiTokens.token_hash r = h ->
             ApiTokens.estado r <> "activo").
Proof.
  intros [olds [news [E [F G]]]] Hr0 Hh0 Hnone. rewrite E. split.
  - destruct (Forall2_In_l _ _ _ _ F Hr0) as [r0' [Hin [_ [_ [Hh _]]]]] .
    exists r0'. split; [apply in_or_app; now left | congruence].
  - intros r Hr Hh. apply in_app_or in Hr. destruct Hr as [Hr | Hr].
    + destruct (Forall2_In_r _ _ _ _ F Hr) as [r1 [Hin Hev]].
      destruct Hev as [_ [_ [Eh [_ [_ [He _]]]]]].
      assert (Hr1 : ApiTokens.estado r1 <> "activo") by (apply Hnone; congruence).
      destruct He as [He | [He | He]]; rewrite He; [exact Hr1 | discriminate ..].
    + rewrite Forall_forall in G. specialize (G r Hr). unfold fresh_for in G.
      rewrite Forall_forall in G. destruct (G r0 Hr0) as [_ Hne]. congruence.
Qed.

(** Under a digest with no active token the consult route refuses, for every
    downstream answer and every fault of the store, and charges nothing. *)
Lemma public_consultar_unknown now python req w k :
  param "token" req = Some k ->
  active_token_rows (sha256_hex k) (db w) = [] ->
  refused (reply_of (public_consultar sha256_hex pg_decimal_6_3 now python req w)) /\
  api_tokens (db (world_of (public_consultar sha256_hex pg_decimal_6_3 now python req w)))
  = api_tokens (db w).
Proof.
  intros Hparam Hrows.
  unfold public_consultar, public_consultar_try, try_catch, bind, ret, pool_query, select,
    insert_security_event, insert_requests_log, console_error, sql_error, axios_post,
    api_time_text,
    reply_of, world_of, refused.
  rewrite Hparam. cbn [or_empty].
  cbn; repeat (first [rewrite Hrows | branch]; cbn);
    (split; [eexists _, _; split; [reflexivity | cbn; auto 6] | reflexivity]).
Qed.

(** X3: the request that finds a token past its expiry retires it
    (digests being unique in the table, as init.sql has them).  The answer
    is 401 API token expirado, and the store holds a row under the digest
    of the secret whose state is expirado, as is that of every row under
    this digest.  After that, whatever requests the server has served in
    between, the store still holds a row under the digest, none of them
    active, and the same secret is answered as invalid or revoked, at
    whatever instant. *)
Theorem expired_token_is_retired now req w k t u rest hs :
  healthy w ->
  NoDup (map ApiTokens.token_hash (api_tokens (db w))) ->
  x_api_key req = Some k -> k <> EmptyString ->
  active_token_rows (sha256_hex k) (db w) = (t, u) :: rest ->
  expired now t = true ->
  Forall (served sha256_hex jwt_verify pg_integer pg_decimal_6_3) hs ->
  let w1 := world_of (validateAPIToken sha256_hex now req w) in
  let w2 := snd (serve hs w1) in
  reply_of (validateAPIToken sha256_hex now req w) = Ok expired_reply /\
  (exists t1, In t1 (api_tokens (db w1)) /\ ApiTokens.token_hash t1 = sha256_hex k) /\
  (forall t1, In t1 (api_tokens (db w1)) -> ApiTokens.token_hash t1 = sha256_hex k ->
              ApiTokens.estado t1 = "expirado") /\
  (exists t2, In t2 (api_tokens (db w2)) /\ ApiTokens.token_hash t2 = sha256_hex k) /\
  (forall t2, In t2 (api_tokens (db w2)) -> ApiTokens.token_hash t2 = sha256_hex k ->
              ApiTokens.estado t2 <> "activo") /\
  (forall now2 req2,
     x_api_key req2 = Some k ->
     reply_of (validateAPIToken sha256_hex now2 req2 w2) = Ok invalid_reply).
Proof.
  intros Hup Hnd Hkey Hk Hrows Hexp Hhs w1 w2.
  assert (Hpresent : falsy (Some k) = false) by (destruct k; [contradiction | reflexivity]).
  destruct (validateAPIToken_expired_world now req w k t u rest Hup Hkey Hpresent Hrows Hexp)
    as [w' [Hrun [Ht [Hu Hf]]]].
  assert (Hw1 : w1 = w') by (unfold w1, world_of; now rewrite Hrun).
  assert (Hin : In (t, u) (active_token_rows (sha256_hex k) (db w)))
    by (rewrite Hrows; now left).
  apply active_token_rows_In in Hin. destruct Hin as [Hint [_ [_ [Hh _]]]].
  assert (Hsome : In (ApiTokens.set_estado "expirado" t) (api_tokens (db w1))).
  { rewrite Hw1, Ht. apply in_map_iff. exists t. rewrite Z.eqb_refl. auto. }
  assert (Hall : forall t1, In t1 (api_tokens (db w1)) ->
                            ApiTokens.token_hash t1 = sha256_hex k ->
                            ApiTokens.estado t1 = "expirado").
  { intros t1 Hin1 Hh1. rewrite Hw1, Ht in Hin1. apply in_map_iff in Hin1.
    destruct Hin1 as [r [Heq Hr]].
    assert (Hsame : r = t).
    { apply (NoDup_map_eq ApiTokens.token_hash (api_tokens (db w))); auto.
      rewrite Hh, <- Hh1, <- Heq. destruct (_ =? _); reflexivity. }
    subst r. rewrite Z.eqb_refl in Heq. subst t1. reflexivity. }
  destruct (retired_digest_stays_retired (sha256_hex k) (db w1) (db w2)
              (ApiTokens.set_estado "expirado" t)) as [Hsome2 Hall2].
  { apply serve_evolves. exact Hhs. }
  { exact Hsome. }
  { exact Hh. }
  { intros r Hr Hhr. rewrite (Hall r Hr Hhr). discriminate. }
  split; [unfold reply_of; now rewrite Hrun |].
  split; [exists (ApiTokens.set_estado "expirado" t); split; [exact Hsome | exact Hh] |].
  split; [exact Hall |]. split; [exact Hsome2 |]. split; [exact Hall2 |].
  intros now2 req2 Hkey2.
  apply validateAPIToken_unknown with (k := k); auto.
  - intros j. unfold w2. rewrite (proj2 (serve_evolves hs w1 Hhs)), Hw1, Hf. apply Hup.
  - now apply no_active_token.
Qed.

(** X6: revocation is permanent.  The owner of a token revokes it with
    DELETE /tokens/:id (digests being unique in the table, as init.sql has
    them): the answer is 200, and after that, whatever requests the server
    has served in between and whatever faults the store has, a request
    carrying the token's secret is never handed on by [validateAPIToken],
    and on the consult route it is refused and charges nothing. *)
Theorem revoked_secret_is_refused req w u text t k hs :
  NoDup (map ApiTokens.token_hash (api_tokens (db w))) ->
  In t (api_tokens (db w)) ->
  user req = Some u -> ApiTokens.usuario_id t = user_id u ->
  param "id" req = Some text -> pg_integer text = Some (ApiTokens.id t) ->
  faults w (tick w) = false ->
  sha256_hex k = ApiTokens.token_hash t ->
  Forall (served sha256_hex jwt_verify pg_integer pg_decimal_6_3) hs ->
  let w2 := snd (serve hs (world_of (tokens_delete pg_integer req w))) in
  reply_of (tokens_delete pg_integer req w)
  = Ok (Respond 200 (JObj [("message", JStr "Token revocado exitosamente")])) /\
  (forall now req2,
     x_api_key req2 = Some k ->
     admitted (reply_of (validateAPIToken sha256_hex now req2 w2)) = false) /\
  (forall now python req2,
     param "token" req2 = Some k ->
     refused (reply_of (public_consultar sha256_hex pg_decimal_6_3 now python req2 w2)) /\
     api_tokens (db (world_of (public_consultar sha256_hex pg_decimal_6_3 now python req2 w2)))
     = api_tokens (db w2)).
Proof.
  intros Hnd Ht Hu Hown Hid Hint Hup Hk Hhs w2.
  pose proof (tokens_delete_run req w u text (ApiTokens.id t) Hu Hid Hint Hup) as Hrun.
  cbv zeta in Hrun.
  set (hit := fun t0 => (ApiTokens.id t0 =? ApiTokens.id t)
                        && (ApiTokens.usuario_id t0 =? user_id u)) in *.
  assert (Hhit : hit t = true).
  { unfold hit. now rewrite Hown, !Z.eqb_refl. }
  assert (Hex : existsb hit (api_tokens (db w)) = true)
    by (apply existsb_exists; eauto).
  rewrite Hex in Hrun.
  assert (Hnone : active_token_rows (sha256_hex k) (db w2) = []).
  { apply no_active_token.
    refine (proj2 (retired_digest_stays_retired (sha256_hex k)
                     (db (world_of (tokens_delete pg_integer req w))) (db w2)
                     (ApiTokens.set_estado "revocado" t) _ _ _ _)).
    - apply serve_evolves. exact Hhs.
    - unfold world_of. rewrite Hrun. cbn.
      apply in_map_iff. exists t. rewrite Hhit. auto.
    - cbn. now symmetry.
    - unfold world_of. rewrite Hrun. cbn. intros r Hr Hh.
      apply in_map_iff in Hr. destruct Hr as [r1 [Heq Hr1]].
      assert (Hsame : r1 = t).
      { apply (NoDup_map_eq ApiTokens.token_hash (api_tokens (db w))); auto.
        rewrite <- Hk, <- Hh, <- Heq. destruct (hit r1); reflexivity. }
      subst r1. rewrite Hhit in Heq. subst r. discriminate. }
  split; [unfold reply_of; now rewrite Hrun |]. split.
  - intros now req2 Hkey.
    destruct (reply_of (validateAPIToken sha256_hex now req2 w2)) as [[st b|req']|e] eqn:Hr;
      try reflexivity.
    apply validateAPIToken_next_inv in Hr.
    destruct Hr as [k' [t' [u' [rest [Hkey' [_ [Hrows _]]]]]]].
    congruence.
  - intros now python req2 Hparam.
    exact (public_consultar_unknown now python req2 w2 k Hparam Hnone).
Qed.

(** X7: DELETE /tokens/:id reaches the caller's own rows only.  Whatever the
    parameter and whatever the store does, the rows of other owners are
    left as they were; and an id that is not a token of the caller's
    (another owner's, or no token at all) is answered 404, the token table
    unchanged. *)
Theorem tokens_delete_reaches_own_rows_only req w u :
  user req = Some u ->
  (forall n r,
     nth_error (api_tokens (db w)) n = Some r ->
     ApiTokens.usuario_id r <> user_id u ->
     nth_error (api_tokens (db (world_of (tokens_delete pg_integer req w)))) n = Some r) /\
  (forall text i,
     param "id" req = Some text -> pg_integer text = Some i ->
     faults w (tick w) = false ->
     (forall r, In r (api_tokens (db w)) -> ApiTokens.id r = i ->
                ApiTokens.usuario_id r <> user_id u) ->
     reply_of (tokens_delete pg_integer req w)
     = Ok (Respond 404 (error_body "Token no encontrado")) /\
     api_tokens (db (world_of (tokens_delete pg_integer req w))) = api_tokens (db w)).
Proof.
  intros Hu. split.
  - intros n r Hn Hother.
    unfold tokens_delete, try_catch, bind, ret, pool_query, update_estado_of_owner,
      console_error, sql_error, world_of.
    rewrite Hu. cbn.
    destruct (faults w (tick w)); cbn; [exact Hn |].
    destruct (param "id" req) as [text|]; cbn; [| exact Hn].
    destruct (pg_integer text) as [i|]; cbn; [| exact Hn].
    match goal with
    | |- context [match ?x with [] => _ | _ :: _ => _ end] => destruct x
    end; cbn; rewrite nth_error_map, Hn; cbn;
      (replace (ApiTokens.usuario_id r =? user_id u) with false
         by (symmetry; now apply Z.eqb_neq));
      now rewrite andb_false_r.
  - intros text i Hid Hint Hup Hnone.
    pose proof (tokens_delete_run req w u text i Hu Hid Hint Hup) as Hrun.
    cbv zeta in Hrun.
    set (hit := fun t => (ApiTokens.id t =? i) && (ApiTokens.usuario_id t =? user_id u)) in *.
    assert (Hmiss : forall r, In r (api_tokens (db w)) -> hit r = false).
    { intros r Hr. unfold hit. destruct (Z.eqb_spec (ApiTokens.id r) i) as [Hi | Hi];
        [| reflexivity].
      cbn. apply Z.eqb_neq. now apply Hnone. }
    assert (Hex : existsb hit (api_tokens (db w)) = false).
    { destruct (existsb hit (api_tokens (db w))) eqn:He; [| reflexivity].
      apply existsb_exists in He. destruct He as [r [Hr Hhit]].
      rewrite (Hmiss r Hr) in Hhit. discriminate. }
    unfold reply_of, world_of. rewrite Hrun, Hex. cbn. split; [reflexivity |].
    rewrite <- (map_id (api_tokens (db w))) at 2.
    apply map_ext_in. intros r Hr. now rewrite (Hmiss r Hr).
Qed.

(** ** The routes behind the session token *)

Lemma eq_store_trans (s1 s2 s3 : Store) : s1 = s2 -> s2 = s3 -> s1 = s3.
Proof. congruence. Qed.

Ltac reads_only := frame (@eq_refl Store) eq_store_trans.

Lemma authenticateToken_reads_only req : keeps eq (authenticateToken jwt_verify req).
Proof. unfold authenticateToken. reads_only. Qed.

(** The only way through [authenticateToken]: the header carries a token
    that verifies, and its user is in the store, active. *)
Lemma authenticateToken_next_inv req w req' :
  reply_of (authenticateToken jwt_verify req w) = Ok (Next req') ->
  exists tok u,
    bearer (authorization req) = Some tok /\
    jwt_verify tok = Some (Usuarios.id u) /\
    In u (usuarios (db w)) /\ Usuarios.estado u = "activo" /\
    req' = with_user (mkUser (Usuarios.id u) (Usuarios.rol u)) req.
Proof.
  unfold authenticateToken, reply_of.
  destruct (bearer (authorization req)) as [[|c tok]|] eqn:Hb; cbn [falsy];
    try (cbn; discriminate).
  unfold try_catch, bind, ret, throw, pool_query, select, console_error.
  destruct (jwt_verify (String c tok)) as [userId|] eqn:Hjwt; cbn; [| discriminate].
  destruct (faults w (tick w)); cbn; [discriminate |].
  destruct (user_rows userId "activo" (db w)) as [|u rest] eqn:Hrows; cbn; [discriminate |].
  intros Hreply. injection Hreply as <-.
  assert (Hin : In u (user_rows userId "activo" (db w))) by (rewrite Hrows; now left).
  unfold user_rows in Hin. apply filter_In in Hin. destruct Hin as [Hin Hp].
  apply andb_true_iff in Hp. destruct Hp as [Hid He].
  apply Z.eqb_eq in Hid. apply String.eqb_eq in He.
  exists (String c tok), u. rewrite Hid. repeat split; assumption.
Qed.

(** What [authenticateToken] answers when it does not hand the request on. *)
Lemma authenticateToken_rejects req w :
  (exists req', reply_of (authenticateToken jwt_verify req w) = Ok (Next req')) \/
  (exists status b,
     reply_of (authenticateToken jwt_verify req w) = Ok (Respond status b) /\
     (status = 401 \/ status = 403)).
Proof.
  unfold authenticateToken, reply_of, try_catch, bind, ret, throw, pool_query, select,
    console_error.
  run; eauto 6.
Qed.

Lemma split_space_word a : forall cur,
  no_space a = true -> split_space a cur = [cur ++ a].
Proof.
  unfold no_space, Str.chars.
  induction a as [|c a IH]; intros cur Ha; cbn [split_space].
  - now rewrite string_app_nil.
  - cbn in Ha. apply andb_true_iff in Ha. destruct Ha as [Hc Ha].
    apply negb_true_iff in Hc. rewrite Hc, (IH _ Ha). f_equal.
    rewrite string_app_assoc. reflexivity.
Qed.

Lemma split_space_first a b : forall cur,
  no_space a = true ->
  split_space (a ++ " " ++ b) cur = (cur ++ a) :: split_space b EmptyString.
Proof.
  unfold no_space, Str.chars.
  induction a as [|c a IH]; intros cur Ha.
  - change ("" ++ " " ++ b) with (String " " b). cbn [split_space].
    replace (Ascii.eqb " " " ") with true by reflexivity.
    now rewrite string_app_nil.
  - change (String c a ++ " " ++ b) with (String c (a ++ " " ++ b)). cbn [split_space].
    cbn in Ha. apply andb_true_iff in Ha. destruct Ha as [Hc Ha].
    apply negb_true_iff in Hc. rewrite Hc, (IH _ Ha). f_equal.
    rewrite string_app_assoc. reflexivity.
Qed.

(** X8: [authenticateToken] reads the second word of the Authorization
    header and does not look at the first: a header of two words separated
    by one space yields the second as the session token, whatever the first
    is (Bearer or not); a header of one word, like an absent header, is
    answered 401 Token de acceso requerido before anything is verified or
    queried. *)
Theorem authenticateToken_reads_the_second_word :
  (forall scheme tok,
     no_space scheme = true -> no_space tok = true ->
     bearer (Some (scheme ++ " " ++ tok)) = Some tok) /\
  (forall req w,
     match authorization req with Some h => no_space h = true | None => True end ->
     authenticateToken jwt_verify req w
     = (Ok (Respond 401 (error_body "Token de acceso requerido")), w)).
Proof.
  split.
  - intros scheme tok Hs Ht. unfold bearer.
    destruct (scheme ++ " " ++ tok) eqn:Hh.
    + destruct scheme; discriminate Hh.
    + rewrite <- Hh, (split_space_first scheme tok EmptyString Hs),
        (split_space_word tok EmptyString Ht).
      reflexivity.
  - intros req w Hh. unfold authenticateToken.
    destruct (authorization req) as [h|]; [| reflexivity].
    unfold bearer. destruct h as [|c h]; [reflexivity |].
    rewrite (split_space_word (String c h) EmptyString Hh). reflexivity.
Qed.

(** X9: the guard of the routes under /admin.  [authenticateToken] followed
    by [requireAdmin] reads the store and never writes it; it answers 401 or
    403, or hands the request on, and it hands on only a request whose
    session token verifies for a user of the store who is active and whose
    role is admin, with that user attached. *)
Theorem admin_guard_admits_active_admins_only req w :
  db (world_of (admin_guard jwt_verify req w)) = db w /\
  ((exists status b,
      reply_of (admin_guard jwt_verify req w) = Ok (Respond status b) /\
      (status = 401 \/ status = 403)) \/
   (exists tok u,
      bearer (authorization req) = Some tok /\
      jwt_verify tok = Some (Usuarios.id u) /\
      In u (usuarios (db w)) /\
      Usuarios.estado u = "activo" /\ Usuarios.rol u = "admin" /\
      reply_of (admin_guard jwt_verify req w)
      = Ok (Next (with_user (mkUser (Usuarios.id u) "admin") req)))).
Proof.
  split.
  - assert (Hkeeps : keeps eq (admin_guard jwt_verify req)).
    { unfold admin_guard, express_error_handler, requireAdmin. reads_only.
      apply authenticateToken_reads_only. }
    symmetry. apply Hkeeps.
  - unfold admin_guard, bind, reply_of.
    destruct (authenticateToken_rejects req w) as [[req' Hnext] | [status [b [Hr Hs]]]];
      unfold reply_of in *.
    + pose proof (authenticateToken_next_inv req w req' Hnext) as [tok [u [Hb [Hj [Hin [He ->]]]]]].
      destruct (authenticateToken jwt_verify req w) as [r w1]. cbn [fst] in Hnext. subst r.
      unfold express_error_handler, requireAdmin, try_catch, ret. cbn.
      destruct (String.eqb_spec (Usuarios.rol u) "admin") as [Hrol | Hrol]; cbn.
      * right. exists tok, u. rewrite <- Hrol. repeat split; try assumption; reflexivity.
      * left. eauto.
    + destruct (authenticateToken jwt_verify req w) as [r w1]. cbn [fst] in Hr. subst r.
      left. exists status, b. split; [reflexivity | exact Hs].
Qed.

(** X10: POST /api/consultar is not metered.  Behind the session token the
    consult is relayed to the downstream service and its answer, or the
    status and body of its error, or 500 when it gave none, is sent back;
    the store is read for the user and never written: no token is charged
    and no counter is raised. *)
Theorem api_consultar_relays_and_charges_nothing python req w :
  db (world_of (post_api_consultar jwt_verify python req w)) = db w /\
  forall req',
    reply_of (authenticateToken jwt_verify req w) = Ok (Next req') ->
    reply_of (post_api_consultar jwt_verify python req w)
    = Ok (match python with
          | AxiosOk data => Respond 200 (JObj data)
          | AxiosError e =>
              match response e with
              | Some (status, data) => Respond status data
              | None => Respond 500 (error_body "Error interno del servidor")
              end
          end).
Proof.
  split.
  - assert (Hkeeps : keeps eq (post_api_consultar jwt_verify python req)).
    { unfold post_api_consultar, api_consultar. reads_only.
      apply authenticateToken_reads_only. }
    symmetry. apply Hkeeps.
  - intros req' Hnext.
    pose proof (authenticateToken_next_inv req w req' Hnext) as [tok [u [_ [_ [_ [_ ->]]]]]].
    unfold post_api_consultar, bind, reply_of in *.
    destruct (authenticateToken jwt_verify req w) as [r w1]. cbn [fst] in Hnext. subst r.
    unfold api_consultar, try_catch, bind, ret, axios_post, throw, console_error.
    cbn [user with_user].
    destruct python as [data | e]; cbn; [reflexivity |].
    destruct (response e) as [[status d]|]; reflexivity.
Qed.

(** ** The block registry over time *)

(** [checkBlockedIP] when the store answers. *)
Lemma checkBlockedIP_run now req w :
  faults w (tick w) = false ->
  checkBlockedIP now req w
  = (Ok (match active_blocks (ip req) now (db w) with
         | block :: _ =>
             Respond 403
               (JObj [("error", JStr "IP bloqueada por actividad sospechosa");
                      ("razon", JStr (BlockedIps.razon block));
                      ("hasta", json_instant (BlockedIps.bloqueado_hasta block))])
         | [] => Next req
         end),
     mkWorld (db w) (faults w) (S (tick w)) (console w)).
Proof.
  intros Hup. unfold checkBlockedIP, try_catch, bind, ret, pool_query, select.
  rewrite Hup. cbn. destruct (active_blocks (ip req) now (db w)); reflexivity.
Qed.

(** A row that is not an active block at an instant is not one later. *)
Lemma active_block_lapses ip now later b :
  now <= later -> active_block ip now b = false -> active_block ip later b = false.
Proof.
  unfold active_block. intros Hle.
  destruct (String.eqb (BlockedIps.ip_address b) ip); [| reflexivity]. cbn.
  destruct (BlockedIps.bloqueado_hasta b) as [t|]; [| discriminate].
  rewrite !Z.gtb_ltb. intros Ht. apply Z.ltb_ge in Ht. apply Z.ltb_ge. lia.
Qed.

(** X11: blocks lapse by time alone.  With the registry as it is and the
    store answering, an address that [checkBlockedIP] lets through at one
    instant is let through at every later instant; and an address with a
    row whose expiry is absent is reported blocked at every instant. *)
Theorem block_verdict_over_time req w w' :
  faults w (tick w) = false -> faults w' (tick w') = false ->
  blocked_ips (db w') = blocked_ips (db w) ->
  (forall now later,
     now <= later ->
     reply_of (checkBlockedIP now req w) = Ok (Next req) ->
     reply_of (checkBlockedIP later req w') = Ok (Next req)) /\
  (forall b now,
     In b (blocked_ips (db w)) -> BlockedIps.ip_address b = ip req ->
     BlockedIps.bloqueado_hasta b = None ->
     is_403 (reply_of (checkBlockedIP now req w'))).
Proof.
  intros Hup Hup' Hsame. split.
  - intros now later Hle. unfold reply_of.
    rewrite (checkBlockedIP_run now req w Hup), (checkBlockedIP_run later req w' Hup').
    cbn [fst]. unfold active_blocks. rewrite Hsame.
    destruct (filter (active_block (ip req) now) (blocked_ips (db w))) eqn:Hnow;
      [| discriminate].
    intros _.
    assert (Hlater : filter (active_block (ip req) later) (blocked_ips (db w)) = []).
    { apply filter_nil_iff. intros b Hb.
      apply (active_block_lapses (ip req) now later b Hle).
      exact (proj1 (filter_nil_iff _ _) Hnow b Hb). }
    now rewrite Hlater.
  - intros b now Hb Hip Hnone. unfold reply_of, is_403.
    rewrite (checkBlockedIP_run now req w' Hup'). cbn [fst].
    unfold active_blocks. rewrite Hsame.
    destruct (filter (active_block (ip req) now) (blocked_ips (db w))) eqn:Hnow;
      [| eauto].
    exfalso. pose proof (proj1 (filter_nil_iff _ _) Hnow b Hb) as Hno.
    unfold active_block in Hno. rewrite Hip, String.eqb_refl, Hnone in Hno. discriminate.
Qed.

(** The world [detectAttacks] leaves is the one its call of
    [logAttackAttempt] leaves. *)
Lemma detectAttacks_world now req w pattern :
  plain req = true ->
  first_match (payload_of req) = Some pattern ->
  world_of (detectAttacks sha256_hex now req w)
  = world_of (logAttackAttempt sha256_hex now (ip req) (option_map user_id (user req))
                (attackType_of pattern) "alta" (payload_of req) (path req) (method req) w).
Proof.
  intros Hplain Hfirst. rewrite detectAttacks_plain, Hfirst by exact Hplain.
  unfold bind, ret, world_of.
  pose proof (logAttackAttempt_ok sha256_hex now (ip req) (option_map user_id (user req))
                (attackType_of pattern) "alta" (payload_of req) (path req) (method req) w)
    as Hok.
  unfold reply_of in Hok. destruct (logAttackAttempt _ _ _ _ _ _ _ _ _ _) as [r w1].
  cbn in Hok. subst r. reflexivity.
Qed.


(** ** The threat scanner *)

Lemma attackType_of_suspicious pattern :
  In pattern suspiciousPatterns ->
  attackType_of pattern = "xss" \/ attackType_of pattern = "malformed_input".
Proof.
  intros [<- | [<- | [<- | [<- | []]]]]; vm_compute; auto.
Qed.

(** X13: whatever the payload, an attack that [detectAttacks] records is
    labelled xss or malformed_input, never sql_injection, path_traversal or
    command_injection; the row carries the severity alta, the address of
    the request, the scanned text and the instant.  Nothing else is added
    to the table of attacks and no row of it is changed. *)
Theorem detectAttacks_records_two_labels_only now req w :
  attack_attempts (db (world_of (detectAttacks sha256_hex now req w)))
  = attack_attempts (db w) \/
  exists label,
    (label = "xss" \/ label = "malformed_input") /\
    attack_attempts (db (world_of (detectAttacks sha256_hex now req w)))
    = (attack_attempts (db w) ++
         [AttackAttempts.mk (ip req) (option_map user_id (user req)) label "alta"
            (payload_of req) (sha256_hex (payload_of req)) (path req) (method req) now])%list.
Proof.
  destruct (plain req) eqn:Hplain;
    [| left; destruct (detectAttacks_throws sha256_hex now req w Hplain) as [e ->];
       reflexivity].
  destruct (first_match (payload_of req)) as [pattern|] eqn:Hfirst.
  - rewrite (detectAttacks_world now req w pattern Hplain Hfirst).
    assert (Hlabel : attackType_of pattern = "xss" \/ attackType_of pattern = "malformed_input").
    { apply attackType_of_suspicious. unfold first_match in Hfirst.
      apply find_some in Hfirst. apply Hfirst. }
    generalize dependent (attackType_of pattern). intros label Hlabel.
    unfold logAttackAttempt, try_catch, bind, ret, pool_query, insert_attack_attempt,
      count_recent_attacks, upsert_blocked_ip, console_error, sql_error, world_of.
    run; auto; right; exists label; split; auto.
  - left. now rewrite detectAttacks_pass.
Qed.

(** X14: of a request without a parameter named toString the scanner
    reads the body and nothing else.  The text it tests is the body as JSON
    text followed by [object Object] twice, whatever the query string and
    the route parameters hold: the request is answered 400 when a detector
    matches that text and handed on otherwise.  So two such requests with
    the same body get the same verdict, and one whose body is the empty
    object, as that of a GET is, goes through and leaves no trace.  A
    request with a parameter named toString in its query string or route
    is neither handed on nor answered: the scanner throws before a detector
    runs, and leaves the world as it was. *)
Theorem detectAttacks_scans_the_body_only now w :
  (forall req,
     plain req = true ->
     reply_of (detectAttacks sha256_hex now req w)
     = match first_match (Json.stringify (body req) ++ "[object Object]"
                            ++ "[object Object]") with
       | Some _ => Ok malformed_reply
       | None => Ok (Next req)
       end) /\
  (forall req1 req2,
     plain req1 = true -> plain req2 = true ->
     body req1 = body req2 ->
     admitted (reply_of (detectAttacks sha256_hex now req1 w))
     = admitted (reply_of (detectAttacks sha256_hex now req2 w))) /\
  (forall req,
     plain req = true ->
     body req = JObj [] -> detectAttacks sha256_hex now req w = (Ok (Next req), w)) /\
  (forall req,
     has_own "toString" (query req) = true \/ has_own "toString" (params req) = true ->
     exists e, detectAttacks sha256_hex now req w = (Throw e, w)).
Proof.
  assert (Hverdict : forall req,
             plain req = true ->
             reply_of (detectAttacks sha256_hex now req w)
             = match first_match (payload_of req) with
               | Some _ => Ok malformed_reply
               | None => Ok (Next req)
               end).
  { intros req Hplain.
    destruct (first_match (payload_of req)) as [pattern|] eqn:Hfirst.
    - exact (proj1 (detectAttacks_reject sha256_hex now req w pattern Hplain Hfirst)).
    - now rewrite (detectAttacks_pass sha256_hex now req w Hplain Hfirst). }
  split; [exact Hverdict |]. split; [| split].
  - intros req1 req2 Hplain1 Hplain2 Hbody.
    rewrite (Hverdict req1 Hplain1), (Hverdict req2 Hplain2).
    unfold payload_of. rewrite Hbody.
    destruct (first_match _); reflexivity.
  - intros req Hplain Hbody. apply detectAttacks_pass; [exact Hplain |].
    unfold payload_of. rewrite Hbody. vm_compute. reflexivity.
  - intros req Hown. apply detectAttacks_throws.
    unfold plain. destruct Hown as [-> | ->]; [reflexivity | apply andb_false_r].
Qed.

Lemma startsWith_spec p : forall s,
  Str.startsWith p s = true -> exists post, s = p ++ post.
Proof.
  induction p as [|a p IH]; intros s; cbn.
  - intros _. exists s. reflexivity.
  - destruct s as [|b s]; [discriminate |].
    intros H. apply andb_true_iff in H. destruct H as [Hab Hps].
    apply Ascii.eqb_eq in Hab. subst b.
    destruct (IH s Hps) as [post ->]. exists post. reflexivity.
Qed.

Lemma includes_spec p s :
  Str.includes p s = true -> exists pre post, s = pre ++ p ++ post.
Proof.
  induction s as [|c s IH]; cbn; intros H; apply orb_true_iff in H.
  - destruct H as [H | H]; [| discriminate].
    apply startsWith_spec in H. destruct H as [post ->]. exists EmptyString, post. reflexivity.
  - destruct H as [H | H].
    + apply startsWith_spec in H. destruct H as [post ->]. exists EmptyString, post.
      reflexivity.
    + destruct (IH H) as [pre [post ->]]. exists (String c pre), post. reflexivity.
Qed.

Lemma chars_app a b : Str.chars (a ++ b) = (Str.chars a ++ Str.chars b)%list.
Proof.
  unfold Str.chars. induction a as [|c a IH]; [reflexivity |].
  change (String c a ++ b) with (String c (a ++ b)).
  cbn [list_ascii_of_string app]. now rewrite IH.
Qed.

(** The traversal detector matches every text in which two dots follow each
    other. *)
Lemma path_pattern_two_dots pre post :
  Re.test path_pattern (pre ++ ".." ++ post) = true.
Proof.
  unfold Re.test. cbv zeta. rewrite !chars_app.
  set (s := (Str.chars pre ++ Str.chars ".." ++ Str.chars post)%list).
  set (i := List.length (Str.chars pre)).
  assert (H0 : nth_error s i = Some "."%char).
  { unfold s, i. rewrite nth_error_app2, Nat.sub_diag by lia. reflexivity. }
  assert (H1 : nth_error s (S i) = Some "."%char).
  { unfold s, i. rewrite nth_error_app2 by lia.
    replace (S (List.length (Str.chars pre)) - List.length (Str.chars pre))%nat with 1%nat
      by lia.
    reflexivity. }
  apply existsb_exists. exists i. split.
  - apply in_seq. unfold s, i. rewrite !length_app. cbn. lia.
  - unfold Re.matches_at. apply nonempty_In. exists (S (S i)).
    cbn [path_pattern Re.expr Re.ignoreCase Re.alts].
    cbn [Re.ends]. apply In_union. right.
    change (Re.lit "..") with (Re.Cat (Re.Chr ".") (Re.Chr ".")).
    cbn [Re.ends]. rewrite H0. cbn [Re.chr_eq].
    replace (Ascii.eqb (Re.canon ".") (Re.canon ".")) with true by reflexivity.
    cbn [flat_map]. rewrite H1.
    replace (Ascii.eqb (Re.canon ".") (Re.canon ".")) with true by reflexivity.
    apply In_union. left. now left.
Qed.

(** X15: two dots are an attack.  Every request, without a parameter
    named toString, whose body, as JSON text, has two dots following each
    other anywhere (an ellipsis in a field is enough) is answered 400
    Solicitud malformada detectada, whatever the rest of the body and
    whatever the store does. *)
Theorem detectAttacks_rejects_two_dots now req w :
  plain req = true ->
  Str.includes ".." (Json.stringify (body req)) = true ->
  reply_of (detectAttacks sha256_hex now req w) = Ok malformed_reply.
Proof.
  intros Hplain Hdots. apply includes_spec in Hdots. destruct Hdots as [pre [post Hbody]].
  assert (Hpath : Re.test path_pattern (payload_of req) = true).
  { unfold payload_of. rewrite Hbody.
    replace ((pre ++ ".." ++ post) ++ "[object Object]" ++ "[object Object]")
      with (pre ++ ".." ++ (post ++ "[object Object]" ++ "[object Object]")).
    - apply path_pattern_two_dots.
    - now rewrite !string_app_assoc. }
  destruct (first_match (payload_of req)) as [pattern|] eqn:Hfirst.
  - exact (proj1 (detectAttacks_reject sha256_hex now req w pattern Hplain Hfirst)).
  - unfold first_match in Hfirst.
    pose proof (find_none _ _ Hfirst path_pattern) as Hno. cbv beta in Hno.
    rewrite Hpath in Hno. discriminate Hno. cbn. auto.
Qed.

(** ** Issuance *)

Lemma valid_nombre_bounds req nombre :
  valid_nombre req = Some nombre -> (1 <= String.length nombre <= 100)%nat.
Proof.
  unfold valid_nombre.
  destruct (Json.get "nombre" (body_fields req)) as [[| | |v| |]|]; try discriminate.
  cbv zeta.
  destruct (Nat.leb 1 (String.length (Str.trim v))) eqn:H1; [| discriminate].
  destruct (Nat.leb (String.length (Str.trim v)) 100) eqn:H2; [| discriminate].
  cbn. intros Heq. injection Heq as <-.
  apply Nat.leb_le in H1, H2. lia.
Qed.

Lemma valid_limite_diario_bounds req limite :
  valid_limite_diario req = Some limite -> 1 <= or_1000 limite <= 10000.
Proof.
  unfold valid_limite_diario, or_1000.
  destruct (Json.get "limite_diario" (body_fields req)) as [[| |n| | |]|]; try discriminate.
  - destruct (1 <=? n) eqn:H1; [| discriminate].
    destruct (n <=? 10000) eqn:H2; [| discriminate].
    cbn. intros Heq. injection Heq as <-.
    apply Z.leb_le in H1, H2.
    destruct (Z.eqb_spec n 0); lia.
  - intros Heq. injection Heq as <-. lia.
Qed.

(** X16: issuance is all or nothing.  Whatever the request and whatever the
    store does, POST /tokens/generate either answers 201 and has added
    exactly one row, a token of the active user the session token names,
    under the digest of the secret it returns, in state activo, nothing
    used, no expiry, its name of 1 to 100 characters and its ceiling
    between 1 and 10000; or it answers 400, 401, 403 or 500 and the store
    is as it was. *)
Theorem post_tokens_generate_all_or_nothing now random req w :
  (exists b u nombre descripcion limite,
     reply_of (post_tokens_generate sha256_hex jwt_verify now random req w)
     = Ok (Respond 201 b) /\
     Json.get "token" (match b with JObj fields => fields | _ => [] end)
     = Some (JStr ("fp_" ++ Str.hex random)) /\
     In u (usuarios (db w)) /\ Usuarios.estado u = "activo" /\
     (1 <= String.length nombre <= 100)%nat /\
     1 <= limite <= 10000 /\
     api_tokens (db (world_of (post_tokens_generate sha256_hex jwt_verify now random req w)))
     = (api_tokens (db w) ++
          [issued_row (db w) (Usuarios.id u) (sha256_hex ("fp_" ++ Str.hex random))
             nombre descripcion limite])%list) \/
  (exists status b,
     reply_of (post_tokens_generate sha256_hex jwt_verify now random req w)
     = Ok (Respond status b) /\
     In status [400; 401; 403; 500] /\
     db (world_of (post_tokens_generate sha256_hex jwt_verify now random req w)) = db w).
Proof.
  pose proof (authenticateToken_reads_only req w) as [Hdb _].
  unfold post_tokens_generate, bind, reply_of, world_of in *.
  destruct (authenticateToken_rejects req w) as [[req' Hnext] | [status [b [Hr Hs]]]];
    unfold reply_of in *.
  - pose proof (authenticateToken_next_inv req w req' Hnext) as [tok [u [_ [_ [Hin [He ->]]]]]].
    destruct (authenticateToken jwt_verify req w) as [r w1]. cbn [fst snd] in *. subst r.
    cbn [user with_user]. unfold tokens_generate, try_catch.
    destruct (valid_nombre _) as [nombre|] eqn:Hn;
      [| right; exists 400, (error_body "Datos inválidos"); cbn; auto 6].
    destruct (valid_descripcion _) as [descripcion|] eqn:Hd;
      [| right; exists 400, (error_body "Datos inválidos"); cbn; auto 6].
    destruct (valid_limite_diario _) as [limite|] eqn:Hl;
      [| right; exists 400, (error_body "Datos inválidos"); cbn; auto 6].
    unfold bind, ret, pool_query, insert_api_token, console_error, sql_error.
    destruct (faults w1 (tick w1)); cbn;
      [right; exists 500, (error_body "Error generando token"); cbn; auto 7 |].
    destruct (existsb _ (api_tokens (db w1))) eqn:Hdup; cbn;
      [right; exists 500, (error_body "Error generando token"); cbn; auto 7 |].
    left. eexists _, u, nombre, (or_null descripcion), (or_1000 limite).
    split; [reflexivity |]. split; [reflexivity |].
    split; [exact Hin |]. split; [exact He |].
    split; [exact (valid_nombre_bounds _ _ Hn) |].
    split; [exact (valid_limite_diario_bounds _ _ Hl) |].
    unfold issued_row. rewrite <- Hdb. reflexivity.
  - destruct (authenticateToken jwt_verify req w) as [r w1]. cbn [fst snd] in *. subst r.
    right. exists status, b. split; [reflexivity |]. split; [| now symmetry].
    destruct Hs as [-> | ->]; cbn; auto.
Qed.

(** ** The parameters of the consult route *)


(** ** The quota of the consult route *)

(** An UPDATE that leaves the digest, the state and the owner of the rows it
    changes: the token lookup finds the same rows, updated. *)
Lemma active_token_rows_after_update h s s' (c : ApiTokens.row -> bool) f :
  (forall t, ApiTokens.token_hash (f t) = ApiTokens.token_hash t /\
             ApiTokens.estado (f t) = ApiTokens.estado t /\
             ApiTokens.usuario_id (f t) = ApiTokens.usuario_id t) ->
  api_tokens s' = map (fun t => if c t then f t else t) (api_tokens s) ->
  usuarios s' = usuarios s ->
  active_token_rows h s'
  = map (fun tu => (if c (fst tu) then f (fst tu) else fst tu, snd tu))
      (active_token_rows h s).
Proof.
  intros Hf Ht Hu. unfold active_token_rows. rewrite Ht, Hu.
  generalize (api_tokens s) as l. induction l as [|t l IH]; [reflexivity |].
  cbn [map flat_map]. rewrite !filter_app, map_app, IH. f_equal.
  assert (Hsame : ApiTokens.token_hash (if c t then f t else t) = ApiTokens.token_hash t /\
                  ApiTokens.estado (if c t then f t else t) = ApiTokens.estado t /\
                  ApiTokens.usuario_id (if c t then f t else t) = ApiTokens.usuario_id t)
    by (destruct (c t); [apply Hf | auto]).
  destruct Hsame as [Eh [Ee Eu]]. rewrite Eu.
  induction (filter (fun u => ApiTokens.usuario_id t =? Usuarios.id u) (usuarios s))
    as [|u us IHu]; [reflexivity |].
  cbn [map filter fst snd]. rewrite Eh, Ee.
  destruct (_ && _ && _); cbn [map fst snd]; [f_equal |]; exact IHu.
Qed.

(** The consult route at a failed quota check, the store answering: the
    answer depends on whether the events table takes the audit statement;
    the tokens are left as they were. *)
Lemma public_consultar_over_quota_run now python req w token ruc tok usr rest :
  healthy w ->
  param "token" req = Some token ->
  Str.startsWith "fp_" token = true ->
  param "ruc" req = Some ruc ->
  valid_ruc ruc = true ->
  active_token_rows (sha256_hex token) (db w) = (tok, usr) :: rest ->
  ApiTokens.limite_requests_diario tok <= ApiTokens.requests_utilizados_hoy tok ->
  reply_of (public_consultar sha256_hex pg_decimal_6_3 now python req w)
  = Ok (if accepts_quota_event (security_events_table (db w))
        then consult_quota_reply (ApiTokens.limite_requests_diario tok)
               (ApiTokens.requests_utilizados_hoy tok)
        else consult_failed) /\
  api_tokens (db (world_of (public_consultar sha256_hex pg_decimal_6_3 now python req w)))
  = api_tokens (db w).
Proof.
  intros Hup Htoken Hfp Hruc Hvalid Hrows Hover. split.
  - destruct (accepts_quota_event (security_events_table (db w))) eqn:Hschema.
    + eapply public_consultar_over_quota_replies_429; eauto.
    + eapply public_consultar_over_quota_replies_500; eauto.
  - unfold valid_ruc in Hvalid. apply andb_true_iff in Hvalid.
    destruct Hvalid as [Hre Hlen].
    assert (Htk : falsy (Some token) = false).
    { destruct token; [discriminate | reflexivity]. }
    assert (Hrk : falsy (Some ruc) = false).
    { destruct ruc; [discriminate | reflexivity]. }
    unfold public_consultar, public_consultar_try, world_of.
    rewrite Htoken, Hruc, Htk, Hrk. cbn [or_empty negb orb].
    rewrite Hfp, Hre, Hlen. cbn [negb orb].
    unfold try_catch at 1. unfold bind at 1. unfold pool_query at 1. rewrite Hup.
    unfold select at 1. rewrite Hrows. cbn [fst snd].
    apply Z.geb_le in Hover. rewrite Hover.
    unfold axios_post, try_catch, bind, ret, throw, pool_query, select,
      insert_security_event, insert_requests_log, console_error, sql_error.
    run.
Qed.

(** X18: the consult route admits exactly what is left of the ceiling.  The
    store answering and the downstream service answering with a response
    time the log takes (none at all, or a text whose number, the first
    letter s taken out, fits the column tiempo_respuesta), consults made
    one after the other with the secret of an active token are answered
    200, each charged to the token, as long as the token's count of the day
    (plus the consults already made) is below its ceiling; every later one
    is refused: with 429 and the ceiling, when the events table takes the
    audit statement, with 500 when it does not. *)
Theorem public_consultar_admits_the_remaining_quota data req token ruc nows text :
  time_text data = Some text ->
  pg_decimal_6_3 text = true ->
  forall w tok usr rest,
  healthy w ->
  param "token" req = Some token ->
  Str.startsWith "fp_" token = true ->
  param "ruc" req = Some ruc ->
  valid_ruc ruc = true ->
  active_token_rows (sha256_hex token) (db w) = (tok, usr) :: rest ->
  forall i r,
    nth_error
      (fst (serve (map (fun now => public_consultar sha256_hex pg_decimal_6_3 now
                                     (AxiosOk data) req) nows)
              w)) i = Some r ->
    r = Ok (if ApiTokens.requests_utilizados_hoy tok + Z.of_nat i
               <? ApiTokens.limite_requests_diario tok
            then Respond 200
                   (consult_body data (Usuarios.nombre usr) (Usuarios.plan usr)
                      (ApiTokens.limite_requests_diario tok)
                      (ApiTokens.requests_utilizados_hoy tok + Z.of_nat i))
            else if accepts_quota_event (security_events_table (db w))
                 then consult_quota_reply (ApiTokens.limite_requests_diario tok)
                        (Z.max (ApiTokens.requests_utilizados_hoy tok)
                           (ApiTokens.limite_requests_diario tok))
                 else consult_failed).
Proof.
  intros Htime Hfits.
  induction nows as [|now nows IH];
    intros w tok usr rest Hup Htoken Hfp Hruc Hvalid Hrows i r Hi;
    [destruct i; discriminate |].
  cbn [map serve] in Hi.
  pose proof (public_consultar_accounts now (AxiosOk data) req w) as [[Hu [_ Htab]] Hf].
  destruct (Z.ltb_spec (ApiTokens.requests_utilizados_hoy tok)
              (ApiTokens.limite_requests_diario tok)) as [Hunder | Hover].
  - destruct (public_consultar_admits sha256_hex pg_decimal_6_3 now data req w token ruc
                tok usr rest text Hup Htoken Hfp Hruc Hvalid Hrows Hunder Htime Hfits)
      as [w' [Hrun [Htok _]]].
    unfold world_of in Hu, Htab, Hf. rewrite Hrun in Hi, Hu, Htab, Hf. cbn [snd] in *.
    assert (Hrows' : active_token_rows (sha256_hex token) (db w')
                     = (ApiTokens.charge now tok, usr)
                       :: map (fun tu => (if ApiTokens.id (fst tu) =? ApiTokens.id tok
                                          then ApiTokens.charge now (fst tu) else fst tu,
                                          snd tu)) rest).
    { rewrite (active_token_rows_after_update (sha256_hex token) (db w) (db w')
                 (fun t => ApiTokens.id t =? ApiTokens.id tok) (ApiTokens.charge now));
        [| intros; repeat split | exact Htok | exact Hu].
      rewrite Hrows. cbn [map fst snd]. now rewrite Z.eqb_refl. }
    assert (Hup' : healthy w') by (intros j; rewrite Hf; apply Hup).
    specialize (IH w' _ _ _ Hup' Htoken Hfp Hruc Hvalid Hrows').
    destruct (serve _ w') as [rs w2]. destruct i as [|i]; cbn [fst nth_error] in *.
    + injection Hi as <-. rewrite Z.add_0_r.
      apply Z.ltb_lt in Hunder. now rewrite Hunder.
    + specialize (IH i r Hi). rewrite IH. rewrite Htab. cbn.
      replace (ApiTokens.requests_utilizados_hoy tok + 1 + Z.of_nat i)
        with (ApiTokens.requests_utilizados_hoy tok + Z.pos (Pos.of_succ_nat i)) by lia.
      replace (Z.max (ApiTokens.requests_utilizados_hoy tok + 1)
                 (ApiTokens.limite_requests_diario tok))
        with (Z.max (ApiTokens.requests_utilizados_hoy tok)
                (ApiTokens.limite_requests_diario tok)) by lia.
      reflexivity.
  - destruct (public_consultar_over_quota_run now (AxiosOk data) req w token ruc tok usr rest
                Hup Htoken Hfp Hruc Hvalid Hrows Hover) as [Hreply Htok].
    unfold reply_of, world_of in *.
    destruct (public_consultar sha256_hex pg_decimal_6_3 now (AxiosOk data) req w) as [r0 w'].
    cbn [fst snd] in *.
    assert (Hrows' : active_token_rows (sha256_hex token) (db w') = (tok, usr) :: rest).
    { rewrite <- Hrows. unfold active_token_rows. now rewrite Htok, Hu. }
    assert (Hup' : healthy w') by (intros j; rewrite Hf; apply Hup).
    specialize (IH w' _ _ _ Hup' Htoken Hfp Hruc Hvalid Hrows').
    destruct (serve _ w') as [rs w2]. destruct i as [|i]; cbn [fst nth_error] in *.
    + injection Hi as <-. rewrite Z.add_0_r.
      apply Z.ltb_ge in Hover. rewrite Hover, Hreply.
      replace (Z.max _ _) with (ApiTokens.requests_utilizados_hoy tok)
        by (apply Z.ltb_ge in Hover; lia).
      reflexivity.
    + specialize (IH i r Hi). rewrite IH, Htab.
      assert (H1 : (ApiTokens.requests_utilizados_hoy tok + Z.of_nat i
                    <? ApiTokens.limite_requests_diario tok) = false)
        by (apply Z.ltb_ge; lia).
      assert (H2 : (ApiTokens.requests_utilizados_hoy tok + Z.of_nat (S i)
                    <? ApiTokens.limite_requests_diario tok) = false)
        by (apply Z.ltb_ge; lia).
      now rewrite H1, H2.
Qed.

(** X19: a consult that fails downstream is charged all the same.  The
    store answering and the quota check passed, when the downstream service
    fails, the token has been charged one request before the call was made;
    the answer is the status and body of the downstream error, or 500 when
    it carries none; and the failure is written to [requests_log] with that
    status (500 when there is none) and the message of the error. *)
Theorem public_consultar_charges_a_failed_consult now e req w token ruc tok usr rest :
  healthy w ->
  param "token" req = Some token ->
  Str.startsWith "fp_" token = true ->
  param "ruc" req = Some ruc ->
  valid_ruc ruc = true ->
  active_token_rows (sha256_hex token) (db w) = (tok, usr) :: rest ->
  ApiTokens.requests_utilizados_hoy tok < ApiTokens.limite_requests_diario tok ->
  let out := public_consultar sha256_hex pg_decimal_6_3 now (AxiosError e) req w in
  reply_of out
  = Ok (match response e with
        | Some (status, data) => Respond status data
        | None => consult_failed
        end) /\
  api_tokens (db (world_of out))
  = map (fun t => if ApiTokens.id t =? ApiTokens.id tok then ApiTokens.charge now t else t)
      (api_tokens (db w)) /\
  exists t0,
    ApiTokens.token_hash t0 = sha256_hex token /\
    requests_log (db (world_of out))
    = (requests_log (db w) ++
         [RequestsLog.mk (ApiTokens.usuario_id t0) (ApiTokens.id t0) "/public/consultar" ruc
            (status_or_500 e) None (Some (message e)) (ip req) now])%list.
Proof.
  intros Hup Htoken Hfp Hruc Hvalid Hrows Hunder out. subst out.
  pose proof (valid_ruc_varchar ruc Hvalid) as Hcedula. unfold varchar in Hcedula.
  unfold valid_ruc in Hvalid. apply andb_true_iff in Hvalid. destruct Hvalid as [Hre Hlen].
  assert (Htk : falsy (Some token) = false).
  { destruct token; [discriminate | reflexivity]. }
  assert (Hrk : falsy (Some ruc) = false).
  { destruct ruc; [discriminate | reflexivity]. }
  assert (Hq : (ApiTokens.requests_utilizados_hoy tok >=? ApiTokens.limite_requests_diario tok)
               = false).
  { rewrite Z.geb_leb. apply Z.leb_gt. exact Hunder. }
  assert (Hin : In (tok, usr) (active_token_rows (sha256_hex token) (db w)))
    by (rewrite Hrows; now left).
  apply active_token_rows_In in Hin. destruct Hin as [Htok [_ [_ [Hhash _]]]].
  set (charged := map (fun t => if ApiTokens.id t =? ApiTokens.id tok
                                then ApiTokens.charge now t else t) (api_tokens (db w))).
  assert (Hfound : exists t0 more,
            token_rows_by_hash (sha256_hex token) (set_api_tokens charged (db w)) = t0 :: more).
  { unfold token_rows_by_hash. cbn [api_tokens set_api_tokens].
    destruct (filter _ charged) as [|t0 more] eqn:Hf; [| eauto].
    exfalso.
    assert (Hc : In (ApiTokens.charge now tok) charged).
    { unfold charged. apply in_map_iff. exists tok. now rewrite Z.eqb_refl. }
    pose proof (proj1 (filter_nil_iff _ _) Hf _ Hc) as Hno. cbn in Hno.
    rewrite Hhash, String.eqb_refl in Hno. discriminate. }
  destruct Hfound as [t0 [more Hfound]].
  assert (Hh0 : ApiTokens.token_hash t0 = sha256_hex token).
  { assert (Hin0 : In t0 (token_rows_by_hash (sha256_hex token)
                            (set_api_tokens charged (db w))))
      by (rewrite Hfound; now left).
    unfold token_rows_by_hash in Hin0. apply filter_In in Hin0.
    now apply String.eqb_eq. }
  assert (Hrun : exists w',
            public_consultar sha256_hex pg_decimal_6_3 now (AxiosError e) req w
            = (Ok (match response e with
                   | Some (status, data) => Respond status data
                   | None => consult_failed
                   end), w') /\
            api_tokens (db w') = charged /\
            requests_log (db w')
            = (requests_log (db w) ++
                 [RequestsLog.mk (ApiTokens.usuario_id t0) (ApiTokens.id t0)
                    "/public/consultar" ruc (status_or_500 e) None (Some (message e))
                    (ip req) now])%list).
  { eexists. split; [| split].
    - unfold public_consultar, public_consultar_try.
      rewrite Htoken, Hruc, Htk, Hrk. cbn [or_empty negb orb].
      rewrite Hfp, Hre, Hlen. cbn [negb orb].
      unfold try_catch at 1. unfold bind at 1. unfold pool_query at 1. rewrite Hup.
      unfold select at 1. rewrite Hrows. cbn [fst snd]. rewrite Hq.
      unfold axios_post, try_catch, bind, ret, throw, pool_query, select, update_token,
        insert_requests_log, console_error.
      cbn. repeat (rewrite Hup; cbn). fold charged. rewrite Hfound. cbn. rewrite Hup. cbn.
      rewrite Hcedula. cbn.
      destruct (response e) as [[status data]|]; reflexivity.
    - reflexivity.
    - reflexivity. }
  destruct Hrun as [w' [Hrun [Hcharged Hlog]]].
  unfold reply_of, world_of. rewrite Hrun. cbn [fst snd].
  split; [reflexivity |]. split; [exact Hcharged |]. exists t0. auto.
Qed.

(** What the consult route does once its guarded block has thrown, the
    store answering: the failure is logged under the token found by its
    digest, and answered with the status and body of the error, or 500. *)
Lemma public_consultar_catch now python req w e w1 token ruc t0 more :
  public_consultar_try sha256_hex pg_decimal_6_3 now python req w = (Throw e, w1) ->
  healthy w1 ->
  param "token" req = Some token ->
  param "ruc" req = Some ruc ->
  falsy (Some ruc) = false ->
  varchar 13 ruc = true ->
  token_rows_by_hash (sha256_hex token) (db w1) = t0 :: more ->
  exists w',
    public_consultar sha256_hex pg_decimal_6_3 now python req w
    = (Ok (match response e with
           | Some (status, data) => Respond status data
           | None => consult_failed
           end), w') /\
    api_tokens (db w') = api_tokens (db w1) /\
    requests_log (db w')
    = (requests_log (db w1) ++
         [RequestsLog.mk (ApiTokens.usuario_id t0) (ApiTokens.id t0) "/public/consultar" ruc
            (status_or_500 e) None (Some (message e)) (ip req) now])%list.
Proof.
  intros Htry Hup Htoken Hruc Hrk Hcedula Hfound. unfold varchar in Hcedula.
  eexists. split; [| split].
  - unfold public_consultar. unfold try_catch at 1. rewrite Htry.
    unfold try_catch, bind, ret, console_error, pool_query, select, insert_requests_log.
    rewrite Htoken, Hruc, Hrk. cbn. rewrite Hup. cbn. rewrite Hfound. cbn. rewrite Hup. cbn.
    rewrite Hcedula. cbn.
    destruct (response e) as [[status data]|]; reflexivity.
  - reflexivity.
  - reflexivity.
Qed.

(** X21: a consult the log does not take is charged and lost.  The store
    answering, the quota check passed and the downstream service having
    answered, when the response time it reports is neither absent nor a
    text (a number, say), or is a text whose number the column
    tiempo_respuesta refuses, the token has been charged one request and
    the answer is 500 with the generic message, not the downstream answer;
    the failure is written to [requests_log] with status 500. *)
Theorem public_consultar_charges_a_consult_it_cannot_log now data req w token ruc tok usr
    rest :
  healthy w ->
  param "token" req = Some token ->
  Str.startsWith "fp_" token = true ->
  param "ruc" req = Some ruc ->
  valid_ruc ruc = true ->
  active_token_rows (sha256_hex token) (db w) = (tok, usr) :: rest ->
  ApiTokens.requests_utilizados_hoy tok < ApiTokens.limite_requests_diario tok ->
  (forall text, time_text data = Some text -> pg_decimal_6_3 text = false) ->
  let out := public_consultar sha256_hex pg_decimal_6_3 now (AxiosOk data) req w in
  reply_of out = Ok consult_failed /\
  api_tokens (db (world_of out))
  = map (fun t => if ApiTokens.id t =? ApiTokens.id tok then ApiTokens.charge now t else t)
      (api_tokens (db w)) /\
  exists t0 msg,
    ApiTokens.token_hash t0 = sha256_hex token /\
    requests_log (db (world_of out))
    = (requests_log (db w) ++
         [RequestsLog.mk (ApiTokens.usuario_id t0) (ApiTokens.id t0) "/public/consultar" ruc
            500 None (Some msg) (ip req) now])%list.
Proof.
  intros Hup Htoken Hfp Hruc Hvalid Hrows Hunder Hbad out. subst out.
  pose proof (valid_ruc_varchar ruc Hvalid) as Hcedula.
  unfold valid_ruc in Hvalid. apply andb_true_iff in Hvalid. destruct Hvalid as [Hre Hlen].
  assert (Htk : falsy (Some token) = false).
  { destruct token; [discriminate | reflexivity]. }
  assert (Hrk : falsy (Some ruc) = false).
  { destruct ruc; [discriminate | reflexivity]. }
  assert (Hq : (ApiTokens.requests_utilizados_hoy tok >=? ApiTokens.limite_requests_diario tok)
               = false).
  { rewrite Z.geb_leb. apply Z.leb_gt. exact Hunder. }
  assert (Hin : In (tok, usr) (active_token_rows (sha256_hex token) (db w)))
    by (rewrite Hrows; now left).
  apply active_token_rows_In in Hin. destruct Hin as [Htok [_ [_ [Hhash _]]]].
  set (charged := map (fun t => if ApiTokens.id t =? ApiTokens.id tok
                                then ApiTokens.charge now t else t) (api_tokens (db w))).
  assert (Htry : exists e w1,
            public_consultar_try sha256_hex pg_decimal_6_3 now (AxiosOk data) req w
            = (Throw e, w1) /\
            response e = None /\ api_tokens (db w1) = charged /\
            requests_log (db w1) = requests_log (db w) /\ faults w1 = faults w).
  { unfold public_consultar_try.
    rewrite Htoken, Hruc, Htk, Hrk. cbn [or_empty negb orb].
    rewrite Hfp, Hre, Hlen. cbn [negb orb].
    unfold bind at 1. unfold pool_query at 1. rewrite Hup.
    unfold select at 1. rewrite Hrows. cbn [fst snd]. rewrite Hq.
    unfold axios_post, bind, ret, pool_query, update_token, insert_requests_log, sql_error.
    cbn. rewrite Hup. cbn. rewrite api_time_text_spec.
    destruct (time_text data) as [text|] eqn:Htime; cbn.
    - rewrite Hup. cbn. unfold varchar in Hcedula. rewrite Hcedula, (Hbad text eq_refl). cbn.
      eexists _, _. split; [reflexivity |]. repeat split.
    - eexists _, _. split; [reflexivity |]. repeat split. }
  destruct Htry as [e [w1 [Htry [Hresp [Hcharged [Hlog Hf]]]]]].
  assert (Hfound : exists t0 more,
            token_rows_by_hash (sha256_hex token) (db w1) = t0 :: more).
  { unfold token_rows_by_hash. rewrite Hcharged.
    destruct (filter _ charged) as [|t0 more] eqn:Hfil; [| eauto].
    exfalso.
    assert (Hc : In (ApiTokens.charge now tok) charged).
    { unfold charged. apply in_map_iff. exists tok. now rewrite Z.eqb_refl. }
    pose proof (proj1 (filter_nil_iff _ _) Hfil _ Hc) as Hno. cbn in Hno.
    rewrite Hhash, String.eqb_refl in Hno. discriminate. }
  destruct Hfound as [t0 [more Hfound]].
  assert (Hh0 : ApiTokens.token_hash t0 = sha256_hex token).
  { assert (Hin0 : In t0 (token_rows_by_hash (sha256_hex token) (db w1)))
      by (rewrite Hfound; now left).
    unfold token_rows_by_hash in Hin0. apply filter_In in Hin0.
    now apply String.eqb_eq. }
  assert (Hup1 : healthy w1) by (intros j; rewrite Hf; apply Hup).
  destruct (public_consultar_catch now (AxiosOk data) req w e w1 token ruc t0 more
              Htry Hup1 Htoken Hruc Hrk Hcedula Hfound) as [w' [Hrun [Htokens Hlogged]]].
  unfold reply_of, world_of. rewrite Hrun. cbn [fst snd].
  split; [now rewrite Hresp |]. split; [now rewrite Htokens |].
  exists t0, (message e). split; [exact Hh0 |].
  rewrite Hlogged, Hlog. unfold status_or_500. now rewrite Hresp.
Qed.

(** ** Unique keys *)

Lemma keeps_keys_refl s : keeps_keys s s.
Proof. unfold keeps_keys. auto. Qed.

Lemma keeps_keys_trans s1 s2 s3 : keeps_keys s1 s2 -> keeps_keys s2 s3 -> keeps_keys s1 s3.
Proof. unfold keeps_keys. auto. Qed.

Lemma keeps_keys_same s s' :
  api_tokens s' = api_tokens s -> blocked_ips s' = blocked_ips s -> keeps_keys s s'.
Proof. unfold keeps_keys, unique_keys. intros -> ->. auto. Qed.

(** An UPDATE that leaves the id and the digest of the rows it changes. *)
Lemma keeps_keys_update s (c : ApiTokens.row -> bool) f :
  (forall t, ApiTokens.id (f t) = ApiTokens.id t /\
             ApiTokens.token_hash (f t) = ApiTokens.token_hash t) ->
  keeps_keys s (set_api_tokens (map (fun t => if c t then f t else t) (api_tokens s)) s).
Proof.
  intros Hf. unfold keeps_keys, unique_keys. cbn [api_tokens blocked_ips set_api_tokens].
  rewrite !map_map.
  rewrite (map_ext (fun t => ApiTokens.id (if c t then f t else t)) ApiTokens.id)
    by (intros t; destruct (c t); [apply Hf | reflexivity]).
  rewrite (map_ext (fun t => ApiTokens.token_hash (if c t then f t else t))
             ApiTokens.token_hash)
    by (intros t; destruct (c t); [apply Hf | reflexivity]).
  auto.
Qed.

Lemma NoDup_snoc {A} (l : list A) x : NoDup l -> ~ In x l -> NoDup (l ++ [x]).
Proof.
  intros Hl Hx. apply NoDup_rev in Hl. rewrite <- (rev_involutive (l ++ [x])), rev_app_distr.
  apply NoDup_rev. cbn. constructor; [now rewrite <- in_rev | exact Hl].
Qed.

Lemma insert_api_token_keys now owner h nombre descripcion limite s :
  keeps_keys s (snd (insert_api_token now owner h nombre descripcion limite s)).
Proof.
  unfold insert_api_token, sql_error.
  destruct (existsb _ (api_tokens s)) eqn:Hdup; cbn [snd]; [apply keeps_keys_refl |].
  pose proof (insert_api_token_fresh (api_tokens s) owner h nombre descripcion limite Hdup)
    as Hfresh.
  unfold fresh_for in Hfresh. rewrite Forall_forall in Hfresh.
  unfold keeps_keys, unique_keys. cbn [api_tokens blocked_ips set_api_tokens].
  rewrite !map_app. cbn [map ApiTokens.id ApiTokens.token_hash].
  intros [Hid [Hh Hb]]. split; [| split; [| exact Hb]].
  - apply NoDup_snoc; [exact Hid |]. intros Hin. apply in_map_iff in Hin.
    destruct Hin as [t [Heq Ht]]. destruct (Hfresh t Ht) as [Hlt _].
    cbn [ApiTokens.id] in Hlt. lia.
  - apply NoDup_snoc; [exact Hh |]. intros Hin. apply in_map_iff in Hin.
    destruct Hin as [t [Heq Ht]]. destruct (Hfresh t Ht) as [_ Hne].
    cbn [ApiTokens.token_hash] in Hne. congruence.
Qed.

Lemma upsert_blocked_ip_keys ip razon tipo hasta count s :
  keeps_keys s (snd (upsert_blocked_ip ip razon tipo hasta count s)).
Proof.
  unfold upsert_blocked_ip, sql_error. fold (has_row ip (blocked_ips s)).
  destruct (has_row ip (blocked_ips s)) eqn:Hrow; cbn [snd].
  - unfold keeps_keys, unique_keys. cbn [api_tokens blocked_ips set_blocked_ips].
    fold (reblocked ip hasta (blocked_ips s)). now rewrite reblocked_addresses.
  - destruct (negb _); cbn [snd]; [apply keeps_keys_refl |].
    unfold keeps_keys, unique_keys. cbn [api_tokens blocked_ips set_blocked_ips].
    intros [Hid [Hh Hb]]. split; [exact Hid |]. split; [exact Hh |].
    unfold addresses. rewrite map_app. apply NoDup_snoc; [exact Hb |].
    now apply has_row_false.
Qed.

Ltac keys :=
  frame keeps_keys_refl keeps_keys_trans;
  try apply insert_api_token_keys; try apply upsert_blocked_ip_keys;
  try (statement;
       first [ apply keeps_keys_same; reflexivity
             | apply keeps_keys_update; intros; split; reflexivity ]).

Lemma logSecurityEvent_keys now ip userId eventType severity endpoint payload :
  keeps keeps_keys (logSecurityEvent now ip userId eventType severity endpoint payload).
Proof. unfold logSecurityEvent. keys. Qed.

Lemma authenticateToken_keys req : keeps keeps_keys (authenticateToken jwt_verify req).
Proof. unfold authenticateToken. keys. Qed.

Lemma served_keys h :
  served sha256_hex jwt_verify pg_integer pg_decimal_6_3 h -> keeps keeps_keys h.
Proof.
  induction 1 as [| | | | | | |now handler req _ IH].
  - unfold checkBlockedIP. keys.
  - unfold detectAttacks, logAttackAttempt. keys.
  - unfold validateAPIToken, validateAPIToken_try. keys; apply logSecurityEvent_keys.
  - unfold post_tokens_generate, tokens_generate. keys; apply authenticateToken_keys.
  - unfold delete_tokens, tokens_delete. keys; apply authenticateToken_keys.
  - unfold post_api_consultar, api_consultar. keys; apply authenticateToken_keys.
  - unfold public_consultar, public_consultar_try. keys.
  - unfold through_middlewares, checkBlockedIP, detectAttacks, logAttackAttempt.
    keys. apply IH.
Qed.

(** X20: the unique keys stay unique.  If the ids of the tokens, their
    digests and the addresses of the blocks are each without repetition,
    they still are after any requests the middlewares and routes have
    served, whatever the faults of the store: no handler rewrites an id or a
    digest, issuance adds a row only under a digest not yet in the table,
    and the automatic block updates the row of the address when there is
    one. *)
Theorem unique_keys_are_kept hs w :
  Forall (served sha256_hex jwt_verify pg_integer pg_decimal_6_3) hs ->
  unique_keys (db w) ->
  unique_keys (db (snd (serve hs w))).
Proof.
  intros Hhs.
  exact (proj1 (keeps_serve keeps_keys keeps_keys_refl keeps_keys_trans hs
                  (Forall_impl _ served_keys Hhs) w)).
Qed.

End Further.

(** * The scenarios, run *)

(** C1: the owner's only token has ceiling 3 and nothing is used today.  On
    GET /public/consultar the first three requests are admitted and charged;
    the fourth meets the failed quota check, whose audit statement the
    security_events table of init.sql refuses, and is answered 500, not 429
    with ceiling 3 and usage 3 (the answer it gets from a table that has the
    column detalles and admits the event type).  Through [validateAPIToken]
    all four are admitted, the counter read by the check never being
    written. *)
Theorem four_requests_ceiling_three :
  fst (serve (Demo.four Demo.consult) (Demo.world Demo.store0))
  = [Ok (Respond 200 (consult_body Demo.python_data "Olga" "free" 3 0));
     Ok (Respond 200 (consult_body Demo.python_data "Olga" "free" 3 1));
     Ok (Respond 200 (consult_body Demo.python_data "Olga" "free" 3 2));
     Ok consult_failed]
  /\ map ApiTokens.requests_utilizados_hoy
       (api_tokens (db (snd (serve (Demo.four Demo.consult) (Demo.world Demo.store0)))))
     = [3]
  /\ security_events (db (snd (serve (Demo.four Demo.consult) (Demo.world Demo.store0))))
     = []
  /\ accepts_quota_event SecurityEvents.init_sql = false
  /\ fst (serve (Demo.four Demo.consult) (Demo.world Demo.store0_altered))
     = [Ok (Respond 200 (consult_body Demo.python_data "Olga" "free" 3 0));
        Ok (Respond 200 (consult_body Demo.python_data "Olga" "free" 3 1));
        Ok (Respond 200 (consult_body Demo.python_data "Olga" "free" 3 2));
        Ok (consult_quota_reply 3 3)]
  /\ map admitted (fst (serve (Demo.four Demo.api_call) (Demo.world Demo.store0)))
     = [true; true; true; true]
  /\ map admitted (fst (serve (Demo.four Demo.api_call) (Demo.world Demo.store0_altered)))
     = [true; true; true; true]
  /\ limits_usage (db (snd (serve (Demo.four Demo.api_call) (Demo.world Demo.store0))))
     = [].
Proof. vm_compute. repeat split. Qed.

(** C2: a request that passes the quota check is admitted, yet on neither
    path is the owner's daily counter raised: [validateAPIToken] sets the
    last-use columns and leaves the token's count of the day at 0; the
    public consult route raises the token's count and leaves [limits_usage]
    empty. *)
Theorem admitted_request_charges_no_daily_counter :
  admitted (reply_of (Demo.api_call (Demo.world Demo.store0))) = true
  /\ limits_usage (db (world_of (Demo.api_call (Demo.world Demo.store0)))) = []
  /\ api_tokens (db (world_of (Demo.api_call (Demo.world Demo.store0))))
     = [ApiTokens.set_last_use Demo.noon (Some Demo.address) (Some "curl/8") (Demo.token 0)]
  /\ reply_of (Demo.consult (Demo.world Demo.store0))
     = Ok (Respond 200 (consult_body Demo.python_data "Olga" "free" 3 0))
  /\ limits_usage (db (world_of (Demo.consult (Demo.world Demo.store0)))) = []
  /\ api_tokens (db (world_of (Demo.consult (Demo.world Demo.store0))))
     = [ApiTokens.charge Demo.noon (Demo.token 0)].
Proof. vm_compute. repeat split. Qed.

(** C5: a payload that the SQL detector and the script detector both match
    is caught by the SQL detector, the first of the list, and the attack is
    recorded as malformed_input, not as sql_injection. *)
Theorem sql_and_script_payload_recorded_as_malformed (sha256_hex : string -> string) :
  Re.test sql_pattern (payload_of Demo.req_sql_and_script) = true
  /\ Re.test xss_pattern (payload_of Demo.req_sql_and_script) = true
  /\ first_match (payload_of Demo.req_sql_and_script) = Some sql_pattern
  /\ attackType_of sql_pattern = "malformed_input"
  /\ map AttackAttempts.attack_type
       (attack_attempts
          (db (world_of (detectAttacks sha256_hex Demo.noon Demo.req_sql_and_script
                           (Demo.world Demo.store0)))))
     = ["malformed_input"].
Proof.
  assert (Hsql : Re.test sql_pattern (payload_of Demo.req_sql_and_script) = true)
    by (vm_compute; reflexivity).
  split; [exact Hsql |]. split; [vm_compute; reflexivity |].
  destruct (detectAttacks_labels_sql_malformed sha256_hex Demo.noon Demo.req_sql_and_script
              (Demo.world Demo.store0) eq_refl Hsql eq_refl eq_refl eq_refl)
    as [Hfirst [Hlabel Hrec]].
  split; [exact Hfirst |]. split; [exact Hlabel |].
  rewrite Hrec. reflexivity.
Qed.

(** ** Inputs on which a claim fails as it is worded *)

(** C4: no digest, instant or world makes the scanner answer 400 to the
    body carrying ' OR 1=1 --. *)
Lemma tautology_payload_is_not_rejected :
  ~ exists sha256_hex now w b,
      reply_of (detectAttacks sha256_hex now Demo.req_tautology w) = Ok (Respond 400 b).
Proof.
  intros [sha256_hex [now [w [b Hreply]]]].
  rewrite detectAttacks_pass in Hreply by (vm_compute; reflexivity).
  discriminate.
Qed.

(** C6: the fifth attack of the hour from an address an operator blocked.
    A permanent block keeps its kind and gets an expiry; a block that ran
    for a week is cut back to 24 hours. *)
Lemma auto_block_rewrites_operator_blocks :
  blocked_ips
    (db (world_of (logAttackAttempt Demo.digest Demo.noon Demo.address None "xss" "alta"
                     "<script></script>" "/consultar" "POST"
                     (Demo.world (Demo.store_with_block Demo.permanent_block)))))
  = [BlockedIps.mk Demo.address "Bloqueo manual" "permanente"
       (Some (Demo.noon + ms_per_day)) 1 "admin_manual" 2]
  /\ blocked_ips
       (db (world_of (logAttackAttempt Demo.digest Demo.noon Demo.address None "xss" "alta"
                        "<script></script>" "/consultar" "POST"
                        (Demo.world (Demo.store_with_block Demo.week_block)))))
     = [BlockedIps.mk Demo.address "Bloqueo manual" "temporal"
          (Some (Demo.noon + ms_per_day)) 1 "admin_manual" 2]
  /\ BlockedIps.bloqueado_hasta Demo.week_block = Some (Demo.noon + 7 * ms_per_day)
  /\ Demo.noon + ms_per_day < Demo.noon + 7 * ms_per_day.
Proof. vm_compute. repeat split. Qed.

(** C7: a row of kind permanente whose expiry column holds a past instant
    is in the registry, and the address is not reported blocked. *)
Lemma lapsed_permanent_block_is_not_reported :
  In Demo.lapsed_permanent_block
    (blocked_ips (Demo.store_with_block Demo.lapsed_permanent_block))
  /\ BlockedIps.ip_address Demo.lapsed_permanent_block = ip Demo.req_tautology
  /\ BlockedIps.tipo_bloqueo Demo.lapsed_permanent_block = "permanente"
  /\ reply_of (checkBlockedIP Demo.noon Demo.req_tautology
                 (Demo.world (Demo.store_with_block Demo.lapsed_permanent_block)))
     = Ok (Next Demo.req_tautology).
Proof. repeat split. now left. Qed.

(** C8: the store is unreachable and the address is blocked: the block
    check lets the request through instead of answering 500. *)
Lemma block_check_fails_open :
  active_blocks Demo.address Demo.noon (Demo.store_with_block Demo.permanent_block)
  = [Demo.permanent_block]
  /\ reply_of (checkBlockedIP Demo.noon Demo.req_tautology
                 (Demo.world_down (Demo.store_with_block Demo.permanent_block)))
     = Ok (Next Demo.req_tautology).
Proof. split; reflexivity. Qed.


(** ** The general statements at a concrete input *)

Lemma demo_world_healthy (s : Store) : healthy (Demo.world s).
Proof. intros k. reflexivity. Defined.

(** C3 at the owner's token: the store answers, the token is found and not
    expired, nothing is used today, and the request is handed on with the
    owner's identity and role; and at the same token past its expiry:
    answered as expired, its row set to expirado. *)
Lemma validateAPIToken_refines_authenticate_witness :
  healthy (Demo.world Demo.store0)
  /\ (exists req',
      reply_of (validateAPIToken Demo.digest Demo.noon
                  (Demo.req_api (Some Demo.secret) (JObj [])) (Demo.world Demo.store0))
      = Ok (Next req')
      /\ user req' = Some (mkUser 1 "cliente")
      /\ option_map fst (apiToken req') = Some (Demo.token 0))
  /\ healthy (Demo.world Demo.store_expired)
  /\ authenticate Demo.digest Demo.store_expired Demo.noon (Some Demo.secret)
     = Expired Demo.expired_token
  /\ reply_of (Demo.api_call (Demo.world Demo.store_expired)) = Ok expired_reply
  /\ In Demo.expired_token (api_tokens Demo.store_expired)
  /\ Forall2 (fun before after =>
                if ApiTokens.id before =? ApiTokens.id Demo.expired_token
                then moved_to "expirado" before after
                else after = before)
       [Demo.expired_token]
       (api_tokens (db (world_of (Demo.api_call (Demo.world Demo.store_expired)))))
  /\ map ApiTokens.estado
       (api_tokens (db (world_of (Demo.api_call (Demo.world Demo.store_expired)))))
     = ["expirado"].
Proof.
  split; [apply demo_world_healthy |]. split.
  - exact (validateAPIToken_refines_authenticate Demo.digest Demo.noon
             (Demo.req_api (Some Demo.secret) (JObj [])) (Demo.world Demo.store0)
             (demo_world_healthy Demo.store0)).
  - split; [apply demo_world_healthy |]. split; [reflexivity |].
    pose proof (validateAPIToken_refines_authenticate Demo.digest Demo.noon
                  (Demo.req_api (Some Demo.secret) (JObj [])) (Demo.world Demo.store_expired)
                  (demo_world_healthy Demo.store_expired)) as [Hreply [Hin Hrows]].
    split; [exact Hreply |]. split; [exact Hin |]. split; [exact Hrows |].
    reflexivity.
Defined.

(** C4 at the body carrying ' UNION SELECT 1 --: rejected with the fixed
    answer, the attempt recorded; and at the same body with a parameter
    named toString in the query string: the scanner throws. *)
Lemma detectAttacks_verdict_witness :
  plain Demo.req_union = true
  /\ first_match (payload_of Demo.req_union) = Some sql_pattern
  /\ reply_of (detectAttacks Demo.digest Demo.noon Demo.req_union (Demo.world Demo.store0))
     = Ok malformed_reply
  /\ map AttackAttempts.attack_type
       (attack_attempts
          (db (world_of (detectAttacks Demo.digest Demo.noon Demo.req_union
                           (Demo.world Demo.store0))))) = ["malformed_input"]
  /\ plain Demo.req_toString = false
  /\ exists e,
      detectAttacks Demo.digest Demo.noon Demo.req_toString (Demo.world Demo.store0)
      = (Throw e, Demo.world Demo.store0).
Proof.
  assert (Hfirst : first_match (payload_of Demo.req_union) = Some sql_pattern)
    by (vm_compute; reflexivity).
  split; [reflexivity |]. split; [exact Hfirst |].
  destruct (proj1 (proj2 (detectAttacks_verdict Demo.digest Demo.noon Demo.req_union
                            (Demo.world Demo.store0))) eq_refl sql_pattern Hfirst)
    as [Hreply [Hrec _]].
  split; [exact Hreply |]. split.
  - rewrite (Hrec eq_refl eq_refl eq_refl). reflexivity.
  - split; [reflexivity |].
    exact (proj1 (proj2 (proj2 (detectAttacks_verdict Demo.digest Demo.noon
                                  Demo.req_toString (Demo.world Demo.store0)))) eq_refl).
Defined.

(** C6 at the fifth attack of the hour from an address blocked for a week:
    one row for the address before, one row after. *)
Lemma logAttackAttempt_upserts_block_witness :
  NoDup (addresses (blocked_ips (db (Demo.world (Demo.store_with_block Demo.week_block)))))
  /\ 5 <= Z.of_nat (List.length (recent_attacks Demo.address Demo.noon
                                   (Demo.store_with_block Demo.week_block))) + 1
  /\ NoDup (addresses
              (blocked_ips
                 (db (world_of (logAttackAttempt Demo.digest Demo.noon Demo.address None
                                  "xss" "alta" "<script></script>" "/consultar" "POST"
                                  (Demo.world (Demo.store_with_block Demo.week_block))))))).
Proof.
  assert (Huniq : NoDup (addresses (blocked_ips
                    (db (Demo.world (Demo.store_with_block Demo.week_block)))))).
  { repeat constructor. intros []. }
  split; [exact Huniq |]. split; [vm_compute; discriminate |].
  exact (proj1 (logAttackAttempt_upserts_block Demo.digest Demo.noon Demo.address None
                  "xss" "alta" "<script></script>" "/consultar" "POST"
                  (Demo.world (Demo.store_with_block Demo.week_block))
                  eq_refl eq_refl eq_refl eq_refl eq_refl eq_refl eq_refl Huniq)).
Defined.

(** C7 at an address under a permanent block: reported blocked. *)
Lemma checkBlockedIP_blocks_iff_active_row_witness :
  faults (Demo.world (Demo.store_with_block Demo.permanent_block))
    (tick (Demo.world (Demo.store_with_block Demo.permanent_block))) = false
  /\ is_403 (reply_of (checkBlockedIP Demo.noon Demo.req_tautology
                         (Demo.world (Demo.store_with_block Demo.permanent_block)))).
Proof.
  split; [reflexivity |].
  apply (proj1 (checkBlockedIP_blocks_iff_active_row Demo.noon Demo.req_tautology
                  (Demo.world (Demo.store_with_block Demo.permanent_block)) eq_refl)).
  exists Demo.permanent_block. split; [now left |]. split; [reflexivity |].
  left. reflexivity.
Defined.

(** C8 at a request carrying the owner's secret: answered 500 when the
    store is unreachable, when the usage query fails, when the last-use
    update fails, and, the token being past its expiry, when the update
    that expires it fails, the token row staying as it was.  The block
    check lets the request through when the store is unreachable. *)
Lemma internal_failure_policy_witness :
  x_api_key (Demo.req_api (Some Demo.secret) (JObj [])) = Some Demo.secret
  /\ falsy (Some Demo.secret) = false
  /\ reply_of (Demo.api_call (Demo.world_down Demo.store0)) = Ok internal_error
  /\ reply_of (Demo.api_call (Demo.world_failing_at 1 Demo.store0)) = Ok internal_error
  /\ reply_of (Demo.api_call (Demo.world_failing_at 2 Demo.store0)) = Ok internal_error
  /\ reply_of (Demo.api_call (Demo.world_failing_at 1 Demo.store_expired))
     = Ok internal_error
  /\ api_tokens (db (world_of (Demo.api_call (Demo.world_failing_at 1 Demo.store_expired))))
     = [Demo.expired_token]
  /\ reply_of (checkBlockedIP Demo.noon (Demo.req_api (Some Demo.secret) (JObj []))
                 (Demo.world_down Demo.store0))
     = Ok (Next (Demo.req_api (Some Demo.secret) (JObj []))).
Proof.
  pose (req := Demo.req_api (Some Demo.secret) (JObj [])).
  pose proof (fun w => internal_failure_policy Demo.digest Demo.noon req w Demo.secret
                         eq_refl eq_refl) as policy.
  split; [reflexivity |]. split; [reflexivity |].
  split; [exact (proj1 (policy (Demo.world_down Demo.store0)) eq_refl) |].
  split.
  { exact (proj1 (proj2 (proj2 (policy (Demo.world_failing_at 1 Demo.store0))))
             (Demo.token 0) Demo.owner [] eq_refl eq_refl eq_refl eq_refl). }
  split.
  { apply (proj1 (proj2 (proj2 (proj2 (policy (Demo.world_failing_at 2 Demo.store0)))))
             (Demo.token 0) Demo.owner []); reflexivity. }
  split.
  { exact (proj1 (proj2 (policy (Demo.world_failing_at 1 Demo.store_expired)))
             Demo.expired_token Demo.owner [] eq_refl eq_refl eq_refl eq_refl). }
  split; [reflexivity |].
  exact (proj1 (proj2 (proj2 (proj2 (proj2 (proj2 (proj2
           (policy (Demo.world_down Demo.store0)))))))) eq_refl).
Defined.


(** C10 at the owner's token with its ceiling used up, in a database whose
    table takes the audit statement: the answer is 429 with ceiling 3 and
    usage 3, and the token table is what it was. *)
Lemma public_consultar_over_quota_keeps_tokens_witness :
  active_token_rows (Demo.digest Demo.secret) Demo.store3_altered
  = [(Demo.token 3, Demo.owner)]
  /\ ApiTokens.limite_requests_diario (Demo.token 3)
     <= ApiTokens.requests_utilizados_hoy (Demo.token 3)
  /\ reply_of (public_consultar Demo.digest Demo.decimal_6_3 Demo.noon (AxiosOk Demo.python_data)
                 Demo.req_consultar (Demo.world Demo.store3_altered))
     = Ok (consult_quota_reply 3 3)
  /\ api_tokens (db (world_of (public_consultar Demo.digest Demo.decimal_6_3 Demo.noon
                                 (AxiosOk Demo.python_data) Demo.req_consultar
                                 (Demo.world Demo.store3_altered))))
     = [Demo.token 3].
Proof.
  assert (Hrows : active_token_rows (Demo.digest Demo.secret)
                    (db (Demo.world Demo.store3_altered))
                  = [(Demo.token 3, Demo.owner)]) by (vm_compute; reflexivity).
  assert (Hover : ApiTokens.limite_requests_diario (Demo.token 3)
                  <= ApiTokens.requests_utilizados_hoy (Demo.token 3))
    by (vm_compute; discriminate).
  split; [exact Hrows |]. split; [exact Hover |]. split; [vm_compute; reflexivity |].
  exact (public_consultar_over_quota_keeps_tokens Demo.digest Demo.decimal_6_3 Demo.noon
           (AxiosOk Demo.python_data) Demo.req_consultar (Demo.world Demo.store3_altered)
           Demo.secret "1790012345001" (Demo.token 3) Demo.owner []
           eq_refl eq_refl eq_refl eq_refl eq_refl Hrows Hover).
Defined.

(** ** The further properties at a concrete input *)

Lemma two_requests_served :
  Forall (served Demo.digest Demo.jwt Cases.integer Demo.decimal_6_3) Cases.two_requests.
Proof. unfold Cases.two_requests, Demo.api_call, Demo.consult. repeat constructor. Defined.

(** X1 at the same two requests: the owner's usage of the day reads 0
    before and after. *)
Lemma usage_counter_is_never_written_witness :
  Forall (served Demo.digest Demo.jwt Cases.integer Demo.decimal_6_3) Cases.two_requests /\
  usage_today (db (snd (serve Cases.two_requests (Demo.world Demo.store0)))) 1 Demo.noon
  = usage_today (db (Demo.world Demo.store0)) 1 Demo.noon.
Proof.
  split; [exact two_requests_served |].
  exact (proj2 (proj2 (usage_counter_is_never_written Demo.digest Demo.jwt Cases.integer
                         Demo.decimal_6_3 Cases.two_requests (Demo.world Demo.store0)
                         two_requests_served))
           1 Demo.noon).
Defined.

(** X2 at the owner's token: the request is handed on, and the token and
    the owner attached to it are rows of the store, both active. *)
Lemma validateAPIToken_admits_only_valid_witness :
  reply_of (Demo.api_call (Demo.world Demo.store0)) = Ok (Next Cases.handed_on) /\
  exists t u,
    In t (api_tokens Demo.store0) /\ In u (usuarios Demo.store0) /\
    ApiTokens.estado t = "activo" /\ Usuarios.estado u = "activo" /\
    apiToken Cases.handed_on = Some (t, u).
Proof.
  assert (Hnext : reply_of (Demo.api_call (Demo.world Demo.store0))
                  = Ok (Next Cases.handed_on)) by (vm_compute; reflexivity).
  split; [exact Hnext |].
  destruct (validateAPIToken_admits_only_valid Demo.digest Demo.noon
              (Demo.req_api (Some Demo.secret) (JObj [])) (Demo.world Demo.store0)
              Cases.handed_on Hnext)
    as (k & t & u & _ & _ & Ht & Hu & _ & _ & Het & Heu & _ & _ & _ & Htok).
  exists t, u. auto.
Defined.

(** X3 at the owner's token expired a second before noon: the request at
    noon is answered as expired and leaves the row in state expirado; a
    consult having been served, the same request is answered as invalid or
    revoked. *)
Lemma expired_token_is_retired_witness :
  healthy (Demo.world Demo.store_expired) /\
  NoDup (map ApiTokens.token_hash (api_tokens (db (Demo.world Demo.store_expired)))) /\
  active_token_rows (Demo.digest Demo.secret) Demo.store_expired
  = [(Demo.expired_token, Demo.owner)] /\
  expired Demo.noon Demo.expired_token = true /\
  Forall (served Demo.digest Demo.jwt Cases.integer Demo.decimal_6_3) [Demo.consult] /\
  reply_of (Demo.api_call (Demo.world Demo.store_expired)) = Ok expired_reply /\
  map ApiTokens.estado
    (api_tokens (db (world_of (Demo.api_call (Demo.world Demo.store_expired)))))
  = ["expirado"] /\
  reply_of (Demo.api_call
              (snd (serve [Demo.consult]
                      (world_of (Demo.api_call (Demo.world Demo.store_expired))))))
  = Ok invalid_reply.
Proof.
  assert (Hnd : NoDup (map ApiTokens.token_hash
                         (api_tokens (db (Demo.world Demo.store_expired))))).
  { repeat constructor. intros []. }
  assert (Hrows : active_token_rows (Demo.digest Demo.secret)
                    (db (Demo.world Demo.store_expired))
                  = [(Demo.expired_token, Demo.owner)]) by (vm_compute; reflexivity).
  assert (Hexp : expired Demo.noon Demo.expired_token = true) by (vm_compute; reflexivity).
  assert (Hk : Demo.secret <> EmptyString) by discriminate.
  assert (Hserved : Forall (served Demo.digest Demo.jwt Cases.integer Demo.decimal_6_3)
                      [Demo.consult]).
  { unfold Demo.consult. repeat constructor. }
  destruct (expired_token_is_retired Demo.digest Demo.jwt Cases.integer Demo.decimal_6_3
              Demo.noon (Demo.req_api (Some Demo.secret) (JObj []))
              (Demo.world Demo.store_expired) Demo.secret Demo.expired_token Demo.owner []
              [Demo.consult] (demo_world_healthy Demo.store_expired) Hnd eq_refl Hk Hrows
              Hexp Hserved)
    as [Hfirst [_ [_ [_ [_ Hthen]]]]].
  split; [apply demo_world_healthy |]. split; [exact Hnd |]. split; [exact Hrows |].
  split; [exact Hexp |]. split; [exact Hserved |]. split; [exact Hfirst |].
  split; [reflexivity |].
  exact (Hthen Demo.noon (Demo.req_api (Some Demo.secret) (JObj [])) eq_refl).
Defined.

(** X4 at a request through [validateAPIToken] followed by a public
    consult: the owner's token is still the first row, evolved. *)
Lemma token_rows_only_evolve_witness :
  Forall (served Demo.digest Demo.jwt Cases.integer Demo.decimal_6_3) Cases.two_requests /\
  nth_error (api_tokens (db (Demo.world Demo.store0))) 0 = Some (Demo.token 0) /\
  exists t',
    nth_error (api_tokens (db (snd (serve Cases.two_requests (Demo.world Demo.store0))))) 0
    = Some t' /\
    row_evolves (Demo.token 0) t'.
Proof.
  split; [exact two_requests_served |]. split; [reflexivity |].
  destruct (token_rows_only_evolve Demo.digest Demo.jwt Cases.integer Demo.decimal_6_3
              Cases.two_requests
              (Demo.world Demo.store0) 0 (Demo.token 0) two_requests_served eq_refl)
    as [t' [Hnth [Hev _]]].
  exists t'. auto.
Defined.

(** X5 at a request that carries no key: 401, and one event of type
    token_invalido; and at the same request on a path of 60 characters:
    401, and no event. *)
Lemma validateAPIToken_audit_trail_witness :
  healthy (Demo.world Demo.store0) /\
  security_events_table (db (Demo.world Demo.store0)) = SecurityEvents.init_sql /\
  map SecurityEvents.evento_tipo
    (security_events
       (db (world_of (validateAPIToken Demo.digest Demo.noon (Demo.req_api None (JObj []))
                        (Demo.world Demo.store0)))))
  = ["token_invalido"] /\
  varchar 50 (path Cases.req_long_path) = false /\
  reply_of (validateAPIToken Demo.digest Demo.noon Cases.req_long_path
              (Demo.world Demo.store0)) = Ok missing_reply /\
  security_events
    (db (world_of (validateAPIToken Demo.digest Demo.noon Cases.req_long_path
                     (Demo.world Demo.store0))))
  = [].
Proof.
  split; [apply demo_world_healthy |]. split; [reflexivity |]. split.
  - destruct (validateAPIToken_audit_trail Demo.digest Demo.noon
                (Demo.req_api None (JObj [])) (Demo.world Demo.store0)
                (demo_world_healthy Demo.store0) eq_refl)
      as [[req' [Hnext _]] | [status [b [e [_ [Hafter _]]]]]].
    + vm_compute in Hnext. discriminate Hnext.
    + vm_compute. reflexivity.
  - split; [reflexivity |].
    destruct (validateAPIToken_audit_trail Demo.digest Demo.noon Cases.req_long_path
                (Demo.world Demo.store0) (demo_world_healthy Demo.store0) eq_refl)
      as [[req' [Hnext _]] | [status [b [e [_ [Hafter _]]]]]].
    + vm_compute in Hnext. discriminate Hnext.
    + split; [reflexivity | exact Hafter].
Defined.

(** X6 at the owner revoking the token: 200; after a public consult has
    been served, the secret is not handed on and the consult route refuses
    it. *)
Lemma revoked_secret_is_refused_witness :
  NoDup (map ApiTokens.token_hash (api_tokens (db (Demo.world Demo.store0)))) /\
  Forall (served Demo.digest Demo.jwt Cases.integer Demo.decimal_6_3) [Demo.consult] /\
  reply_of (tokens_delete Cases.integer (Cases.req_revoke 1) (Demo.world Demo.store0))
  = Ok (Respond 200 (JObj [("message", JStr "Token revocado exitosamente")])) /\
  admitted
    (reply_of (Demo.api_call
                 (snd (serve [Demo.consult]
                         (world_of (tokens_delete Cases.integer (Cases.req_revoke 1)
                                      (Demo.world Demo.store0))))))) = false /\
  refused
    (reply_of (public_consultar Demo.digest Demo.decimal_6_3 Demo.noon
                 (AxiosOk Demo.python_data) Demo.req_consultar
                 (snd (serve [Demo.consult]
                         (world_of (tokens_delete Cases.integer (Cases.req_revoke 1)
                                      (Demo.world Demo.store0))))))).
Proof.
  assert (Hnd : NoDup (map ApiTokens.token_hash (api_tokens (db (Demo.world Demo.store0))))).
  { repeat constructor. intros []. }
  assert (Hserved : Forall (served Demo.digest Demo.jwt Cases.integer Demo.decimal_6_3)
                      [Demo.consult]).
  { unfold Demo.consult. repeat constructor. }
  destruct (revoked_secret_is_refused Demo.digest Demo.jwt Cases.integer Demo.decimal_6_3
              (Cases.req_revoke 1) (Demo.world Demo.store0) (mkUser 1 "cliente") "1"
              (Demo.token 0) Demo.secret
              [Demo.consult] Hnd (or_introl eq_refl) eq_refl eq_refl eq_refl eq_refl eq_refl
              eq_refl Hserved)
    as [Hreply [Hvalidate Hconsult]].
  split; [exact Hnd |]. split; [exact Hserved |]. split; [exact Hreply |].
  split.
  - exact (Hvalidate Demo.noon (Demo.req_api (Some Demo.secret) (JObj [])) eq_refl).
  - exact (proj1 (Hconsult Demo.noon (AxiosOk Demo.python_data) Demo.req_consultar eq_refl)).
Defined.

(** X7 at another user asking to revoke the owner's token: 404, and the
    token table is what it was. *)
Lemma tokens_delete_reaches_own_rows_only_witness :
  user (Cases.req_revoke 2) = Some (mkUser 2 "cliente") /\
  reply_of (tokens_delete Cases.integer (Cases.req_revoke 2) (Demo.world Demo.store0))
  = Ok (Respond 404 (error_body "Token no encontrado")) /\
  api_tokens (db (world_of (tokens_delete Cases.integer (Cases.req_revoke 2)
                              (Demo.world Demo.store0))))
  = [Demo.token 0].
Proof.
  split; [reflexivity |].
  refine (proj2 (tokens_delete_reaches_own_rows_only Cases.integer (Cases.req_revoke 2)
                   (Demo.world Demo.store0) (mkUser 2 "cliente") eq_refl)
            "1" 1 eq_refl eq_refl eq_refl _).
  intros r [<- | []] _. discriminate.
Defined.

(** X11 at the block that runs for a week from noon: let through eight days
    after noon, and so nine days after. *)
Lemma block_verdict_over_time_witness :
  reply_of (checkBlockedIP (Demo.noon + 8 * ms_per_day) Demo.req_tautology
              (Demo.world (Demo.store_with_block Demo.week_block)))
  = Ok (Next Demo.req_tautology) /\
  reply_of (checkBlockedIP (Demo.noon + 9 * ms_per_day) Demo.req_tautology
              (Demo.world (Demo.store_with_block Demo.week_block)))
  = Ok (Next Demo.req_tautology).
Proof.
  assert (Hthrough : reply_of (checkBlockedIP (Demo.noon + 8 * ms_per_day) Demo.req_tautology
                                 (Demo.world (Demo.store_with_block Demo.week_block)))
                     = Ok (Next Demo.req_tautology)) by (vm_compute; reflexivity).
  split; [exact Hthrough |].
  refine (proj1 (block_verdict_over_time Demo.req_tautology
                   (Demo.world (Demo.store_with_block Demo.week_block))
                   (Demo.world (Demo.store_with_block Demo.week_block))
                   eq_refl eq_refl eq_refl)
            (Demo.noon + 8 * ms_per_day) (Demo.noon + 9 * ms_per_day) _ Hthrough).
  vm_compute. discriminate.
Defined.


(** X14 at the body carrying ' OR 1=1 --: handed on; and at a request
    with toString=1 in its query string: thrown out of the scanner, the
    world as it was. *)
Lemma detectAttacks_scans_the_body_only_witness :
  plain Demo.req_tautology = true /\
  reply_of (detectAttacks Demo.digest Demo.noon Demo.req_tautology (Demo.world Demo.store0))
  = Ok (Next Demo.req_tautology) /\
  has_own "toString" (query Demo.req_toString) = true /\
  exists e,
    detectAttacks Demo.digest Demo.noon Demo.req_toString (Demo.world Demo.store0)
    = (Throw e, Demo.world Demo.store0).
Proof.
  pose proof (detectAttacks_scans_the_body_only Demo.digest Demo.noon
                (Demo.world Demo.store0)) as [Hverdict [_ [_ Hthrows]]].
  split; [reflexivity |]. split.
  - rewrite (Hverdict Demo.req_tautology eq_refl). vm_compute. reflexivity.
  - split; [reflexivity |]. apply Hthrows. left. reflexivity.
Defined.

(** X15 at a body with the note gracias...: rejected as an attack. *)
Lemma detectAttacks_rejects_two_dots_witness :
  plain Cases.req_ellipsis = true /\
  Str.includes ".." (Json.stringify (body Cases.req_ellipsis)) = true /\
  reply_of (detectAttacks Demo.digest Demo.noon Cases.req_ellipsis (Demo.world Demo.store0))
  = Ok malformed_reply.
Proof.
  assert (Hdots : Str.includes ".." (Json.stringify (body Cases.req_ellipsis)) = true)
    by (vm_compute; reflexivity).
  split; [reflexivity |]. split; [exact Hdots |].
  exact (detectAttacks_rejects_two_dots Demo.digest Demo.noon Cases.req_ellipsis
           (Demo.world Demo.store0) eq_refl Hdots).
Defined.

(** X18 at the owner's token, ceiling 3 and nothing used: of four consults
    the third (index 2) is answered 200 and the fourth (index 3), the table
    of events being the one of init.sql, 500. *)
Lemma public_consultar_admits_the_remaining_quota_witness :
  time_text Demo.python_data = Some "0" /\
  Demo.decimal_6_3 "0" = true /\
  healthy (Demo.world Demo.store0) /\
  valid_ruc "1790012345001" = true /\
  nth_error
    (fst (serve (map (fun now => public_consultar Demo.digest Demo.decimal_6_3 now
                                   (AxiosOk Demo.python_data) Demo.req_consultar)
                   [Demo.noon; Demo.noon; Demo.noon; Demo.noon])
            (Demo.world Demo.store0))) 3
  = Some (Ok consult_failed) /\
  (0 + Z.of_nat 3 <? 3) = false /\
  accepts_quota_event (security_events_table (db (Demo.world Demo.store0))) = false.
Proof.
  assert (Hvalid : valid_ruc "1790012345001" = true) by (vm_compute; reflexivity).
  assert (Hrows : active_token_rows (Demo.digest Demo.secret) (db (Demo.world Demo.store0))
                  = [(Demo.token 0, Demo.owner)]) by (vm_compute; reflexivity).
  assert (Hfourth : nth_error
                      (fst (serve (map (fun now =>
                                          public_consultar Demo.digest Demo.decimal_6_3 now
                                            (AxiosOk Demo.python_data) Demo.req_consultar)
                                     [Demo.noon; Demo.noon; Demo.noon; Demo.noon])
                              (Demo.world Demo.store0))) 3
                    = Some (Ok consult_failed)) by (vm_compute; reflexivity).
  pose proof (public_consultar_admits_the_remaining_quota Demo.digest Demo.decimal_6_3
                Demo.python_data Demo.req_consultar Demo.secret "1790012345001"
                [Demo.noon; Demo.noon; Demo.noon; Demo.noon] "0" eq_refl eq_refl
                (Demo.world Demo.store0)
                (Demo.token 0) Demo.owner [] (demo_world_healthy Demo.store0)
                eq_refl eq_refl eq_refl Hvalid Hrows 3%nat (Ok consult_failed) Hfourth)
    as Hreply.
  split; [reflexivity |]. split; [reflexivity |].
  split; [apply demo_world_healthy |]. split; [exact Hvalid |]. split; [exact Hfourth |].
  split; reflexivity.
Defined.

(** X19 at the downstream service answering 503: the answer is 503, and
    the token has been charged. *)
Lemma public_consultar_charges_a_failed_consult_witness :
  healthy (Demo.world Demo.store0) /\
  reply_of (public_consultar Demo.digest Demo.decimal_6_3 Demo.noon
              (AxiosError Cases.python_down) Demo.req_consultar (Demo.world Demo.store0))
  = Ok (Respond 503 (JObj [("detail", JStr "SRI no disponible")])) /\
  api_tokens (db (world_of (public_consultar Demo.digest Demo.decimal_6_3 Demo.noon
                              (AxiosError Cases.python_down) Demo.req_consultar
                              (Demo.world Demo.store0))))
  = [ApiTokens.charge Demo.noon (Demo.token 0)].
Proof.
  assert (Hvalid : valid_ruc "1790012345001" = true) by (vm_compute; reflexivity).
  assert (Hrows : active_token_rows (Demo.digest Demo.secret) (db (Demo.world Demo.store0))
                  = [(Demo.token 0, Demo.owner)]) by (vm_compute; reflexivity).
  assert (Hunder : ApiTokens.requests_utilizados_hoy (Demo.token 0)
                   < ApiTokens.limite_requests_diario (Demo.token 0)) by reflexivity.
  destruct (public_consultar_charges_a_failed_consult Demo.digest Demo.decimal_6_3
              Demo.noon Cases.python_down Demo.req_consultar (Demo.world Demo.store0)
              Demo.secret "1790012345001"
              (Demo.token 0) Demo.owner [] (demo_world_healthy Demo.store0)
              eq_refl eq_refl eq_refl Hvalid Hrows Hunder)
    as [Hreply [Hcharged _]].
  split; [apply demo_world_healthy |]. split; [exact Hreply |]. exact Hcharged.
Defined.

(** X21 at a downstream answer that reports its time as the number 2, and
    at one that reports 1234.5s: the answer is 500 and the token has been
    charged. *)
Lemma public_consultar_charges_a_consult_it_cannot_log_witness :
  healthy (Demo.world Demo.store0) /\
  time_text Cases.python_numeric_time = None /\
  reply_of (public_consultar Demo.digest Demo.decimal_6_3 Demo.noon
              (AxiosOk Cases.python_numeric_time) Demo.req_consultar (Demo.world Demo.store0))
  = Ok consult_failed /\
  api_tokens (db (world_of (public_consultar Demo.digest Demo.decimal_6_3 Demo.noon
                              (AxiosOk Cases.python_numeric_time) Demo.req_consultar
                              (Demo.world Demo.store0))))
  = [ApiTokens.charge Demo.noon (Demo.token 0)] /\
  time_text Cases.python_long_time = Some "1234.5" /\
  Demo.decimal_6_3 "1234.5" = false /\
  reply_of (public_consultar Demo.digest Demo.decimal_6_3 Demo.noon
              (AxiosOk Cases.python_long_time) Demo.req_consultar (Demo.world Demo.store0))
  = Ok consult_failed.
Proof.
  assert (Hvalid : valid_ruc "1790012345001" = true) by (vm_compute; reflexivity).
  assert (Hrows : active_token_rows (Demo.digest Demo.secret) (db (Demo.world Demo.store0))
                  = [(Demo.token 0, Demo.owner)]) by (vm_compute; reflexivity).
  assert (Hunder : ApiTokens.requests_utilizados_hoy (Demo.token 0)
                   < ApiTokens.limite_requests_diario (Demo.token 0)) by reflexivity.
  pose proof (fun data => public_consultar_charges_a_consult_it_cannot_log Demo.digest
                Demo.decimal_6_3 Demo.noon data Demo.req_consultar (Demo.world Demo.store0)
                Demo.secret "1790012345001" (Demo.token 0) Demo.owner []
                (demo_world_healthy Demo.store0) eq_refl eq_refl eq_refl Hvalid Hrows Hunder)
    as Hlost.
  assert (Hnumeric : forall text, time_text Cases.python_numeric_time = Some text ->
                                  Demo.decimal_6_3 text = false)
    by (intros text Htext; discriminate Htext).
  assert (Hlong : forall text, time_text Cases.python_long_time = Some text ->
                               Demo.decimal_6_3 text = false).
  { intros text Htext. vm_compute in Htext. injection Htext as <-. reflexivity. }
  destruct (Hlost Cases.python_numeric_time Hnumeric) as [Hreply [Hcharged _]].
  split; [apply demo_world_healthy |]. split; [reflexivity |]. split; [exact Hreply |].
  split; [exact Hcharged |]. split; [reflexivity |]. split; [reflexivity |].
  exact (proj1 (Hlost Cases.python_long_time Hlong)).
Defined.

(** X20 at the same token asked for twice, the random bytes being the same:
    the second request is answered 500 and the table holds one token. *)
Lemma unique_keys_are_kept_witness :
  Forall (served Demo.digest Demo.jwt Cases.integer Demo.decimal_6_3) Cases.issued_twice /\
  unique_keys (db (Demo.world Demo.store_users)) /\
  unique_keys (db (snd (serve Cases.issued_twice (Demo.world Demo.store_users)))) /\
  nth_error (fst (serve Cases.issued_twice (Demo.world Demo.store_users))) 1
  = Some (Ok (Respond 500 (error_body "Error generando token"))) /\
  List.length (api_tokens (db (snd (serve Cases.issued_twice (Demo.world Demo.store_users)))))
  = 1%nat.
Proof.
  assert (Hserved : Forall (served Demo.digest Demo.jwt Cases.integer Demo.decimal_6_3)
                      Cases.issued_twice)
    by (unfold Cases.issued_twice; repeat constructor).
  assert (Hkeys : unique_keys (db (Demo.world Demo.store_users)))
    by (repeat split; constructor).
  split; [exact Hserved |]. split; [exact Hkeys |].
  split; [| split; vm_compute; reflexivity].
  exact (unique_keys_are_kept Demo.digest Demo.jwt Cases.integer Demo.decimal_6_3
           Cases.issued_twice
           (Demo.world Demo.store_users) Hserved Hkeys).
Defined.
